(** * The insulin-dosing practice quiz ([dosing-quiz.js])

    A shallow embedding of the page script and of the JavaScript
    operations it relies on.  JavaScript numbers are IEEE 754 binary64
    values, so they are modelled by Rocq's primitive floats: sums,
    differences, products, quotients and comparisons are the processor's
    own, and the library functions the script calls ([parseFloat],
    [Number.prototype.toFixed], [Math.round], [Math.floor]) are written
    out from their ECMAScript definitions over the exact value of a
    double, read through [Prim2SF]. *)

From Stdlib Require Import ZArith QArith Qround Qabs Floats FloatLemmas List String Ascii Bool Lia.
From Stdlib Require Uint63.
Import ListNotations.

Set Warnings "-inexact-float".

Local Open Scope string_scope.
Local Open Scope Z_scope.

(** ** JavaScript values and library functions *)

Module JS.

Definition number := float.

(** The values a variable of the script can hold, as far as the script
    tells them apart. *)
Inductive value :=
| Undefined
| Null
| Num (x : number).

(** [a === b] *)
Definition strict_eq (a b : value) : bool :=
  match a, b with
  | Undefined, Undefined => true
  | Null, Null => true
  | Num x, Num y => (x =? y)%float
  | _, _ => false
  end.

(** Truthiness of a number: [+0], [-0] and [NaN] are falsy. *)
Definition ToBoolean (x : number) : bool :=
  negb (PrimFloat.is_zero x || PrimFloat.is_nan x).

(** [!x] *)
Definition not (x : number) : bool := negb (ToBoolean x).

(** [x || y] on numbers *)
Definition or_else (x y : number) : number := if ToBoolean x then x else y.

(** [x > y] *)
Definition gt (x y : number) : bool := (y <? x)%float.

(** [x != y] on numbers *)
Definition neq (x y : number) : bool := negb (x =? y)%float.

Definition signed (s : bool) (x : number) : number :=
  if s then (- x)%float else x.

(** The double of an integer; exact for magnitudes up to [2^53], which
    covers every use below. *)
Definition number_of_Z (n : Z) : number :=
  match n with
  | Z0 => PrimFloat.zero
  | Zpos _ => of_uint63 (Uint63.of_Z n)
  | Zneg _ => (- of_uint63 (Uint63.of_Z (- n)))%float
  end.

Definition number_of_N (n : N) : number := number_of_Z (Z.of_N n).

(** [array.length] *)
Definition length {A} (l : list A) : number :=
  number_of_Z (Z.of_nat (List.length l)).

(** The exact value of a finite double as a rational in lowest terms. *)
Definition exact_SF (x : spec_float) : option Q :=
  match x with
  | S754_zero _ => Some 0%Q
  | S754_finite s m e =>
      Some (if 0 <=? e then inject_Z (cond_Zopp s (Zpos m) * 2 ^ e)
            else Qred (Qmake (cond_Zopp s (Zpos m)) (Z.to_pos (2 ^ (- e)))))
  | _ => None
  end.

Definition exact (x : number) : option Q := exact_SF (Prim2SF x).

(** [Math.floor]: the greatest integer not above [x]. *)
Definition Math_floor (x : number) : number :=
  match Prim2SF x with
  | S754_finite s m e =>
      if 0 <=? e then x
      else number_of_Z (cond_Zopp s (Zpos m) / 2 ^ (- e))
  | _ => x
  end.

(** [Math.round]: the integer closest to [x], the one towards
    [+Infinity] on a tie; [-0] for [-0.5 <= x < 0]. *)
Definition Math_round (x : number) : number :=
  match Prim2SF x with
  | S754_finite s m e =>
      if 0 <=? e then x
      else
        let n := (2 * cond_Zopp s (Zpos m) + 2 ^ (- e)) / 2 ^ (1 - e) in
        if n =? 0 then signed s PrimFloat.zero else number_of_Z n
  | _ => x
  end.

(** The array index a number denotes, if any: a non-negative integer
    ([-0] denotes index 0). *)
Definition to_index (x : number) : option nat :=
  match Prim2SF x with
  | S754_zero _ => Some O
  | S754_finite false m e =>
      if 0 <=? e then Some (Z.to_nat (Zpos m * 2 ^ e))
      else if Zpos m mod 2 ^ (- e) =? 0
           then Some (Z.to_nat (Zpos m / 2 ^ (- e)))
           else None
  | _ => None
  end.

(** The integer a number is, when it is one. *)
Definition integer_value (x : number) : option Z :=
  match Prim2SF x with
  | S754_zero _ => Some 0
  | S754_finite s m e =>
      if 0 <=? e then Some (cond_Zopp s (Zpos m * 2 ^ e))
      else if Zpos m mod 2 ^ (- e) =? 0
           then Some (cond_Zopp s (Zpos m / 2 ^ (- e)))
           else None
  | _ => None
  end.

(** [array[i]]; [None] stands for [undefined]. *)
Definition get {A} (l : list A) (i : number) : option A :=
  match to_index i with
  | Some k => nth_error l k
  | None => None
  end.

(** *** Decimal text *)

Definition code (c : ascii) : Z := Z.of_N (N_of_ascii c).

Definition is_digit (c : ascii) : bool := (48 <=? code c) && (code c <=? 57).

Definition digit_value (c : ascii) : Z := code c - 48.

Definition digit_char (d : Z) : ascii := ascii_of_N (Z.to_N (48 + d)).

(** White space and line terminators of the ASCII range: the texts of
    the fields are strings of ASCII characters. *)
Definition is_white (c : ascii) : bool :=
  ((9 <=? code c) && (code c <=? 13)) || (code c =? 32).

Fixpoint TrimStart (s : string) : string :=
  match s with
  | String c r => if is_white c then TrimStart r else s
  | EmptyString => s
  end.

(** The longest run of decimal digits at the head of [s]: the number it
    denotes after the digits already read into [acc], how many digits
    were taken, and the rest of the text. *)
Fixpoint DecimalDigits (s : string) (acc : Z) (cnt : nat) : Z * nat * string :=
  match s with
  | String c r =>
      if is_digit c then DecimalDigits r (10 * acc + digit_value c) (S cnt)
      else (acc, cnt, s)
  | EmptyString => (acc, cnt, s)
  end.

Definition SignedInteger (s : string) : option Z :=
  let '(neg, r) :=
    match s with
    | String "+" r => (false, r)
    | String "-" r => (true, r)
    | _ => (false, s)
    end in
  let '(v, cnt, _) := DecimalDigits r 0 O in
  match cnt with
  | O => None
  | S _ => Some (cond_Zopp neg v)
  end.

(** The value of an exponent part at the head of [s]; [0] when there is
    none (an [e] that no integer follows is not part of the literal). *)
Definition ExponentPart (s : string) : Z :=
  match s with
  | String c r =>
      if (Ascii.eqb c "e" || Ascii.eqb c "E")%char
      then match SignedInteger r with Some v => v | None => 0 end
      else 0
  | EmptyString => 0
  end.

(** The double nearest to [mant * 10 ^ exp10] (ties to even), with the
    sign [neg]: the quotient of two integers, rounded once. *)
Definition RoundMV (neg : bool) (mant exp10 : Z) : number :=
  match mant with
  | Zpos m =>
      let num := (m * Z.to_pos (10 ^ Z.max exp10 0))%positive in
      let den := Z.to_pos (10 ^ Z.max (- exp10) 0) in
      let q := SFdiv prec emax (S754_finite false num 0) (S754_finite false den 0) in
      SF2Prim (if neg then SFopp q else q)
  | _ => signed neg PrimFloat.zero
  end.

Definition StrUnsignedDecimalLiteral (neg : bool) (s : string) : number :=
  if String.prefix "Infinity" s then signed neg infinity
  else
    let '(ip, ni, r1) := DecimalDigits s 0 O in
    let '(mant, nf, r2) :=
      match r1 with
      | String "." r => DecimalDigits r ip O
      | _ => (ip, O, r1)
      end in
    match (ni + nf)%nat with
    | O => nan
    | S _ => RoundMV neg mant (ExponentPart r2 - Z.of_nat nf)
    end.

(** [parseFloat]: the number written by the longest prefix of the
    trimmed text that is a decimal literal, [NaN] when there is none. *)
Definition parseFloat (s : string) : number :=
  match TrimStart s with
  | String "+" r => StrUnsignedDecimalLiteral false r
  | String "-" r => StrUnsignedDecimalLiteral true r
  | t => StrUnsignedDecimalLiteral false t
  end.

Fixpoint decimal_aux (fuel : nat) (n : Z) (acc : string) : string :=
  let acc' := String (digit_char (n mod 10)) acc in
  match fuel with
  | O => acc'
  | S f => if n <? 10 then acc' else decimal_aux f (n / 10) acc'
  end.

(** The decimal digits of a natural number. *)
Definition decimal (n : Z) : string := decimal_aux (Z.to_nat (Z.log2 n)) n "".

(** The integer [n] for which [n / 10] is closest to the magnitude
    [m * 2 ^ e]; the larger one when two are equally close. *)
Definition tenths (m : positive) (e : Z) : Z :=
  if 0 <=? e then 10 * Zpos m * 2 ^ e
  else (20 * Zpos m + 2 ^ (- e)) / 2 ^ (1 - e).

(** [x.toFixed(1)].  From [10^21] on the engine prints the shortest
    literal that reads back as [x] in exponent notation; here the digits
    of [x] are written in full, which reads back as [x] as well. *)
Definition toFixed_1 (x : number) : string :=
  match Prim2SF x with
  | S754_nan => "NaN"
  | S754_infinity s => (if s then "-" else "") ++ "Infinity"
  | S754_zero _ => "0.0"
  | S754_finite s m e =>
      let n := tenths m e in
      (if s then "-" else "") ++ decimal (n / 10) ++ String "." (decimal (n mod 10))
  end.

End JS.

(** ** The quiz script *)

Module DosingQuiz.

Import JS.

Local Open Scope float_scope.

Record FoodItem := {
  name : string;
  servingSize : string;
  servingsPerContainer : number;
  calories : number;
  totalCarbs : number;
  fiber : number;
  sugars : number;
  protein : number;
  portions : list number
}.

Definition foodDatabase : list FoodItem := [
  {| name := "Cheerios Cereal"; servingSize := "1 cup (28g)";
     servingsPerContainer := 14; calories := 100; totalCarbs := 20;
     fiber := 3; sugars := 1; protein := 3; portions := [0.5; 1; 1.5; 2] |};
  {| name := "Kraft Mac & Cheese"; servingSize := "1 cup prepared (189g)";
     servingsPerContainer := 3; calories := 350; totalCarbs := 47;
     fiber := 2; sugars := 10; protein := 11; portions := [0.5; 1; 1.5; 2] |};
  {| name := "Apple (Medium)"; servingSize := "1 medium apple (182g)";
     servingsPerContainer := 1; calories := 95; totalCarbs := 25;
     fiber := 4; sugars := 19; protein := 0; portions := [0.5; 1; 1.5; 2] |};
  {| name := "White Bread"; servingSize := "2 slices (52g)";
     servingsPerContainer := 10; calories := 140; totalCarbs := 26;
     fiber := 1; sugars := 3; protein := 5; portions := [1; 2; 3; 4] |};
  {| name := "Peanut Butter"; servingSize := "2 tbsp (32g)";
     servingsPerContainer := 15; calories := 190; totalCarbs := 7;
     fiber := 2; sugars := 3; protein := 8; portions := [1; 2; 3] |};
  {| name := "Orange Juice"; servingSize := "8 fl oz (240mL)";
     servingsPerContainer := 8; calories := 110; totalCarbs := 26;
     fiber := 0; sugars := 22; protein := 2; portions := [0.5; 1; 1.5; 2] |};
  {| name := "Pizza (Frozen)"; servingSize := "1/4 pizza (120g)";
     servingsPerContainer := 4; calories := 320; totalCarbs := 38;
     fiber := 2; sugars := 5; protein := 13; portions := [1; 2; 3] |};
  {| name := "Banana (Medium)"; servingSize := "1 medium banana (118g)";
     servingsPerContainer := 1; calories := 105; totalCarbs := 27;
     fiber := 3; sugars := 14; protein := 1; portions := [0.5; 1; 1.5; 2] |};
  {| name := "Yogurt (Vanilla)"; servingSize := "1 container (170g)";
     servingsPerContainer := 1; calories := 150; totalCarbs := 25;
     fiber := 0; sugars := 19; protein := 6; portions := [0.5; 1; 1.5; 2] |};
  {| name := "Spaghetti with Sauce"; servingSize := "1 cup (249g)";
     servingsPerContainer := 4; calories := 260; totalCarbs := 43;
     fiber := 4; sugars := 9; protein := 9; portions := [0.5; 1; 1.5; 2] |};
  {| name := "Granola Bar"; servingSize := "1 bar (35g)";
     servingsPerContainer := 6; calories := 140; totalCarbs := 23;
     fiber := 2; sugars := 8; protein := 3; portions := [1; 2; 3] |};
  {| name := "Chocolate Chip Cookies"; servingSize := "3 cookies (34g)";
     servingsPerContainer := 10; calories := 160; totalCarbs := 22;
     fiber := 1; sugars := 11; protein := 2; portions := [1; 2; 3; 4] |}
].

Record Settings := {
  carbRatio : number;
  correctionFactor : number;
  targetBG : number
}.

(** The two counters start at 0 and only ever grow by one, so they are
    kept as natural numbers; as doubles they are exact up to [2^53]. *)
Record Stats := {
  totalAttempts : N;
  correctAnswers : N
}.

(** The script's global variables.  [currentFood] is [null] until the
    first question is generated. *)
Record Quiz := {
  currentFood : option FoodItem;
  currentPortion : number;
  currentBG : number;
  userSettings : Settings;
  stats : Stats
}.

Definition initial : Quiz := {|
  currentFood := None;
  currentPortion := 1;
  currentBG := 120;
  userSettings := {| carbRatio := 10; correctionFactor := 50; targetBG := 100 |};
  stats := {| totalAttempts := 0; correctAnswers := 0 |}
|}.

Inductive FeedbackType := correct | close | incorrect.

(** The encouragement messages, without their trailing pictographs. *)
Definition encouragementMessages (t : FeedbackType) : list string :=
  match t with
  | correct => [
      "Excellent work! You nailed it!";
      "Perfect calculation! You're getting good at this!";
      "Outstanding! That's exactly right!";
      "You've got this down! Great job!";
      "Brilliant! Your math skills are on point!";
      "Spot on! You're a dosing pro!" ]
  | close => [
      "So close! You're on the right track!";
      "Almost there! Just a small adjustment needed!";
      "Good effort! You're learning quickly!";
      "Not bad! With practice, you'll get it perfect!";
      "You're getting warmer! Keep practicing!" ]
  | incorrect => [
      "Don't worry, this is tricky! Let's review the calculation together.";
      "Learning from mistakes makes us better! Let's see where we can improve.";
      "This is tough stuff - let's break it down step by step.";
      "No worries! Even experienced people double-check their doses.";
      "Keep practicing! Each attempt helps you learn." ]
  end%string.

(** The object handed to [displayFeedback]. *)
Record FeedbackData := {
  userCarbsEating : number;
  userInsulinCarbs : number;
  userInsulinCorrection : number;
  userTotalDose : number;
  correctCarbs : number;
  correctInsulinCarbs : number;
  correctInsulinCorrection : number;
  correctTotalDose : number
}.

(** What [displayFeedback] puts on the page: the banner of the tier, the
    message, the solution, and for each of the four steps whether it is
    shown as right (green) or annotated with the learner's value. *)
Record Feedback := {
  fb_type : FeedbackType;
  fb_message : option string;
  fb_data : FeedbackData;
  step1_right : bool;
  step2_right : bool;
  step3_right : bool;
  step4_right : bool
}.

Record StatsPanel := {
  total_attempts_text : N;
  correct_count_text : N;
  accuracy_text : number
}.

Record NutritionLabel := {
  label_calories : number;
  label_totalCarbs : number;
  label_fiber : number;
  label_sugars : number;
  label_protein : number
}.

(** The part of the document the script reads and writes. *)
Record Page := {
  carb_ratio : string;
  correction_factor : string;
  target_bg : string;
  carbs_eating : string;
  insulin_carbs : string;
  insulin_correction : string;
  total_dose : string;
  feedback_section : option Feedback;
  current_bg : option number;
  nutrition_label : option NutritionLabel;
  stats_panel : option StatsPanel
}.

(** How a call of one of the script's functions ends. *)
Inductive Outcome :=
| Done
| Alert (msg : string)
| TypeError.

Definition displayFeedback (type : FeedbackType) (message : option string)
    (data : FeedbackData) : Feedback := {|
  fb_type := type;
  fb_message := message;
  fb_data := data;
  step1_right := negb (neq (userCarbsEating data) (correctCarbs data));
  step2_right :=
    negb (gt (abs (userInsulinCarbs data - correctInsulinCarbs data)) 0.3);
  step3_right :=
    negb (gt (abs (userInsulinCorrection data - correctInsulinCorrection data)) 0.3);
  step4_right :=
    negb (gt (abs (userTotalDose data - correctTotalDose data)) 0.3)
|}.

Definition updateStats (s : Stats) : StatsPanel := {|
  total_attempts_text := totalAttempts s;
  correct_count_text := correctAnswers s;
  accuracy_text :=
    if (0 <? totalAttempts s)%N
    then Math_round (number_of_N (correctAnswers s) / number_of_N (totalAttempts s) * 100)
    else 0
|}.

Definition renderNutritionLabel (food : FoodItem) (portion : number) : NutritionLabel := {|
  label_calories := Math_round (calories food * portion);
  label_totalCarbs := Math_round (totalCarbs food * portion);
  label_fiber := Math_round (fiber food * portion);
  label_sugars := Math_round (sugars food * portion);
  label_protein := Math_round (protein food * portion)
|}.

(** [generateQuestion], given the three numbers [Math.random()] returns
    during the call. *)
Definition generateQuestion (r1 r2 r3 : number) (p : Page) (q : Quiz)
  : Outcome * Page * Quiz :=
  let p := {| carb_ratio := carb_ratio p; correction_factor := correction_factor p;
              target_bg := target_bg p;
              carbs_eating := ""; insulin_carbs := ""; insulin_correction := "";
              total_dose := "";
              feedback_section := None; current_bg := current_bg p;
              nutrition_label := nutrition_label p; stats_panel := stats_panel p |} in
  match get foodDatabase (Math_floor (r1 * length foodDatabase)) with
  | None =>
      (TypeError, p,
       {| currentFood := None; currentPortion := currentPortion q;
          currentBG := currentBG q; userSettings := userSettings q; stats := stats q |})
  | Some food =>
      let portionIndex := Math_floor (r2 * length (portions food)) in
      let portion :=
        match get (portions food) portionIndex with
        | Some x => x
        | None => nan
        end in
      let bg := Math_floor (r3 * (280 - 80 + 1)) + 80 in
      let bg := Math_round (bg / 5) * 5 in
      (Done,
       {| carb_ratio := carb_ratio p; correction_factor := correction_factor p;
          target_bg := target_bg p;
          carbs_eating := carbs_eating p; insulin_carbs := insulin_carbs p;
          insulin_correction := insulin_correction p; total_dose := total_dose p;
          feedback_section := feedback_section p; current_bg := Some bg;
          nutrition_label := Some (renderNutritionLabel food portion);
          stats_panel := stats_panel p |},
       {| currentFood := Some food; currentPortion := portion; currentBG := bg;
          userSettings := userSettings q; stats := stats q |})
  end.

Definition startQuiz (r1 r2 r3 : number) (p : Page) (q : Quiz)
  : Outcome * Page * Quiz :=
  let carbRatio := parseFloat (carb_ratio p) in
  let correctionFactor := parseFloat (correction_factor p) in
  let targetBG := parseFloat (target_bg p) in
  if not carbRatio || not correctionFactor || not targetBG
  then (Alert "Please fill in all your dosing settings!", p, q)
  else if (carbRatio <=? 0) || (correctionFactor <=? 0) || (targetBG <? 70)
          || gt targetBG 180
  then (Alert "Please enter realistic values for your settings.", p, q)
  else
    generateQuestion r1 r2 r3 p
      {| currentFood := currentFood q; currentPortion := currentPortion q;
         currentBG := currentBG q;
         userSettings := {| carbRatio := carbRatio; correctionFactor := correctionFactor;
                            targetBG := targetBG |};
         stats := stats q |}.

(** The block of [checkAnswer] under "Calculate correct answer": the
    four reference quantities for the current food, portion, blood
    glucose and settings. *)
Record CorrectDose := {
  netCarbs : number;
  insulinForCarbs : number;
  correctionDose : number;
  totalDose : number
}.

Definition correctAnswer (food : FoodItem) (portion bg : number) (s : Settings)
  : CorrectDose :=
  let correctCarbs := Math_round ((totalCarbs food - fiber food) * portion) in
  let correctInsulinCarbs := parseFloat (toFixed_1 (correctCarbs / carbRatio s)) in
  let bgDifference := bg - targetBG s in
  let correctInsulinCorrection :=
    if gt bgDifference 0
    then parseFloat (toFixed_1 (bgDifference / correctionFactor s))
    else 0 in
  let correctTotalDose :=
    parseFloat (toFixed_1 (correctInsulinCarbs + correctInsulinCorrection)) in
  {| netCarbs := correctCarbs;
     insulinForCarbs := correctInsulinCarbs;
     correctionDose := correctInsulinCorrection;
     totalDose := correctTotalDose |}.

(** The block of [checkAnswer] under "Check how close they are": the
    tier of a total dose and a carb count against the reference. *)
Definition tier (userTotalDose userCarbsEating : number) (c : CorrectDose)
  : FeedbackType :=
  let doseDifference := abs (userTotalDose - totalDose c) in
  let carbsDifference := abs (userCarbsEating - netCarbs c) in
  if (doseDifference <=? 0.3) && (carbsDifference <=? 2) then correct
  else if (doseDifference <=? 1) && (carbsDifference <=? 5) then close
  else incorrect.

(** [checkAnswer], given the number [Math.random()] returns when the
    message is picked. *)
Definition checkAnswer (r : number) (p : Page) (q : Quiz)
  : Outcome * Page * Quiz :=
  let userCarbsEating := parseFloat (carbs_eating p) in
  let userInsulinCarbs := parseFloat (insulin_carbs p) in
  let userInsulinCorrection := or_else (parseFloat (insulin_correction p)) 0 in
  let userTotalDose := parseFloat (total_dose p) in
  if not userCarbsEating || not userInsulinCarbs
     || strict_eq (Num userTotalDose) Null
     || strict_eq (Num userTotalDose) Undefined
  then (Alert "Please fill in all fields before checking your answer!", p, q)
  else
    match currentFood q with
    | None => (TypeError, p, q)
    | Some food =>
        let c := correctAnswer food (currentPortion q) (currentBG q) (userSettings q) in
        let feedbackType := tier userTotalDose userCarbsEating c in
        let stats' :=
          {| totalAttempts := totalAttempts (stats q) + 1;
             correctAnswers :=
               match feedbackType with
               | correct => correctAnswers (stats q) + 1
               | _ => correctAnswers (stats q)
               end |}%N in
        let messages := encouragementMessages feedbackType in
        let message := get messages (Math_floor (r * length messages)) in
        let fb :=
          displayFeedback feedbackType message
            {| userCarbsEating := userCarbsEating;
               userInsulinCarbs := userInsulinCarbs;
               userInsulinCorrection := userInsulinCorrection;
               userTotalDose := userTotalDose;
               correctCarbs := netCarbs c;
               correctInsulinCarbs := insulinForCarbs c;
               correctInsulinCorrection := correctionDose c;
               correctTotalDose := totalDose c |} in
        (Done,
         {| carb_ratio := carb_ratio p; correction_factor := correction_factor p;
            target_bg := target_bg p;
            carbs_eating := carbs_eating p; insulin_carbs := insulin_carbs p;
            insulin_correction := insulin_correction p; total_dose := total_dose p;
            feedback_section := Some fb; current_bg := current_bg p;
            nutrition_label := nutrition_label p;
            stats_panel := Some (updateStats stats') |},
         {| currentFood := currentFood q; currentPortion := currentPortion q;
            currentBG := currentBG q; userSettings := userSettings q;
            stats := stats' |})
    end.

Definition nextQuestion := generateQuestion.

End DosingQuiz.

(** ** The specification's reading of the rounding rules and of the
    grading table *)

Module Spec.

Import JS DosingQuiz.

Local Open Scope Q_scope.

(** Rounding to the nearest integer, a tie going to the larger one. *)
Definition round_half_up (q : Q) : Z := Qfloor (q + (1 # 2)).

(** Rounding to the nearest integer, a tie going away from zero. *)
Definition round_half_away (q : Q) : Z :=
  if Qle_bool 0 q then Qfloor (q + (1 # 2)) else (- Qfloor (- q + (1 # 2)))%Z.

(** The double that stands for [q] rounded half away from zero to one
    decimal place (the double nearest to that decimal). *)
Definition round1_half_away (q : Q) : number :=
  RoundMV (negb (Qle_bool 0 q)) (Z.abs (round_half_away (10 * q))) (-1).

(** [accuracyPercent] as the specification defines it. *)
Definition accuracyPercent (s : Stats) : Z :=
  if (totalAttempts s =? 0)%N then 0%Z
  else round_half_up (100 * (Z.of_N (correctAnswers s) # 1) / (Z.of_N (totalAttempts s) # 1)).

(** The grading table of the specification, on the two differences. *)
Definition tier (doseDifference carbsDifference : Q) : FeedbackType :=
  if Qle_bool doseDifference (3 # 10) && Qle_bool carbsDifference 2 then correct
  else if Qle_bool doseDifference 1 && Qle_bool carbsDifference 5 then close
  else incorrect.

(** The tier of a submitted total dose and carb count against the
    reference ones, all four taken as the decimal numbers they are. *)
Definition grade (totalDose carbsEaten correctTotalDose correctNetCarbs : Q)
  : FeedbackType :=
  tier (Qabs (totalDose - correctTotalDose)) (Qabs (carbsEaten - correctNetCarbs)).

(** [q] lies exactly halfway between two integers. *)
Definition tie (q : Q) : bool := Qeq_bool (q - inject_Z (Qfloor q)) (1 # 2).

End Spec.

(** ** Notions used to state the properties of the script *)

Module Scoring.

Import JS DosingQuiz.

Local Open Scope float_scope.

(** The input check of [checkAnswer], as it evaluates: the comparisons of
    the parsed total dose with [null] and [undefined] are always false. *)
Definition incomplete (p : Page) : bool :=
  not (parseFloat (carbs_eating p)) || not (parseFloat (insulin_carbs p)).

(** The tier and the statistics of a submission that is scored. *)
Definition scored_tier (p : Page) (q : Quiz) (food : FoodItem) : FeedbackType :=
  tier (parseFloat (total_dose p)) (parseFloat (carbs_eating p))
       (correctAnswer food (currentPortion q) (currentBG q) (userSettings q)).

Definition scored_stats (t : FeedbackType) (s : Stats) : Stats :=
  {| totalAttempts := totalAttempts s + 1;
     correctAnswers := match t with
                       | correct => correctAnswers s + 1
                       | _ => correctAnswers s
                       end |}%N.

(** A page holding the four answers of a submission, the settings
    fields as the quiz starts with them and nothing displayed yet. *)
Definition submission (carbs insulinCarbs correction total : string) : Page := {|
  carb_ratio := "10"; correction_factor := "50"; target_bg := "100";
  carbs_eating := carbs; insulin_carbs := insulinCarbs;
  insulin_correction := correction; total_dose := total;
  feedback_section := None; current_bg := None; nutrition_label := None;
  stats_panel := None
|}.

Definition Cheerios : FoodItem := {|
  name := "Cheerios Cereal"; servingSize := "1 cup (28g)";
  servingsPerContainer := 14; calories := 100; totalCarbs := 20;
  fiber := 3; sugars := 1; protein := 3; portions := [0.5; 1; 1.5; 2]
|}.

(** Example scenario 1 of the specification: Cheerios, one serving,
    blood glucose 150, the default settings, no attempt yet. *)
Definition scenario1 : Quiz := {|
  currentFood := Some Cheerios; currentPortion := 1; currentBG := 150;
  userSettings := {| carbRatio := 10; correctionFactor := 50; targetBG := 100 |};
  stats := {| totalAttempts := 0; correctAnswers := 0 |}
|}.

(** [100 * correctAnswers / totalAttempts] lies exactly halfway between
    two integers. *)
Definition halfway (s : Stats) : bool :=
  let c := Z.of_N (correctAnswers s) in
  let t := Z.of_N (totalAttempts s) in
  ((200 * c) mod t =? 0)%Z && Z.odd (200 * c / t).

(** A session: each attempt types its answers into the page and has
    them checked; the number paired with a page is the one
    [Math.random()] returns during that check. *)
Fixpoint session (l : list (number * Page)) (q : Quiz) : Quiz :=
  match l with
  | [] => q
  | (r, p) :: l' => session l' (snd (checkAnswer r p q))
  end.

(** The submissions the specification lets the grader see: the carbs
    eaten, the insulin for carbs and the total dose are present and
    numeric, that is, [parseFloat] reads a number from each field (it
    reads [NaN] from an empty one and from text that starts with no
    number). *)
Definition numeric_answers (p : Page) : bool :=
  negb (PrimFloat.is_nan (parseFloat (carbs_eating p)))
  && negb (PrimFloat.is_nan (parseFloat (insulin_carbs p)))
  && negb (PrimFloat.is_nan (parseFloat (total_dose p))).

(** The carbs eaten or the insulin for carbs is given as zero. *)
Definition zero_answer (p : Page) : bool :=
  PrimFloat.is_zero (parseFloat (carbs_eating p))
  || PrimFloat.is_zero (parseFloat (insulin_carbs p)).

End Scoring.

(** ** The page in use *)

Module Interaction.

Import JS DosingQuiz.

Local Open Scope float_scope.

(** The seven inputs of the page. *)
Inductive Field :=
| carb_ratio_field
| correction_factor_field
| target_bg_field
| carbs_eating_field
| insulin_carbs_field
| insulin_correction_field
| total_dose_field.

(** The learner types [s] into the input [f]. *)
Definition fill (f : Field) (s : string) (p : Page) : Page := {|
  carb_ratio := match f with carb_ratio_field => s | _ => carb_ratio p end;
  correction_factor :=
    match f with correction_factor_field => s | _ => correction_factor p end;
  target_bg := match f with target_bg_field => s | _ => target_bg p end;
  carbs_eating := match f with carbs_eating_field => s | _ => carbs_eating p end;
  insulin_carbs := match f with insulin_carbs_field => s | _ => insulin_carbs p end;
  insulin_correction :=
    match f with insulin_correction_field => s | _ => insulin_correction p end;
  total_dose := match f with total_dose_field => s | _ => total_dose p end;
  feedback_section := feedback_section p;
  current_bg := current_bg p;
  nutrition_label := nutrition_label p;
  stats_panel := stats_panel p
|}.

(** What can happen to the page: an input is edited, or one of the
    three functions the buttons call is run, with the numbers
    [Math.random()] returns during the call. *)
Inductive Action :=
| Fill (f : Field) (s : string)
| StartQuiz (r1 r2 r3 : number)
| CheckAnswer (r : number)
| NextQuestion (r1 r2 r3 : number).

Definition perform (a : Action) (p : Page) (q : Quiz) : Outcome * Page * Quiz :=
  match a with
  | Fill f s => (Done, fill f s p, q)
  | StartQuiz r1 r2 r3 => startQuiz r1 r2 r3 p q
  | CheckAnswer r => checkAnswer r p q
  | NextQuestion r1 r2 r3 => nextQuestion r1 r2 r3 p q
  end.

(** The page and the state after a sequence of actions; a call that
    ends with an alert or throws leaves them as it had them then. *)
Fixpoint run (l : list Action) (p : Page) (q : Quiz) : Page * Quiz :=
  match l with
  | [] => (p, q)
  | a :: l' => let '(_, p', q') := perform a p q in run l' p' q'
  end.

(** How each call of the sequence ended. *)
Fixpoint outcomes (l : list Action) (p : Page) (q : Quiz) : list Outcome :=
  match l with
  | [] => []
  | a :: l' => let '(o, p', q') := perform a p q in o :: outcomes l' p' q'
  end.

(** [Math.random()] returns a number in [[0, 1)]. *)
Definition random (r : number) : bool := (0 <=? r) && (r <? 1).

Definition randoms (a : Action) : bool :=
  match a with
  | Fill _ _ => true
  | StartQuiz r1 r2 r3 | NextQuestion r1 r2 r3 => random r1 && random r2 && random r3
  | CheckAnswer r => random r
  end.

(** The number of calls of [checkAnswer] in a sequence. *)
Fixpoint checks (l : list Action) : N :=
  match l with
  | [] => 0
  | CheckAnswer _ :: l' => 1 + checks l'
  | _ :: l' => checks l'
  end%N.

(** The settings [startQuiz] lets through. *)
Definition validSettings (s : Settings) : bool :=
  (0 <? carbRatio s) && (0 <? correctionFactor s)
  && (70 <=? targetBG s) && (targetBG s <=? 180).

(** The settings typed on the page, as [startQuiz] reads them. *)
Definition typedSettings (p : Page) : Settings := {|
  carbRatio := parseFloat (carb_ratio p);
  correctionFactor := parseFloat (correction_factor p);
  targetBG := parseFloat (target_bg p)
|}.

(** A scenario as [generateQuestion] makes them: a food of the catalog
    in one of its portions, if there is a food at all, and a blood
    glucose that is a multiple of 5 from 80 to 280. *)
Definition wellFormed (q : Quiz) : Prop :=
  match currentFood q with
  | None => True
  | Some food => In food foodDatabase /\ In (currentPortion q) (portions food)
  end /\
  exists bg : Z,
    currentBG q = number_of_Z bg /\ (80 <= bg <= 280)%Z /\ (bg mod 5 = 0)%Z.

(** The page shows what the state holds: the blood glucose and the
    label of the current scenario, the counters once an answer has been
    scored, and feedback, if any, whose reference values are those of
    the current scenario under the current settings. *)
Definition inSync (p : Page) (q : Quiz) : Prop :=
  (forall food, currentFood q = Some food ->
     current_bg p = Some (currentBG q) /\
     nutrition_label p = Some (renderNutritionLabel food (currentPortion q))) /\
  (forall panel, stats_panel p = Some panel -> panel = updateStats (stats q)) /\
  (forall fb, feedback_section p = Some fb ->
     exists food,
       currentFood q = Some food /\
       (let c := correctAnswer food (currentPortion q) (currentBG q) (userSettings q) in
        correctCarbs (fb_data fb) = netCarbs c /\
        correctInsulinCarbs (fb_data fb) = insulinForCarbs c /\
        correctInsulinCorrection (fb_data fb) = correctionDose c /\
        correctTotalDose (fb_data fb) = totalDose c)).

(** A page on which the learner has typed the reference values with
    one decimal, in the text [toFixed(1)] gives of them. *)
Definition answered (c : CorrectDose) (p : Page) : Prop :=
  carbs_eating p = toFixed_1 (netCarbs c) /\
  insulin_carbs p = toFixed_1 (insulinForCarbs c) /\
  total_dose p = toFixed_1 (totalDose c).

End Interaction.

(** ** Classes of doubles *)

Module SFClass.

(** [x] is a zero, a finite number or an infinity of sign [s]. *)
Definition sign_is (s : bool) (x : spec_float) : Prop :=
  match x with
  | S754_zero s' | S754_infinity s' | S754_finite s' _ _ => s' = s
  | S754_nan => False
  end.

(** [x] is a non-zero finite number or an infinity of sign [s]. *)
Definition strictly (s : bool) (x : spec_float) : Prop :=
  match x with
  | S754_infinity s' | S754_finite s' _ _ => s' = s
  | _ => False
  end.

(** [x] is a zero, or a finite number or infinity of positive sign. *)
Definition nonneg (x : spec_float) : Prop :=
  match x with
  | S754_zero _ => True
  | S754_infinity s | S754_finite s _ _ => s = false
  | S754_nan => False
  end.

(** [x] is a zero or a finite number. *)
Definition finite (x : spec_float) : Prop :=
  match x with
  | S754_zero _ | S754_finite _ _ _ => True
  | _ => False
  end.

(** The location [l] places the fraction [num / den] within
    [[m, m + 1)]: on [m], or below, at or above the middle. *)
Definition located (num den m : Z) (l : location) : Prop :=
  match l with
  | loc_Exact => num = m * den
  | loc_Inexact Lt => m * den < num /\ 2 * num < (2 * m + 1) * den
  | loc_Inexact Eq => 2 * num = (2 * m + 1) * den
  | loc_Inexact Gt => (2 * m + 1) * den < 2 * num /\ num < (m + 1) * den
  end.

(** The value of a finite double in units of [2 ^ -1074], the least
    positive double: an integer. *)
Definition scaled (x : spec_float) : Z :=
  match x with
  | S754_finite s m e => cond_Zopp s (Zpos m * 2 ^ (e + 1074))
  | _ => 0
  end.

(** The integers that are the value of a double of 53 bits. *)
Definition representable (z : Z) : Prop :=
  exists v j, Z.abs z = v * 2 ^ j /\ 0 <= j /\ 0 <= v < 2 ^ 53.

End SFClass.

(** ** Facts about binary64 arithmetic *)

Module Binary64.

Export SFClass.

Lemma SFeqb_refl_false x : SFeqb x x = false -> x = S754_nan.
Proof.
  destruct x as [s|s| |s m e]; unfold SFeqb; simpl; try discriminate; auto.
  - destruct s; discriminate.
  - change (PosDef.Pos.compare_cont Eq m m) with (Pos.compare m m).
    rewrite Z.compare_refl, Pos.compare_refl. destruct s; discriminate.
Qed.

Lemma is_nan_spec x : PrimFloat.is_nan x = true <-> Prim2SF x = S754_nan.
Proof.
  unfold PrimFloat.is_nan. rewrite FloatAxioms.eqb_spec. split.
  - intros H. apply SFeqb_refl_false. now apply negb_true_iff.
  - intros ->. reflexivity.
Qed.

Lemma nan_sub_l x y : PrimFloat.is_nan x = true -> PrimFloat.is_nan (x - y) = true.
Proof.
  rewrite !is_nan_spec, sub_spec. intros ->. reflexivity.
Qed.

Lemma nan_abs x : PrimFloat.is_nan x = true -> PrimFloat.is_nan (abs x) = true.
Proof.
  rewrite !is_nan_spec, abs_spec. intros ->. reflexivity.
Qed.

Lemma nan_leb_l x y : PrimFloat.is_nan x = true -> (x <=? y)%float = false.
Proof.
  rewrite is_nan_spec, leb_spec. intros ->. reflexivity.
Qed.


(** *** Shifting a mantissa to the right *)

Lemma iter_pos_invariant {A} (P : A -> Prop) (f : A -> A) :
  (forall x, P x -> P (f x)) -> forall p x, P x -> P (iter_pos f p x).
Proof.
  intros Hf. induction p as [p IH|p IH|]; intros x Hx; simpl; auto.
Qed.

Lemma iter_pos_nat {A} (f : A -> A) p x :
  iter_pos f p x = Nat.iter (Pos.to_nat p) f x.
Proof.
  revert x. induction p as [p IH|p IH|]; intros x; cbn [iter_pos].
  - rewrite !IH, Pos2Nat.inj_xI, Nat.iter_succ_r.
    replace (2 * Pos.to_nat p)%nat with (Pos.to_nat p + Pos.to_nat p)%nat by lia.
    now rewrite Nat.iter_add.
  - rewrite !IH, Pos2Nat.inj_xO.
    replace (2 * Pos.to_nat p)%nat with (Pos.to_nat p + Pos.to_nat p)%nat by lia.
    now rewrite Nat.iter_add.
  - reflexivity.
Qed.

Lemma shr_1_m mrs : 0 <= shr_m mrs -> shr_m (shr_1 mrs) = shr_m mrs / 2.
Proof.
  destruct mrs as [m r s]. simpl. intros H.
  destruct m as [|[p|p|]|p]; simpl; try lia; try reflexivity.
  - rewrite Pos2Z.inj_xI. apply Z.div_unique with 1; lia.
  - rewrite Pos2Z.inj_xO. apply Z.div_unique with 0; lia.
Qed.

Lemma shr_iter_m n mrs :
  0 <= shr_m mrs -> shr_m (Nat.iter n shr_1 mrs) = shr_m mrs / 2 ^ Z.of_nat n.
Proof.
  intros H. induction n as [|n IH].
  - simpl. now rewrite Z.div_1_r.
  - rewrite Nat2Z.inj_succ, Z.pow_succ_r by lia. rewrite Nat.iter_succ.
    rewrite shr_1_m.
    + rewrite IH, Z.div_div by lia. f_equal. lia.
    + rewrite IH. apply Z.div_pos; lia.
Qed.

Lemma shr_m_spec mrs e n :
  0 <= shr_m mrs ->
  shr_m (fst (shr mrs e n)) = shr_m mrs / 2 ^ Z.max n 0 /\
  snd (shr mrs e n) = e + Z.max n 0.
Proof.
  intros H. destruct n as [|p|p]; simpl.
  - rewrite Z.div_1_r. lia.
  - rewrite iter_pos_nat, shr_iter_m, positive_nat_Z by assumption. split; reflexivity.
  - rewrite Z.div_1_r. lia.
Qed.

Lemma shr_record_of_loc_m m l : shr_m (shr_record_of_loc m l) = m.
Proof. destruct l as [|[]]; reflexivity. Qed.

Lemma digits2_log2 p : Zpos (digits2_pos p) = Z.log2 (Zpos p) + 1.
Proof.
  induction p as [p IH|p IH|]; simpl digits2_pos.
  - rewrite Pos2Z.inj_succ, IH. 
    change (Z.pos p~1) with (2 * Z.pos p + 1). rewrite Z.log2_succ_double by lia. lia.
  - rewrite Pos2Z.inj_succ, IH.
    change (Z.pos p~0) with (2 * Z.pos p). rewrite Z.log2_double by lia. lia.
  - reflexivity.
Qed.

Lemma Zdigits2_log2 m : 0 < m -> Zdigits2 m = Z.log2 m + 1.
Proof. destruct m; try lia. intros _. apply digits2_log2. Qed.

Lemma round_nearest_even_bounds m l :
  m <= round_nearest_even m l <= m + 1.
Proof.
  destruct l as [|[]]; simpl; try lia. destruct (Z.even m); lia.
Qed.

Lemma fexp_eq e : fexp prec emax e = Z.max (e - 53) (-1074).
Proof. reflexivity. Qed.

(** A positive mantissa at an exponent not below [emin] stays positive
    when it is brought to its canonical exponent. *)
Lemma shr_fexp_pos m e l :
  0 < m -> emin <= e ->
  0 < shr_m (fst (shr_fexp prec emax m e l)) /\
  emin <= snd (shr_fexp prec emax m e l).
Proof.
  intros Hm He. unfold shr_fexp.
  set (n := fexp prec emax (Zdigits2 m + e) - e).
  destruct (shr_m_spec (shr_record_of_loc m l) e n) as [E1 E2].
  { rewrite shr_record_of_loc_m. lia. }
  rewrite E1, E2, shr_record_of_loc_m. split; [|lia].
  destruct (Z.max_spec n 0) as [[Hn ->]|[Hn ->]].
  - rewrite Z.div_1_r. exact Hm.
  - apply Z.div_str_pos. split; [apply Z.pow_pos_nonneg; lia|].
    apply Z.log2_le_pow2; [lia|].
    subst n. rewrite Zdigits2_log2, fexp_eq by lia.
    pose proof (Z.log2_nonneg m). change emin with (-1074) in He. lia.
Qed.

(** *** Signs of rounded results *)



Lemma strictly_sign_is s x : strictly s x -> sign_is s x.
Proof. destruct x; simpl; tauto. Qed.

Lemma shr_fexp_nonneg m e l :
  0 <= m -> 0 <= shr_m (fst (shr_fexp prec emax m e l)).
Proof.
  intros Hm. unfold shr_fexp.
  destruct (shr_m_spec (shr_record_of_loc m l) e
              (fexp prec emax (Zdigits2 m + e) - e)) as [E1 _].
  { rewrite shr_record_of_loc_m. lia. }
  rewrite E1, shr_record_of_loc_m. apply Z.div_pos; lia.
Qed.

Lemma binary_round_aux_sign s m e l :
  0 <= m -> sign_is s (binary_round_aux prec emax s m e l).
Proof.
  intros Hm. unfold binary_round_aux.
  pose proof (shr_fexp_nonneg m e l Hm) as H1.
  destruct (shr_fexp prec emax m e l) as [mrs' e'] eqn:E1. cbn [fst] in H1.
  pose proof (round_nearest_even_bounds (shr_m mrs') (loc_of_shr_record mrs')) as H2.
  set (m2 := round_nearest_even (shr_m mrs') (loc_of_shr_record mrs')) in *.
  pose proof (shr_fexp_nonneg m2 e' loc_Exact ltac:(lia)) as H3.
  destruct (shr_fexp prec emax m2 e' loc_Exact) as [mrs'' e''] eqn:E2. cbn [fst] in H3.
  destruct (shr_m mrs''); [reflexivity| |lia].
  destruct (e'' <=? emax - prec); reflexivity.
Qed.

Lemma binary_round_aux_strictly s m e l :
  0 < m -> emin <= e -> strictly s (binary_round_aux prec emax s m e l).
Proof.
  intros Hm He. unfold binary_round_aux.
  pose proof (shr_fexp_pos m e l Hm He) as [H1 H1'].
  destruct (shr_fexp prec emax m e l) as [mrs' e'] eqn:E1. cbn [fst snd] in H1, H1'.
  pose proof (round_nearest_even_bounds (shr_m mrs') (loc_of_shr_record mrs')) as H2.
  set (m2 := round_nearest_even (shr_m mrs') (loc_of_shr_record mrs')) in *.
  pose proof (shr_fexp_pos m2 e' loc_Exact ltac:(lia) H1') as [H3 _].
  destruct (shr_fexp prec emax m2 e' loc_Exact) as [mrs'' e''] eqn:E2. cbn [fst] in H3.
  destruct (shr_m mrs''); [lia| |lia].
  destruct (e'' <=? emax - prec); reflexivity.
Qed.

Lemma shl_align_exponent m e e' :
  emin <= e -> emin <= e' -> emin <= snd (shl_align m e e').
Proof. unfold shl_align. destruct (e' - e); cbn [snd]; lia. Qed.

Lemma binary_round_sign s m e : sign_is s (binary_round prec emax s m e).
Proof.
  unfold binary_round. destruct (shl_align _ _ _) as [mz ez].
  apply binary_round_aux_sign. lia.
Qed.

Lemma binary_round_strictly s m e :
  emin <= e -> strictly s (binary_round prec emax s m e).
Proof.
  intros He. unfold binary_round.
  pose proof (shl_align_exponent m e (fexp prec emax (Z.pos (digits2_pos m) + e)) He) as H.
  destruct (shl_align _ _ _) as [mz ez]. cbn [snd] in H.
  apply binary_round_aux_strictly; [lia|]. apply H. rewrite fexp_eq. change emin with (-1074). lia.
Qed.

(** *** Aligned mantissas and comparison *)

Lemma shl_align_value m e e' :
  e' <= e -> Zpos (fst (shl_align m e e')) = Zpos m * 2 ^ (e - e').
Proof.
  intros H. unfold shl_align. destruct (e' - e) as [|d|d] eqn:E; cbn [fst]; try lia.
  - replace (e - e') with 0 by lia. lia.
  - replace (e - e') with (Zpos d) by lia.
    change (Pos.iter xO m d) with (shift_pos d m).
    rewrite shift_pos_correct, Z.pow_pos_fold. lia.
Qed.

Lemma canonical_bounds m e :
  canonical_mantissa prec emax m e = true ->
  -1074 <= e /\ Zpos m < 2 ^ 53 /\ (-1074 < e -> 2 ^ 52 <= Zpos m).
Proof.
  unfold canonical_mantissa. rewrite fexp_eq, digits2_log2. intros H.
  apply Z.eqb_eq in H.
  destruct (Z.log2_spec (Zpos m) ltac:(lia)) as [L1 L2].
  assert (Hl : Z.log2 (Zpos m) <= 52) by lia.
  split; [lia|]. split.
  - eapply Z.lt_le_trans; [exact L2|]. apply Z.pow_le_mono_r; lia.
  - intros He. assert (Z.log2 (Zpos m) = 52) as E by lia. now rewrite E in L1.
Qed.

Lemma valid_finite s m e :
  valid_binary (S754_finite s m e) = true ->
  canonical_mantissa prec emax m e = true.
Proof.
  unfold SpecFloat.valid_binary, bounded. now intros [H _]%andb_prop.
Qed.

Lemma compare_aligned m1 e1 m2 e2 :
  canonical_mantissa prec emax m1 e1 = true ->
  canonical_mantissa prec emax m2 e2 = true ->
  match e1 ?= e2 with
  | Eq => Pos.compare_cont Eq m1 m2
  | Lt => Lt
  | Gt => Gt
  end = (Zpos m1 * 2 ^ (e1 - Z.min e1 e2) ?= Zpos m2 * 2 ^ (e2 - Z.min e1 e2)).
Proof.
  intros [A1 [B1 C1]]%canonical_bounds [A2 [B2 C2]]%canonical_bounds.
  destruct (Z.compare_spec e1 e2) as [E|E|E].
  - subst e2. rewrite Z.min_id, Z.sub_diag, !Z.mul_1_r. reflexivity.
  - rewrite Z.min_l, Z.sub_diag, Z.mul_1_r by lia.
    symmetry. apply Z.compare_lt_iff.
    assert (2 ^ 1 <= 2 ^ (e2 - e1)) by (apply Z.pow_le_mono_r; lia).
    specialize (C2 ltac:(lia)). nia.
  - rewrite Z.min_r, Z.sub_diag, Z.mul_1_r by lia.
    symmetry. apply Z.compare_gt_iff.
    assert (2 ^ 1 <= 2 ^ (e1 - e2)) by (apply Z.pow_le_mono_r; lia).
    specialize (C1 ltac:(lia)). nia.
Qed.

Lemma SFltb_zero_strictly x :
  strictly false x -> SFltb (S754_zero false) x = true.
Proof. destruct x as [| | |s m e]; simpl; try tauto; intros ->; reflexivity. Qed.

Lemma SFltb_zero_negative x :
  sign_is true x -> SFltb (S754_zero false) x = false.
Proof. destruct x as [| | |s m e]; simpl; try tauto; intros ->; reflexivity. Qed.

Lemma SFsub_finite sa ma ea sb mb eb :
  SFsub prec emax (S754_finite sa ma ea) (S754_finite sb mb eb) =
  binary_normalize prec emax
    (cond_Zopp sa (Zpos ma * 2 ^ (ea - Z.min ea eb))
     - cond_Zopp sb (Zpos mb * 2 ^ (eb - Z.min ea eb)))
    (Z.min ea eb) false.
Proof.
  cbn [SFsub]. cbv zeta.
  rewrite !shl_align_value by lia. reflexivity.
Qed.

Lemma SFcompare_finite sa ma ea sb mb eb :
  canonical_mantissa prec emax ma ea = true ->
  canonical_mantissa prec emax mb eb = true ->
  SFcompare (S754_finite sa ma ea) (S754_finite sb mb eb) =
  Some (cond_Zopp sa (Zpos ma * 2 ^ (ea - Z.min ea eb))
        ?= cond_Zopp sb (Zpos mb * 2 ^ (eb - Z.min ea eb))).
Proof.
  intros Ha Hb. cbn [SFcompare].
  pose proof (compare_aligned ma ea mb eb Ha Hb) as E.
  assert (0 < Zpos ma * 2 ^ (ea - Z.min ea eb)).
  { apply Z.mul_pos_pos; [lia|]. apply Z.pow_pos_nonneg; lia. }
  assert (0 < Zpos mb * 2 ^ (eb - Z.min ea eb)).
  { apply Z.mul_pos_pos; [lia|]. apply Z.pow_pos_nonneg; lia. }
  destruct sa, sb; cbn [cond_Zopp]; f_equal.
  - rewrite Z.compare_opp, (Z.compare_antisym (Zpos ma * _)), <- E.
    destruct (ea ?= eb); reflexivity.
  - symmetry. apply Z.compare_lt_iff. lia.
  - symmetry. apply Z.compare_gt_iff. lia.
  - exact E.
Qed.

(** *** Differences *)

Lemma Prim2SF_zero : Prim2SF 0 = S754_zero false.
Proof. reflexivity. Qed.

(** [a <= b] leaves no positive difference [a - b]. *)
Lemma sub_not_positive a b :
  (a <=? b)%float = true -> (0 <? a - b)%float = false.
Proof.
  rewrite leb_spec, ltb_spec, sub_spec, Prim2SF_zero.
  pose proof (Prim2SF_valid a) as Va. pose proof (Prim2SF_valid b) as Vb.
  destruct (Prim2SF a) as [sa|sa| |sa ma ea], (Prim2SF b) as [sb|sb| |sb mb eb].
  1-15: try (destruct sa); try (destruct sb); (discriminate || reflexivity).
  apply valid_finite in Va, Vb. unfold SFleb, SF64sub.
  rewrite SFcompare_finite, SFsub_finite by assumption.
  set (A := cond_Zopp sa _). set (B := cond_Zopp sb _). intros H.
  assert (A - B <= 0) as Hd.
  { destruct (Z.compare_spec A B); try discriminate; lia. }
  destruct (A - B) as [|p|p] eqn:E; try lia; cbn [binary_normalize].
  - reflexivity.
  - apply SFltb_zero_negative, binary_round_sign.
Qed.

(** [a > b] leaves a positive difference [a - b]. *)
Lemma sub_positive a b :
  (b <? a)%float = true -> (0 <? a - b)%float = true.
Proof.
  rewrite !ltb_spec, sub_spec, Prim2SF_zero.
  pose proof (Prim2SF_valid a) as Va. pose proof (Prim2SF_valid b) as Vb.
  destruct (Prim2SF a) as [sa|sa| |sa ma ea], (Prim2SF b) as [sb|sb| |sb mb eb].
  1-15: try (destruct sa); try (destruct sb); (discriminate || reflexivity).
  apply valid_finite in Va, Vb. unfold SFltb at 1, SF64sub.
  rewrite SFcompare_finite, SFsub_finite, (Z.min_comm eb ea) by assumption.
  set (A := cond_Zopp sa _). set (B := cond_Zopp sb _). intros H.
  assert (0 < A - B) as Hd.
  { destruct (Z.compare_spec B A); try discriminate; lia. }
  destruct (A - B) as [|p|p] eqn:E; try lia; cbn [binary_normalize].
  apply SFltb_zero_strictly, binary_round_strictly.
  apply canonical_bounds in Va, Vb. change emin with (-1074). lia.
Qed.

(** *** Signs of quotients, products and conversions *)

Lemma SFleb_zero_sign x :
  sign_is false x -> SFleb (S754_zero false) x = true.
Proof. destruct x as [| | |s m e]; simpl; try tauto; intros ->; reflexivity. Qed.

Lemma SFltb_zero_inv x :
  SFltb (S754_zero false) x = true -> strictly false x.
Proof. destruct x as [s|s| |s m e]; try destruct s; simpl; try discriminate; reflexivity. Qed.

Lemma SFltb_sign_negative x :
  sign_is false x -> SFltb x (S754_zero false) = false.
Proof. destruct x as [| | |s m e]; simpl; try tauto; intros ->; reflexivity. Qed.

Lemma SFdiv_core_nonneg m1 e1 m2 e2 :
  0 <= m1 -> 0 < m2 ->
  0 <= fst (fst (SFdiv_core_binary prec emax m1 e1 m2 e2)).
Proof.
  intros H1 H2. unfold SFdiv_core_binary.
  set (s := e1 - e2 - _).
  set (m' := match s with Z.pos _ => Z.shiftl m1 s | 0 => m1 | Z.neg _ => 0 end).
  assert (0 <= m') as Hm'.
  { subst m'. destruct s; try lia. now apply Z.shiftl_nonneg. }
  pose proof (Z_div_mod m' m2 ltac:(lia)) as Hd.
  destruct (Z.div_eucl m' m2) as [q r]. cbn [fst]. nia.
Qed.

Lemma SFdiv_finite_sign sx mx ex sy my ey :
  sign_is (xorb sx sy)
    (SFdiv prec emax (S754_finite sx mx ex) (S754_finite sy my ey)).
Proof.
  cbn [SFdiv].
  pose proof (SFdiv_core_nonneg (Zpos mx) ex (Zpos my) ey ltac:(lia) ltac:(lia)) as H.
  destruct (SFdiv_core_binary _ _ _ _ _ _) as [[mz ez] lz]. cbn [fst] in H.
  now apply binary_round_aux_sign.
Qed.

Lemma SFmul_sign x y :
  sign_is false x -> sign_is false y ->
  SFmul prec emax x y = S754_nan \/ sign_is false (SFmul prec emax x y).
Proof.
  destruct x as [sx|sx| |sx mx ex], y as [sy|sy| |sy my ey]; simpl;
    try tauto; intros -> ->; auto.
  right. apply (binary_round_aux_sign false). lia.
Qed.

Lemma of_uint63_sign n : sign_is false (Prim2SF (of_uint63 n)).
Proof.
  rewrite of_uint63_spec.
  pose proof (Uint63.to_Z_bounded n) as H.
  destruct (Uint63.to_Z n) as [|p|p]; cbn [binary_normalize]; try lia.
  - reflexivity.
  - apply binary_round_sign.
Qed.

Lemma SFldexp_sign s x e : sign_is s x -> sign_is s (SFldexp prec emax x e).
Proof.
  destruct x as [| | |s' m' e']; cbn [SFldexp]; auto.
  simpl. intros ->. apply binary_round_sign.
Qed.

Lemma SFopp_sign s x : sign_is s x -> sign_is (negb s) (SFopp x).
Proof. destruct x; simpl; auto; intros ->; reflexivity. Qed.

Lemma SF2Prim_sign s x : sign_is s x -> sign_is s (Prim2SF (SF2Prim x)).
Proof.
  destruct x as [s'|s'| |s' m e]; simpl sign_is; try tauto; intros ->.
  - destruct s; reflexivity.
  - destruct s; reflexivity.
  - unfold SF2Prim.
    assert (sign_is false (Prim2SF (Z.ldexp (of_uint63 (Uint63.of_Z (Z.pos m))) e))) as H.
    { rewrite FloatLemmas.Z_ldexp_spec. apply SFldexp_sign, of_uint63_sign. }
    destruct s; [|exact H].
    rewrite opp_spec. now apply (SFopp_sign false).
Qed.


(** *** Non-negative numbers *)



Lemma sign_is_nonneg x : sign_is false x -> nonneg x.
Proof. destruct x; simpl; tauto. Qed.

Lemma strictly_nonneg x : strictly false x -> nonneg x.
Proof. destruct x; simpl; tauto. Qed.

Lemma leb_zero_iff x : (0 <=? x)%float = true <-> nonneg (Prim2SF x).
Proof.
  rewrite leb_spec, Prim2SF_zero.
  destruct (Prim2SF x) as [s|s| |s m e]; try destruct s; simpl;
    intuition discriminate.
Qed.

Lemma ltb_zero_iff x : (0 <? x)%float = true <-> strictly false (Prim2SF x).
Proof.
  rewrite ltb_spec, Prim2SF_zero.
  destruct (Prim2SF x) as [s|s| |s m e]; try destruct s; simpl;
    intuition discriminate.
Qed.

Lemma ltb_zero_r_false x :
  nonneg (Prim2SF x) \/ Prim2SF x = S754_nan -> (x <? 0)%float = false.
Proof.
  rewrite ltb_spec, Prim2SF_zero.
  destruct (Prim2SF x) as [s|s| |s m e]; try destruct s; simpl;
    intuition discriminate.
Qed.

Lemma is_finite_iff x : PrimFloat.is_finite x = true <-> finite (Prim2SF x).
Proof.
  unfold PrimFloat.is_finite, PrimFloat.is_nan, PrimFloat.is_infinity.
  rewrite !FloatAxioms.eqb_spec, abs_spec.
  change (Prim2SF infinity) with (S754_infinity false).
  destruct (Prim2SF x) as [s|s| |s m e]; try destruct s; simpl;
    try (intuition discriminate).
  all: unfold SFeqb; cbn [SFcompare]; rewrite Z.compare_refl;
    change (PosDef.Pos.compare_cont Eq m m) with (Pos.compare m m);
    rewrite Pos.compare_refl; simpl; tauto.
Qed.

Lemma ltb_infinity_iff x :
  (0 <? x)%float = true /\ (x <? infinity)%float = true <->
  exists m e, Prim2SF x = S754_finite false m e.
Proof.
  rewrite !ltb_spec, Prim2SF_zero.
  change (Prim2SF infinity) with (S754_infinity false).
  destruct (Prim2SF x) as [s|s| |s m e]; try destruct s; simpl; split;
    try (intros [? ?]; discriminate); try (intros (? & ? & ?); discriminate).
  - intros _. now exists m, e.
  - intros _. split; reflexivity.
Qed.

(** The difference [x - y] when [y <= x]. *)
Lemma SFsub_nonneg x y :
  SpecFloat.valid_binary prec emax x = true ->
  SpecFloat.valid_binary prec emax y = true ->
  SFleb y x = true ->
  (nonneg (SFsub prec emax x y) \/ SFsub prec emax x y = S754_nan) /\
  (finite x -> nonneg (SFsub prec emax x y)).
Proof.
  intros Vx Vy.
  destruct x as [sx|sx| |sx mx ex], y as [sy|sy| |sy my ey].
  1-15: try (destruct sx); try (destruct sy); simpl; try discriminate; intros _;
    (split; [auto; fail | tauto]) || (split; [auto|]; tauto).
  apply valid_finite in Vx, Vy. unfold SFleb.
  rewrite SFcompare_finite, SFsub_finite, (Z.min_comm ey ex) by assumption.
  set (A := cond_Zopp sx _). set (B := cond_Zopp sy _). intros H.
  assert (0 <= A - B) as Hd.
  { destruct (Z.compare_spec B A); try discriminate; lia. }
  assert (nonneg (binary_normalize prec emax (A - B) (Z.min ex ey) false)) as Hn.
  { destruct (A - B) as [|p|p] eqn:E; try lia; cbn [binary_normalize].
    - exact I.
    - apply sign_is_nonneg, binary_round_sign. }
  split; auto.
Qed.

Lemma SFmul_nonneg x y :
  nonneg x -> strictly false y ->
  (nonneg (SFmul prec emax x y) \/ SFmul prec emax x y = S754_nan) /\
  (finite y -> nonneg (SFmul prec emax x y)).
Proof.
  destruct x as [sx|sx| |sx mx ex], y as [sy|sy| |sy my ey]; simpl;
    try tauto; intros Hx Hy; subst; simpl; auto.
  assert (nonneg (binary_round_aux prec emax false (Z.pos (mx * my)) (ex + ey) loc_Exact)).
  { apply sign_is_nonneg, binary_round_aux_sign. lia. }
  auto.
Qed.

(** *** An upper bound on a rounded product *)

Lemma shr_1_r mrs : 0 <= shr_m mrs -> shr_r (shr_1 mrs) = Z.odd (shr_m mrs).
Proof.
  destruct mrs as [m r s]. simpl. intros H.
  destruct m as [|[p|p|]|p]; try lia; reflexivity.
Qed.

Lemma shr_iter_nonneg n mrs : 0 <= shr_m mrs -> 0 <= shr_m (Nat.iter n shr_1 mrs).
Proof.
  intros H. rewrite shr_iter_m by assumption. apply Z.div_pos; lia.
Qed.

Lemma shr_iter_r n mrs :
  0 <= shr_m mrs ->
  shr_r (Nat.iter (S n) shr_1 mrs) = Z.odd (shr_m mrs / 2 ^ Z.of_nat n).
Proof.
  intros H. rewrite Nat.iter_succ, shr_1_r by now apply shr_iter_nonneg.
  now rewrite shr_iter_m.
Qed.

Lemma round_nearest_even_cases mrs :
  round_nearest_even (shr_m mrs) (loc_of_shr_record mrs) = shr_m mrs \/
  (round_nearest_even (shr_m mrs) (loc_of_shr_record mrs) = shr_m mrs + 1
   /\ shr_r mrs = true).
Proof.
  destruct mrs as [m [] []]; simpl; auto. destruct (Z.even m); auto.
Qed.

(** Rounding the mantissa [P] (exactly known) at the canonical exponent:
    the rounded mantissa, scaled back, exceeds [P] by at most half a
    unit, and by nothing when the bit below the unit is clear. *)
Lemma round_first_upper P E :
  0 < P ->
  let k := Z.max (fexp prec emax (Zdigits2 P + E) - E) 0 in
  let mrs := fst (shr_fexp prec emax P E loc_Exact) in
  snd (shr_fexp prec emax P E loc_Exact) = E + k /\
  let m2 := round_nearest_even (shr_m mrs) (loc_of_shr_record mrs) in
  0 < P / 2 ^ k + 1 /\
  (m2 * 2 ^ k <= P \/
   (1 <= k /\ Z.odd (P / 2 ^ (k - 1)) = true /\ 2 * (m2 * 2 ^ k) <= 2 * P + 2 ^ k)).
Proof.
  intros HP k mrs. unfold shr_fexp in mrs |- *. cbn [shr_record_of_loc] in *.
  set (n := fexp prec emax (Zdigits2 P + E) - E) in *.
  assert (0 <= P / 2 ^ k) as Hq by (apply Z.div_pos; [lia|apply Z.pow_pos_nonneg; lia]).
  destruct n as [|p|p] eqn:En; cbn [shr fst snd] in *; subst mrs.
  - split; [subst k; lia|]. cbn [shr_m loc_of_shr_record round_nearest_even].
    split; [lia|]. left. subst k. change (Z.max 0 0) with 0. lia.
  - assert (k = Zpos p) as Ek by (subst k; lia).
    split; [lia|]. cbv zeta. split; [lia|].
    rewrite iter_pos_nat.
    set (r0 := {| shr_m := P; shr_r := false; shr_s := false |}).
    destruct (Pos2Nat.is_succ p) as [j Hj]. rewrite Hj.
    assert (Zpos p = Z.of_nat j + 1) as Ep by lia.
    pose proof (shr_iter_m (S j) r0 ltac:(simpl; lia)) as Hm.
    pose proof (shr_iter_r j r0 ltac:(simpl; lia)) as Hr.
    cbn [shr_m r0] in Hm, Hr.
    replace (Z.of_nat (S j)) with k in Hm by lia.
    replace (Z.of_nat j) with (k - 1) in Hr by lia.
    pose proof (Z.pow_pos_nonneg 2 (k - 1) ltac:(lia) ltac:(lia)) as Hp1.
    assert (2 ^ k = 2 * 2 ^ (k - 1)) as Hpk.
    { rewrite <- Z.pow_succ_r by lia. f_equal. lia. }
    pose proof (Z.div_mod P (2 ^ k) ltac:(lia)) as D1.
    pose proof (Z.mod_pos_bound P (2 ^ k) ltac:(lia)) as D2.
    destruct (round_nearest_even_cases (Nat.iter (S j) shr_1 r0)) as [->|[-> Hodd]].
    + left. rewrite Hm. lia.
    + right. rewrite Hm. rewrite Hr in Hodd. split; [lia|]. split; [exact Hodd|].
      pose proof (Z.div_mod P (2 ^ (k - 1)) ltac:(lia)) as D3.
      pose proof (Z.mod_pos_bound P (2 ^ (k - 1)) ltac:(lia)) as D4.
      assert (P / 2 ^ k = P / 2 ^ (k - 1) / 2) as Hh.
      { replace (2 ^ k) with (2 ^ (k - 1) * 2) by lia.
        now rewrite Z.div_div by lia. }
      pose proof (Zdiv2_odd_eqn (P / 2 ^ (k - 1))) as Hz.
      rewrite Hodd, Z.div2_div, <- Hh in Hz.
      nia.
  - split; [subst k; lia|]. cbn [shr_m loc_of_shr_record round_nearest_even].
    split; [lia|]. left. subst k. rewrite Z.max_r by lia. lia.
Qed.

(** The result of rounding [P * 2 ^ E]: its mantissa [M] and exponent
    [E'], with [M * 2 ^ E'] above [P * 2 ^ E] by at most half a unit of
    the exponent the first shift reaches. *)
Lemma binary_round_aux_upper s P E :
  0 < P ->
  let k := Z.max (fexp prec emax (Zdigits2 P + E) - E) 0 in
  exists M E',
    0 <= M /\ E <= E' /\
    (M * 2 ^ (E' - E) <= P \/
     (1 <= k /\ Z.odd (P / 2 ^ (k - 1)) = true
      /\ 2 * (M * 2 ^ (E' - E)) <= 2 * P + 2 ^ k)) /\
    binary_round_aux prec emax s P E loc_Exact =
    match M with
    | Z0 => S754_zero s
    | Zpos p => if E' <=? emax - prec then S754_finite s p E' else S754_infinity s
    | Zneg _ => S754_nan
    end.
Proof.
  intros HP k.
  destruct (round_first_upper P E HP) as (He' & Hq & Hb). fold k in He', Hq, Hb.
  unfold binary_round_aux.
  destruct (shr_fexp prec emax P E loc_Exact) as [mrs' e'] eqn:E1.
  cbn [fst snd] in He', Hb. cbv zeta in Hb.
  pose proof (round_nearest_even_bounds (shr_m mrs') (loc_of_shr_record mrs')) as Hr.
  set (m2 := round_nearest_even (shr_m mrs') (loc_of_shr_record mrs')) in *.
  assert (0 <= shr_m mrs') as Hm1.
  { pose proof (shr_fexp_nonneg P E loc_Exact ltac:(lia)) as H. now rewrite E1 in H. }
  unfold shr_fexp at 1.
  set (n2 := fexp prec emax (Zdigits2 m2 + e') - e').
  destruct (shr_m_spec (shr_record_of_loc m2 loc_Exact) e' n2) as [F1 F2].
  { cbn. lia. }
  destruct (shr (shr_record_of_loc m2 loc_Exact) e' n2) as [mrs'' e''].
  cbn [fst snd shr_record_of_loc shr_m] in F1, F2.
  set (k2 := Z.max n2 0) in *.
  assert (0 <= k2) as Hk2 by (subst k2; lia).
  assert (0 <= k) as Hk by (subst k; lia).
  pose proof (Z.pow_pos_nonneg 2 k2 ltac:(lia) Hk2) as Hp2.
  pose proof (Z.pow_pos_nonneg 2 k ltac:(lia) Hk) as Hpk.
  pose proof (Z.div_mod m2 (2 ^ k2) ltac:(lia)) as D1.
  pose proof (Z.mod_pos_bound m2 (2 ^ k2) ltac:(lia)) as D2.
  assert (0 <= shr_m mrs'') as HM by (rewrite F1; apply Z.div_pos; lia).
  exists (shr_m mrs''), e''. split; [exact HM|]. split; [lia|]. split; [|reflexivity].
  replace (e'' - E) with (k2 + k) by lia. rewrite Z.pow_add_r by lia.
  assert (shr_m mrs'' * 2 ^ k2 <= m2) as Hle by (rewrite F1; lia).
  destruct Hb as [Hb|(Hb1 & Hb2 & Hb3)]; [left|right; repeat split; auto]; nia.
Qed.

(** The product of a double below 1 and a positive integer [n] below
    [2^52], held as [mc * 2 ^ ec]: it is [+0] or a positive double
    whose integer part is below [n]. *)
Lemma SFmul_below m e mc ec n :
  canonical_mantissa prec emax m e = true ->
  e < 0 -> Zpos m < 2 ^ (- e) ->
  2 ^ 52 <= Zpos mc < 2 ^ 53 ->
  -52 <= ec <= -1 ->
  Zpos mc = n * 2 ^ (- ec) ->
  SpecFloat.valid_binary prec emax
    (SFmul prec emax (S754_finite false m e) (S754_finite false mc ec)) = true ->
  SFmul prec emax (S754_finite false m e) (S754_finite false mc ec) = S754_zero false \/
  exists M E',
    SFmul prec emax (S754_finite false m e) (S754_finite false mc ec)
    = S754_finite false M E' /\ E' < 0 /\ Zpos M / 2 ^ (- E') < n.
Proof.
  intros Hc He Hm Hmc Hec Hn. cbn [SFmul xorb].
  destruct (canonical_bounds m e Hc) as (Hemin & Hm53 & _).
  set (P := Zpos (m * mc)). set (E := e + ec).
  assert (P = Zpos m * Zpos mc) as HP by reflexivity.
  assert (0 < P) as HP0 by lia.
  destruct (binary_round_aux_upper false P E HP0) as (M & E' & HM & HE & Hb & ->).
  set (k := Z.max (fexp prec emax (Zdigits2 P + E) - E) 0) in Hb.
  pose proof (Z.pow_pos_nonneg 2 (- e) ltac:(lia) ltac:(lia)) as Hpe.
  pose proof (Z.pow_pos_nonneg 2 (- ec) ltac:(lia) ltac:(lia)) as Hpec.
  pose proof (Z.pow_pos_nonneg 2 (E' - E) ltac:(lia) ltac:(lia)) as HpE.
  assert (Z.log2 (Zpos mc) = 52) as Lmc by (apply Z.log2_unique; lia).
  assert (Z.log2 (Zpos m) <= 52) as Lm.
  { assert (Z.log2 (Zpos m) < 53); [|lia]. apply Z.log2_lt_pow2; lia. }
  (* the scaled result is below [mc * 2 ^ (- e)] *)
  assert (M * 2 ^ (E' - E) < Zpos mc * 2 ^ (- e)) as Hlt.
  { destruct Hb as [Hb|(Hk1 & Hodd & Hb)]; [nia|].
    assert (Zdigits2 P = Z.log2 P + 1) as Hd by (apply Zdigits2_log2; lia).
    destruct (Z.eq_dec (Zpos mc) (2 ^ 52)) as [Epow|Hnp].
    - (* a power of two: the product is exact *)
      exfalso.
      assert (Z.log2 P = Z.log2 (Zpos m) + 52) as LP.
      { rewrite HP, Epow, Z.log2_mul_pow2 by lia. lia. }
      assert (k <= 52) as Hk.
      { subst k. rewrite fexp_eq, Hd, LP. subst E. lia. }
      assert (P / 2 ^ (k - 1) = 2 * (Zpos m * 2 ^ (52 - k))) as Hev.
      { rewrite HP, Epow.
        replace 52 with ((52 - k) + 1 + (k - 1)) at 1 by lia.
        rewrite !Z.pow_add_r, !Z.mul_assoc, Z.div_mul by
          (try apply Z.pow_nonzero; lia). change (2 ^ 1) with 2. lia. }
      rewrite Hev, Z.odd_mul in Hodd. discriminate.
    - assert (k <= 53) as Hk.
      { subst k. rewrite fexp_eq, Hd.
        pose proof (Z.log2_mul_above (Zpos m) (Zpos mc) ltac:(lia) ltac:(lia)) as La.
        rewrite <- HP in La. subst E. lia. }
      assert (2 ^ k <= 2 ^ 53) by (apply Z.pow_le_mono_r; lia).
      nia. }
  assert (Zpos mc * 2 ^ (- e) = n * 2 ^ (- E)) as Hsc.
  { rewrite Hn. subst E. replace (- (e + ec)) with (- ec + - e) by lia.
    rewrite Z.pow_add_r by lia. ring. }
  rewrite Hsc in Hlt.
  assert (0 < n) as Hn0 by nia.
  assert (n < 2 ^ 52) as Hn52.
  { assert (2 ^ 1 <= 2 ^ (- ec)) by (apply Z.pow_le_mono_r; lia).
    change (2 ^ 1) with 2 in *. nia. }
  destruct M as [|M|M]; [left; reflexivity| |lia].
  intros Hv. right.
  destruct (Z.lt_ge_cases E' 0) as [Eneg|Epos].
  - exists M, E'. replace (E' <=? emax - prec) with true
      by (symmetry; apply Z.leb_le; change (emax - prec) with 971; lia).
    split; [reflexivity|]. split; [exact Eneg|].
    pose proof (Z.pow_pos_nonneg 2 (- E') ltac:(lia) ltac:(lia)) as HpE'.
    apply Z.div_lt_upper_bound; [lia|].
    replace (- E) with (- E' + (E' - E)) in Hlt by lia.
    rewrite Z.pow_add_r in Hlt by lia. nia.
  - exfalso.
    pose proof (Z.pow_pos_nonneg 2 E' ltac:(lia) Epos) as HpE'.
    pose proof (Z.pow_pos_nonneg 2 (- E) ltac:(lia) ltac:(subst E; lia)) as HpnE.
    replace (E' - E) with (E' + - E) in Hlt by lia.
    rewrite Z.pow_add_r in Hlt by (subst E; lia).
    assert (Zpos M * 2 ^ E' < n) as Hs by nia.
    assert (E' < 52) as HE52.
    { apply (Z.pow_lt_mono_r_iff 2); [lia|lia|]. nia. }
    replace (E' <=? emax - prec) with true in Hv
      by (symmetry; apply Z.leb_le; change (emax - prec) with 971; lia).
    apply valid_finite, canonical_bounds in Hv. destruct Hv as (_ & _ & Hv).
    specialize (Hv ltac:(lia)). nia.
Qed.

(** *** Integers below [2^53] are doubles *)

Lemma shl_align_exponent_eq m e e' :
  e' <= e -> snd (shl_align m e e') = e'.
Proof. unfold shl_align. destruct (e' - e) eqn:E; cbn [snd]; lia. Qed.

Lemma binary_round_integer s p :
  Zpos p < 2 ^ 53 ->
  exists mz,
    Zpos mz = Zpos p * 2 ^ (52 - Z.log2 (Zpos p)) /\
    binary_round prec emax s p 0 = S754_finite s mz (Z.log2 (Zpos p) - 52).
Proof.
  intros Hp.
  pose proof (Z.log2_nonneg (Zpos p)) as L0.
  assert (Z.log2 (Zpos p) < 53) as L1 by (apply Z.log2_lt_pow2; lia).
  unfold binary_round. rewrite digits2_log2, fexp_eq.
  replace (Z.max (Z.log2 (Z.pos p) + 1 + 0 - 53) (-1074))
    with (Z.log2 (Zpos p) - 52) by lia.
  pose proof (shl_align_value p 0 (Z.log2 (Zpos p) - 52) ltac:(lia)) as Hv.
  pose proof (shl_align_exponent_eq p 0 (Z.log2 (Zpos p) - 52) ltac:(lia)) as He.
  destruct (shl_align p 0 (Z.log2 (Zpos p) - 52)) as [mz ez]. cbn [fst snd] in Hv, He.
  subst ez. replace (0 - (Z.log2 (Zpos p) - 52)) with (52 - Z.log2 (Zpos p)) in Hv by lia.
  exists mz. split; [exact Hv|].
  assert (Z.log2 (Zpos mz) = 52) as Lz.
  { rewrite Hv, Z.log2_mul_pow2 by lia. lia. }
  assert (shr_fexp prec emax (Zpos mz) (Z.log2 (Zpos p) - 52) loc_Exact
          = ({| shr_m := Zpos mz; shr_r := false; shr_s := false |},
             Z.log2 (Zpos p) - 52)) as Hs.
  { unfold shr_fexp. rewrite Zdigits2_log2, Lz, fexp_eq by lia.
    replace (Z.max (52 + 1 + (Z.log2 (Z.pos p) - 52) - 53) (-1074)
             - (Z.log2 (Z.pos p) - 52)) with 0 by lia.
    reflexivity. }
  unfold binary_round_aux. rewrite Hs.
  cbn [shr_m loc_of_shr_record round_nearest_even]. rewrite Hs. cbn [shr_m].
  replace (Z.log2 (Z.pos p) - 52 <=? emax - prec) with true
    by (symmetry; apply Z.leb_le; change (emax - prec) with 971; lia).
  reflexivity.
Qed.

(** *** Rounding to nearest: the error made *)

Lemma loc_of_shr_record_of_loc m l :
  loc_of_shr_record (shr_record_of_loc m l) = l.
Proof. destruct l as [|[]]; reflexivity. Qed.

Lemma shr_1_located num den mrs :
  0 < den -> 0 <= shr_m mrs ->
  located num den (shr_m mrs) (loc_of_shr_record mrs) ->
  located num (2 * den) (shr_m (shr_1 mrs)) (loc_of_shr_record (shr_1 mrs)).
Proof.
  intros Hd Hm. destruct mrs as [m r s]. cbn [shr_m] in *.
  destruct m as [|[p|p|]|p]; try lia; destruct r, s;
    cbn [shr_1 shr_m loc_of_shr_record located orb]; intros H; lia.
Qed.

Lemma shr_iter_located num den n mrs :
  0 < den -> 0 <= shr_m mrs ->
  located num den (shr_m mrs) (loc_of_shr_record mrs) ->
  located num (2 ^ Z.of_nat n * den) (shr_m (Nat.iter n shr_1 mrs))
    (loc_of_shr_record (Nat.iter n shr_1 mrs)).
Proof.
  intros Hd Hm H. induction n as [|n IH].
  - cbn [Nat.iter Z.of_nat]. now rewrite Z.pow_0_r, Z.mul_1_l.
  - rewrite Nat.iter_succ, Nat2Z.inj_succ, Z.pow_succ_r, <- Z.mul_assoc by lia.
    apply shr_1_located.
    + apply Z.mul_pos_pos; [apply Z.pow_pos_nonneg; lia|exact Hd].
    + now apply shr_iter_nonneg.
    + exact IH.
Qed.

Lemma shr_located num den mrs e n :
  0 < den -> 0 <= shr_m mrs ->
  located num den (shr_m mrs) (loc_of_shr_record mrs) ->
  located num (2 ^ Z.max n 0 * den) (shr_m (fst (shr mrs e n)))
    (loc_of_shr_record (fst (shr mrs e n))).
Proof.
  intros Hd Hm H. destruct n as [|p|p]; cbn [shr fst].
  - now rewrite Z.mul_1_l.
  - rewrite iter_pos_nat. rewrite Z.max_l by lia.
    rewrite <- (positive_nat_Z p). now apply shr_iter_located.
  - now rewrite Z.mul_1_l.
Qed.

Lemma round_nearest_even_located num den m l :
  0 < den -> located num den m l ->
  - den <= 2 * (round_nearest_even m l * den - num) <= den.
Proof.
  intros Hd. destruct l as [|[]]; cbn [located round_nearest_even]; intros H; try lia.
  destruct (Z.even m); lia.
Qed.

(** Rounding [num / den * 2 ^ ex], given by a mantissa [mx] and the
    place of the fraction above it: the result [M * 2 ^ E'] is within
    half a unit of the exponent reached by the first shift. *)
Lemma binary_round_aux_nearest s mx ex lx num den :
  0 <= mx -> 0 < den -> located num den mx lx ->
  let k := Z.max (fexp prec emax (Zdigits2 mx + ex) - ex) 0 in
  exists M E',
    0 <= M /\ ex + k <= E' <= ex + k + 1 /\
    - (2 ^ k * den) <= 2 * (M * 2 ^ (E' - ex) * den - num) <= 2 ^ k * den /\
    binary_round_aux prec emax s mx ex lx =
    match M with
    | Z0 => S754_zero s
    | Zpos p => if E' <=? emax - prec then S754_finite s p E' else S754_infinity s
    | Zneg _ => S754_nan
    end.
Proof.
  intros Hm Hd Hl k. unfold binary_round_aux, shr_fexp at 1.
  set (n1 := fexp prec emax (Zdigits2 mx + ex) - ex) in *.
  set (r0 := shr_record_of_loc mx lx).
  assert (shr_m r0 = mx) as Hr0 by apply shr_record_of_loc_m.
  destruct (shr_m_spec r0 ex n1 ltac:(lia)) as [F1 F2].
  pose proof (shr_located num den r0 ex n1 Hd ltac:(lia)) as Hloc.
  rewrite Hr0 in F1. unfold r0 at 2 in Hloc.
  rewrite loc_of_shr_record_of_loc, Hr0 in Hloc. specialize (Hloc Hl).
  destruct (shr r0 ex n1) as [mrs' e']. cbn [fst snd] in F1, F2, Hloc. fold k in F1, F2, Hloc.
  assert (0 <= k) as Hk by (subst k; lia).
  pose proof (Z.pow_pos_nonneg 2 k ltac:(lia) Hk) as Hpk.
  assert (0 <= shr_m mrs') as Hm1 by (rewrite F1; apply Z.div_pos; lia).
  pose proof (round_nearest_even_located num (2 ^ k * den) _ _ ltac:(nia) Hloc) as Hr.
  pose proof (round_nearest_even_bounds (shr_m mrs') (loc_of_shr_record mrs')) as Hb.
  set (m2 := round_nearest_even (shr_m mrs') (loc_of_shr_record mrs')) in *.
  (* the first shift leaves at most 53 digits *)
  assert (shr_m mrs' < 2 ^ 53) as H53.
  { rewrite F1. destruct (Z.eq_dec mx 0) as [->|Hnz]; [now rewrite Z.div_0_l by lia|].
    apply Z.div_lt_upper_bound; [lia|]. rewrite <- Z.pow_add_r by lia.
    destruct (Z.log2_spec mx ltac:(lia)) as [_ Hl2].
    eapply Z.lt_le_trans; [exact Hl2|]. apply Z.pow_le_mono_r; [lia|].
    subst k n1. rewrite fexp_eq, Zdigits2_log2 by lia. lia. }
  assert (-1074 <= e') as He'.
  { rewrite F2. subst k n1. rewrite fexp_eq. lia. }
  unfold shr_fexp.
  set (n2 := fexp prec emax (Zdigits2 m2 + e') - e').
  destruct (shr_m_spec (shr_record_of_loc m2 loc_Exact) e' n2) as [G1 G2].
  { cbn. lia. }
  destruct (shr (shr_record_of_loc m2 loc_Exact) e' n2) as [mrs'' e''].
  cbn [fst snd shr_record_of_loc shr_m] in G1, G2.
  (* the second shift is exact *)
  assert (shr_m mrs'' * 2 ^ Z.max n2 0 = m2) as Hex.
  { rewrite G1. destruct (Z.eq_dec m2 0) as [E0|Hnz].
    - rewrite E0. now rewrite Z.div_0_l by (apply Z.pow_nonzero; lia).
    - destruct (Z.eq_dec m2 (2 ^ 53)) as [E53|Hn53].
      + assert (n2 = 1) as ->.
        { subst n2. rewrite E53, fexp_eq. change (Zdigits2 (2 ^ 53)) with 54. lia. }
        rewrite E53. reflexivity.
      + assert (n2 <= 0) as Hn2.
        { subst n2. rewrite fexp_eq, Zdigits2_log2 by lia.
          assert (Z.log2 m2 < 53) by (apply Z.log2_lt_pow2; lia). lia. }
        rewrite Z.max_r by lia. change (2 ^ 0) with 1. now rewrite Z.div_1_r, Z.mul_1_r. }
  set (k2 := Z.max n2 0) in *.
  assert (0 <= k2) as Hk2 by (subst k2; lia).
  assert (0 <= shr_m mrs'') as HM.
  { rewrite G1. apply Z.div_pos; [lia|]. apply Z.pow_pos_nonneg; lia. }
  assert (k2 <= 1) as Hn2.
  { subst k2 n2. rewrite fexp_eq. destruct (Z.eq_dec m2 0) as [E0|Hnz].
    - rewrite E0. change (Zdigits2 0) with 0. lia.
    - rewrite Zdigits2_log2 by lia.
      assert (Z.log2 m2 < 54) by (apply Z.log2_lt_pow2; lia). lia. }
  exists (shr_m mrs''), e''. split; [exact HM|]. split; [lia|]. split; [|reflexivity].
  replace (e'' - ex) with (k2 + k) by lia.
  rewrite Z.pow_add_r, Z.mul_assoc, Hex by lia. lia.
Qed.

Lemma new_location_located den q r :
  0 <= r < den -> located (q * den + r) den q (new_location den r).
Proof.
  intros Hr. unfold new_location, new_location_even, new_location_odd.
  destruct (Z.even den) eqn:Hev.
  - destruct (Z.eqb_spec r 0) as [->|Hnz]; cbn [located]; [lia|].
    destruct (Z.compare_spec (2 * r) den); cbn [located]; lia.
  - assert (Z.odd den = true) as Hodd by (rewrite <- Z.negb_even, Hev; reflexivity).
    apply Z.odd_spec in Hodd. destruct Hodd as [j Hj].
    destruct (Z.eqb_spec r 0) as [->|Hnz]; cbn [located]; [lia|].
    destruct (Z.compare_spec (2 * r + 1) den); cbn [located]; lia.
Qed.

Lemma located_below num den m l :
  0 < den -> located num den m l -> m * den <= num.
Proof. destruct l as [|[]]; cbn [located]; lia. Qed.

(** Away from the subnormal range and from overflow, rounding a
    mantissa of at least 53 bits has a relative error of at most
    [2 ^ -53]. *)
Lemma binary_round_aux_relative s mx ex lx num den :
  0 < den -> located num den mx lx ->
  2 ^ 52 <= mx < 2 ^ 110 -> -1074 <= ex <= 900 ->
  exists M E,
    binary_round_aux prec emax s mx ex lx = S754_finite s M E /\
    ex <= E <= ex + 58 /\
    2 ^ 53 * Z.abs (Zpos M * 2 ^ (E - ex) * den - num) <= num.
Proof.
  intros Hd Hl Hm He.
  destruct (binary_round_aux_nearest s mx ex lx num den ltac:(lia) Hd Hl)
    as (M & E & HM & HE & Hb & Heq).
  cbv zeta in HE, Hb.
  assert (52 <= Z.log2 mx) as L1 by (apply Z.log2_le_pow2; lia).
  assert (Z.log2 mx < 110) as L2 by (apply Z.log2_lt_pow2; lia).
  rewrite fexp_eq, Zdigits2_log2 in HE, Hb by lia.
  replace (Z.max (Z.max (Z.log2 mx + 1 + ex - 53) (-1074) - ex) 0)
    with (Z.log2 mx - 52) in HE, Hb by lia.
  destruct (Z.log2_spec mx ltac:(lia)) as [S1 _].
  replace (Z.log2 mx) with (52 + (Z.log2 mx - 52)) in S1 at 1 by lia.
  rewrite Z.pow_add_r in S1 by lia.
  set (k := Z.log2 mx - 52) in *.
  pose proof (Z.pow_pos_nonneg 2 k ltac:(lia) ltac:(lia)) as Hpk.
  pose proof (located_below _ _ _ _ Hd Hl) as Hlow.
  assert (2 ^ 52 * (2 ^ k * den) <= num) as Hrel by nia.
  assert (2 ^ 53 * Z.abs (M * 2 ^ (E - ex) * den - num) <= num) as Habs by lia.
  assert (0 < num) as Hnum by lia.
  destruct M as [|p|p]; try lia.
  exists p, E. split; [|split; [lia|exact Habs]].
    rewrite Heq. replace (E <=? emax - prec) with true; [reflexivity|].
    symmetry. apply Z.leb_le. change (emax - prec) with 971. lia.
Qed.

Lemma SFdiv_relative mc ec mt et :
  2 ^ 52 <= Zpos mc < 2 ^ 53 -> 2 ^ 52 <= Zpos mt < 2 ^ 53 ->
  -1000 <= ec - et <= 900 ->
  exists M E,
    SFdiv prec emax (S754_finite false mc ec) (S754_finite false mt et)
    = S754_finite false M E /\
    ec - et - 53 <= E <= ec - et + 5 /\
    2 ^ 53 * Z.abs (Zpos M * 2 ^ (E - (ec - et - 53)) * Zpos mt - Zpos mc * 2 ^ 53)
    <= Zpos mc * 2 ^ 53.
Proof.
  intros Hc Ht He. unfold SFdiv, SFdiv_core_binary.
  assert (forall p, 2 ^ 52 <= Zpos p < 2 ^ 53 -> Zdigits2 (Zpos p) = 53) as Hdig.
  { intros p Hp. rewrite Zdigits2_log2 by lia.
    rewrite (Z.log2_unique (Zpos p) 52); [reflexivity|lia|exact Hp]. }
  rewrite (Hdig mc Hc), (Hdig mt Ht), fexp_eq.
  replace (Z.min (Z.max (53 + ec - (53 + et) - 53) (-1074)) (ec - et))
    with (ec - et - 53) by lia.
  replace (ec - et - (ec - et - 53)) with 53 by lia. cbv iota.
  rewrite Z.shiftl_mul_pow2 by lia.
  pose proof (Z_div_mod (Zpos mc * 2 ^ 53) (Zpos mt) ltac:(lia)) as Hdm.
  destruct (Z.div_eucl (Zpos mc * 2 ^ 53) (Zpos mt)) as [q r].
  destruct Hdm as [Hq Hr]. cbn [xorb].
  assert (2 ^ 52 <= q < 2 ^ 110) as Hqb by nia.
  destruct (binary_round_aux_relative false q (ec - et - 53) (new_location (Zpos mt) r)
              (Zpos mc * 2 ^ 53) (Zpos mt) ltac:(lia)) as (M & E & Heq & HE & Hb).
  - rewrite Hq, (Z.mul_comm (Zpos mt) q). now apply new_location_located.
  - exact Hqb.
  - lia.
  - exists M, E. split; [exact Heq|]. split; [lia|exact Hb].
Qed.

Lemma SFmul_relative mx ex my ey :
  Zpos mx < 2 ^ 53 -> 2 ^ 52 <= Zpos my < 2 ^ 53 ->
  -1074 <= ex + ey <= 900 ->
  exists M E,
    SFmul prec emax (S754_finite false mx ex) (S754_finite false my ey)
    = S754_finite false M E /\
    ex + ey <= E /\
    2 ^ 53 * Z.abs (Zpos M * 2 ^ (E - (ex + ey)) - Zpos mx * Zpos my)
    <= Zpos mx * Zpos my.
Proof.
  intros Hx Hy He. unfold SFmul. cbn [xorb].
  destruct (binary_round_aux_relative false (Zpos (mx * my)) (ex + ey) loc_Exact
              (Zpos (mx * my)) 1 ltac:(lia)) as (M & E & Heq & HE & Hb).
  - cbn [located]. lia.
  - rewrite Pos2Z.inj_mul. nia.
  - exact He.
  - exists M, E. split; [exact Heq|]. split; [lia|].
    rewrite Z.mul_1_r, Pos2Z.inj_mul in Hb. exact Hb.
Qed.

(** *** Rounding a mantissa of 53 bits or more *)

(** The result keeps 53 bits, is canonical, and is off by a relative
    error of at most [2 ^ -53]; it is an infinity when the exponent
    reached is too large. *)
Lemma binary_round_aux_normal s mx ex lx num den :
  0 < den -> located num den mx lx -> 2 ^ 52 <= mx -> -1074 <= ex ->
  exists M E,
    2 ^ 52 <= Zpos M < 2 ^ 53 /\ ex <= E /\
    canonical_mantissa prec emax M E = true /\
    2 ^ 53 * Z.abs (Zpos M * 2 ^ (E - ex) * den - num) <= num /\
    binary_round_aux prec emax s mx ex lx =
    if E <=? emax - prec then S754_finite s M E else S754_infinity s.
Proof.
  intros Hd Hl Hm He.
  assert (52 <= Z.log2 mx) as L1 by (apply Z.log2_le_pow2; lia).
  destruct (Z.log2_spec mx ltac:(lia)) as [S1 S2].
  set (k := Z.log2 mx - 52) in *.
  assert (0 <= k) as Hk by lia.
  pose proof (Z.pow_pos_nonneg 2 k ltac:(lia) Hk) as Hpk.
  assert (2 ^ Z.log2 mx = 2 ^ 52 * 2 ^ k) as P1
    by (rewrite <- Z.pow_add_r by lia; f_equal; lia).
  assert (2 ^ Z.succ (Z.log2 mx) = 2 ^ 53 * 2 ^ k) as P2
    by (rewrite <- Z.pow_add_r by lia; f_equal; lia).
  rewrite P1 in S1. rewrite P2 in S2.
  unfold binary_round_aux, shr_fexp at 1.
  assert (fexp prec emax (Zdigits2 mx + ex) - ex = k) as ->
    by (rewrite fexp_eq, Zdigits2_log2 by lia; lia).
  set (r0 := shr_record_of_loc mx lx).
  assert (shr_m r0 = mx) as Hr0 by apply shr_record_of_loc_m.
  destruct (shr_m_spec r0 ex k ltac:(lia)) as [F1 F2].
  pose proof (shr_located num den r0 ex k Hd ltac:(lia)) as Hloc.
  rewrite Hr0 in F1. unfold r0 at 2 in Hloc.
  rewrite loc_of_shr_record_of_loc, Hr0 in Hloc. specialize (Hloc Hl).
  rewrite Z.max_l in F1, F2, Hloc by lia.
  destruct (shr r0 ex k) as [mrs' e']. cbn [fst snd] in F1, F2, Hloc.
  assert (2 ^ 52 <= shr_m mrs' < 2 ^ 53) as Hm1.
  { rewrite F1. split.
    - apply Z.div_le_lower_bound; lia.
    - apply Z.div_lt_upper_bound; lia. }
  assert (shr_m mrs' * 2 ^ k <= mx) as Hlow.
  { rewrite F1, Z.mul_comm. apply Z.mul_div_le. lia. }
  pose proof (located_below _ _ _ _ Hd Hl) as Hnum.
  pose proof (round_nearest_even_located num (2 ^ k * den) _ _
                ltac:(apply Z.mul_pos_pos; lia) Hloc) as Hr.
  pose proof (round_nearest_even_bounds (shr_m mrs') (loc_of_shr_record mrs')) as Hb.
  set (m2 := round_nearest_even (shr_m mrs') (loc_of_shr_record mrs')) in *.
  assert (2 ^ 52 * (2 ^ k * den) <= num) as Hrel.
  { eapply Z.le_trans; [|exact Hnum].
    rewrite Z.mul_assoc. apply Z.mul_le_mono_nonneg_r; lia. }
  assert (2 ^ 53 * Z.abs (m2 * 2 ^ k * den - num) <= num) as Habs.
  { rewrite <- Z.mul_assoc. lia. }
  unfold shr_fexp.
  set (n2 := fexp prec emax (Zdigits2 m2 + e') - e').
  destruct (shr_m_spec (shr_record_of_loc m2 loc_Exact) e' n2) as [G1 G2].
  { cbn. lia. }
  destruct (shr (shr_record_of_loc m2 loc_Exact) e' n2) as [mrs'' e''].
  cbn [fst snd shr_record_of_loc shr_m] in G1, G2.
  assert (forall p E, 2 ^ 52 <= Zpos p < 2 ^ 53 -> -1074 <= E ->
            canonical_mantissa prec emax p E = true) as Hcan.
  { intros p E Hp HE. unfold canonical_mantissa. apply Z.eqb_eq.
    rewrite fexp_eq, digits2_log2, (Z.log2_unique (Zpos p) 52) by lia. lia. }
  destruct (Z.eq_dec m2 (2 ^ 53)) as [E53|Hn53].
  - assert (n2 = 1) as Hn2.
    { subst n2. rewrite E53, fexp_eq. change (Zdigits2 (2 ^ 53)) with 54. lia. }
    rewrite Hn2 in G1, G2. rewrite E53 in G1.
    change (2 ^ 53 / 2 ^ Z.max 1 0) with (2 ^ 52) in G1.
    change (Z.max 1 0) with 1 in G2.
    rewrite G1. change (2 ^ 52) with (Zpos 4503599627370496).
    exists 4503599627370496%positive, e''.
    split; [lia|]. split; [lia|]. split; [apply Hcan; lia|]. split; [|reflexivity].
    replace (e'' - ex) with (1 + k) by lia.
    rewrite Z.pow_add_r, Z.mul_assoc by lia.
    replace (Z.pos 4503599627370496 * 2 ^ 1) with m2 by (rewrite E53; reflexivity).
    exact Habs.
  - assert (n2 = 0) as Hn2.
    { subst n2. rewrite fexp_eq, Zdigits2_log2 by lia.
      rewrite (Z.log2_unique m2 52) by lia. lia. }
    rewrite Hn2 in G1, G2. change (2 ^ Z.max 0 0) with 1 in G1.
    change (Z.max 0 0) with 0 in G2. rewrite Z.div_1_r in G1.
    rewrite G1. destruct m2 as [|p|p] eqn:Em2; try lia.
    exists p, e''. split; [lia|]. split; [lia|]. split; [apply Hcan; lia|].
    split; [|reflexivity].
    replace (e'' - ex) with k by lia. exact Habs.
Qed.

(** The quotient of a positive integer by ten, as [SFdiv] rounds it:
    [M * 2 ^ E], within a relative error of [2 ^ -53] of [n / 10]. *)
Lemma SFdiv_tenth n :
  exists M E sh,
    0 <= sh <= 56 /\ - sh <= E /\
    2 ^ 52 <= Zpos M < 2 ^ 53 /\
    canonical_mantissa prec emax M E = true /\
    2 ^ 53 * Z.abs (Zpos M * 2 ^ (E + sh) * 10 - Zpos n * 2 ^ sh) <= Zpos n * 2 ^ sh /\
    SFdiv prec emax (S754_finite false n 0) (S754_finite false 10 0) =
    if E <=? emax - prec then S754_finite false M E else S754_infinity false.
Proof.
  unfold SFdiv, SFdiv_core_binary. cbn [xorb].
  change (Zdigits2 10) with 4. rewrite Zdigits2_log2, fexp_eq by lia.
  pose proof (Z.log2_nonneg (Zpos n)) as L0.
  destruct (Z.log2_spec (Zpos n) ltac:(lia)) as [S1 S2].
  set (l := Z.log2 (Zpos n)) in *.
  set (sh := Z.max (56 - l) 0).
  replace (Z.min (Z.max (l + 1 + 0 - (4 + 0) - 53) (-1074)) (0 - 0)) with (- sh)
    by (subst sh; lia).
  replace (0 - 0 - - sh) with sh by lia.
  assert (0 <= sh <= 56) as Hsh by (subst sh; lia).
  pose proof (Z.pow_pos_nonneg 2 sh ltac:(lia) ltac:(lia)) as Hps.
  assert (match sh with
          | 0 => Zpos n
          | Zpos _ => Z.shiftl (Zpos n) sh
          | Zneg _ => 0
          end = Zpos n * 2 ^ sh) as ->.
  { destruct sh as [|p|p] eqn:Es; try lia.
    now rewrite Z.shiftl_mul_pow2 by lia. }
  assert (2 ^ 56 <= Zpos n * 2 ^ sh) as Hbig.
  { replace 56 with ((56 - sh) + sh) by lia. rewrite Z.pow_add_r by lia.
    apply Z.mul_le_mono_nonneg_r; [lia|].
    eapply Z.le_trans; [|exact S1]. apply Z.pow_le_mono_r; subst sh; lia. }
  pose proof (Z_div_mod (Zpos n * 2 ^ sh) 10 ltac:(lia)) as Hdm.
  destruct (Z.div_eucl (Zpos n * 2 ^ sh) 10) as [q r]. destruct Hdm as [Hq Hr].
  destruct (binary_round_aux_normal false q (- sh) (new_location 10 r)
              (Zpos n * 2 ^ sh) 10 ltac:(lia)) as (M & E & HM & HE & Hc & Hb & Heq).
  - rewrite Hq, (Z.mul_comm 10 q). now apply new_location_located.
  - change (2 ^ 56) with (16 * 2 ^ 52) in Hbig. lia.
  - lia.
  - exists M, E, sh. replace (E - - sh) with (E + sh) in Hb by lia.
    split; [exact Hsh|]. split; [lia|]. split; [exact HM|]. split; [exact Hc|].
    split; [exact Hb|exact Heq].
Qed.

(** *** The order of doubles *)

Lemma SFcompare_antisym x y :
  SFcompare y x = option_map CompOpp (SFcompare x y).
Proof.
  destruct x as [sx|sx| |sx mx ex], y as [sy|sy| |sy my ey]; cbn [SFcompare option_map];
    try reflexivity;
    try (destruct sx; reflexivity); try (destruct sy; reflexivity);
    try (destruct sx, sy; reflexivity).
  destruct sx, sy; cbn [CompOpp]; try reflexivity;
    rewrite (Z.compare_antisym ex ey);
    destruct (ex ?= ey) eqn:Ec; cbn [CompOpp]; try reflexivity;
    change (PosDef.Pos.compare_cont Eq my mx) with (Pos.compare my mx);
    change (PosDef.Pos.compare_cont Eq mx my) with (Pos.compare mx my);
    rewrite (Pos.compare_antisym mx my); destruct (Pos.compare mx my); reflexivity.
Qed.

Lemma SFcompare_nan x y :
  SFcompare x y = None <-> x = S754_nan \/ y = S754_nan.
Proof.
  destruct x as [sx|sx| |sx mx ex], y as [sy|sy| |sy my ey]; cbn [SFcompare];
    split; intros H; try discriminate; try (destruct H; discriminate); auto.
Qed.

(** Two numbers are ordered one way or the other. *)
Lemma ltb_negb_leb x y :
  PrimFloat.is_nan x = false -> PrimFloat.is_nan y = false ->
  (x <? y)%float = negb (y <=? x)%float.
Proof.
  intros Hx Hy. rewrite ltb_spec, leb_spec. unfold SFltb, SFleb.
  rewrite (SFcompare_antisym (Prim2SF x) (Prim2SF y)).
  destruct (SFcompare (Prim2SF x) (Prim2SF y)) as [[]|] eqn:E; try reflexivity.
  apply SFcompare_nan in E. destruct E as [E|E]; apply is_nan_spec in E; congruence.
Qed.

Lemma leb_not_nan x y :
  (x <=? y)%float = true -> PrimFloat.is_nan x = false /\ PrimFloat.is_nan y = false.
Proof.
  rewrite leb_spec. unfold SFleb. intros H.
  destruct (PrimFloat.is_nan x) eqn:Hx.
  - apply is_nan_spec in Hx. rewrite Hx in H. discriminate.
  - split; [reflexivity|]. destruct (PrimFloat.is_nan y) eqn:Hy; [|reflexivity].
    apply is_nan_spec in Hy. rewrite Hy in H.
    destruct (Prim2SF x); discriminate.
Qed.

Lemma ltb_not_nan x y :
  (x <? y)%float = true -> PrimFloat.is_nan x = false /\ PrimFloat.is_nan y = false.
Proof.
  rewrite ltb_spec. unfold SFltb. intros H.
  destruct (PrimFloat.is_nan x) eqn:Hx.
  - apply is_nan_spec in Hx. rewrite Hx in H. discriminate.
  - split; [reflexivity|]. destruct (PrimFloat.is_nan y) eqn:Hy; [|reflexivity].
    apply is_nan_spec in Hy. rewrite Hy in H.
    destruct (Prim2SF x); discriminate.
Qed.

Lemma is_zero_spec x :
  PrimFloat.is_zero x = true <-> exists s, Prim2SF x = S754_zero s.
Proof.
  unfold PrimFloat.is_zero. rewrite FloatAxioms.eqb_spec.
  change (Prim2SF PrimFloat.zero) with (S754_zero false). unfold SFeqb.
  destruct (Prim2SF x) as [s|s| |s m e]; cbn [SFcompare]; split; intros H;
    try discriminate; try (now exists s); try reflexivity;
    try (destruct H; discriminate); destruct s; discriminate.
Qed.

(** *** Equal numbers have no difference *)

Lemma eqb_sub_zero u t :
  (u =? t)%float = true -> PrimFloat.is_finite t = true ->
  exists s, Prim2SF (u - t) = S754_zero s.
Proof.
  intros He Hf. apply is_finite_iff in Hf.
  rewrite FloatAxioms.eqb_spec in He. unfold SFeqb in He. rewrite sub_spec.
  pose proof (Prim2SF_valid u) as Vu. pose proof (Prim2SF_valid t) as Vt.
  destruct (Prim2SF u) as [su|su| |su mu eu], (Prim2SF t) as [st|st| |st mt et];
    cbn [finite] in Hf; try tauto; cbn [SFcompare] in He; try discriminate;
    try (destruct su; discriminate); try (destruct st; discriminate).
  - cbn [SFsub]. destruct su, st; eexists; reflexivity.
  - apply valid_finite in Vu, Vt.
    rewrite SFsub_finite.
    assert (SFcompare (S754_finite su mu eu) (S754_finite st mt et) = Some Eq) as Hc.
    { cbn [SFcompare]. revert He.
      destruct su, st; try discriminate;
        destruct (eu ?= et); try discriminate;
        destruct (PosDef.Pos.compare_cont Eq mu mt); try discriminate; reflexivity. }
    rewrite (SFcompare_finite su mu eu st mt et Vu Vt) in Hc.
    set (a := cond_Zopp su (Z.pos mu * 2 ^ (eu - Z.min eu et))) in *.
    set (b := cond_Zopp st (Z.pos mt * 2 ^ (et - Z.min eu et))) in *.
    assert (a = b) as -> by (apply Z.compare_eq; congruence).
    rewrite Z.sub_diag. exists false. reflexivity.
Qed.

Lemma abs_sub_eqb u t c :
  (u =? t)%float = true -> PrimFloat.is_finite t = true ->
  (0 <=? c)%float = true -> (abs (u - t) <=? c)%float = true.
Proof.
  intros He Hf Hc. destruct (eqb_sub_zero u t He Hf) as [s Hs].
  rewrite leb_spec, abs_spec, Hs. cbn [SFabs].
  rewrite leb_spec in Hc. exact Hc.
Qed.

(** *** Sums and differences that stay finite *)

Lemma binary_round_finite s m e :
  Z.log2 (Zpos m) + 1 + e <= 1023 -> finite (binary_round prec emax s m e).
Proof.
  intros HD. unfold binary_round. rewrite digits2_log2.
  set (f := fexp prec emax (Z.log2 (Z.pos m) + 1 + e)).
  assert (f <= 970) as Hf by (subst f; rewrite fexp_eq; lia).
  pose proof (Z.log2_nonneg (Zpos m)) as L0.
  destruct (Z.le_gt_cases f e) as [Hle|Hgt].
  - pose proof (shl_align_value m e f Hle) as Hv.
    pose proof (shl_align_exponent_eq m e f Hle) as He.
    destruct (shl_align m e f) as [mz ez]. cbn [fst snd] in Hv, He. subst ez.
    destruct (binary_round_aux_nearest s (Zpos mz) f loc_Exact (Zpos mz) 1
                ltac:(lia) ltac:(lia)) as (M & E' & HM & HE & _ & ->).
    { cbn [located]. lia. }
    cbv zeta in HE.
    assert (Zdigits2 (Zpos mz) + f = Z.log2 (Zpos m) + 1 + e) as HDz.
    { rewrite Zdigits2_log2, Hv, Z.log2_mul_pow2 by lia. lia. }
    rewrite HDz in HE. fold f in HE. rewrite Z.sub_diag in HE.
    destruct M as [|p|p]; try lia; [exact I|].
    replace (E' <=? emax - prec) with true; [exact I|].
    symmetry. apply Z.leb_le. change (emax - prec) with 971. lia.
  - assert (shl_align m e f = (m, e)) as ->.
    { unfold shl_align. destruct (f - e) as [|d|d] eqn:Ed; try reflexivity. lia. }
    destruct (binary_round_aux_nearest s (Zpos m) e loc_Exact (Zpos m) 1
                ltac:(lia) ltac:(lia)) as (M & E' & HM & HE & _ & ->).
    { cbn [located]. lia. }
    cbv zeta in HE. rewrite Zdigits2_log2 in HE by lia. fold f in HE.
    destruct M as [|p|p]; try lia; [exact I|].
    replace (E' <=? emax - prec) with true; [exact I|].
    symmetry. apply Z.leb_le. change (emax - prec) with 971. lia.
Qed.

(** The difference of two finite doubles of moderate exponent is
    finite. *)
Lemma SFsub_bounded_finite sa ma ea sb mb eb :
  Zpos ma < 2 ^ 53 -> Zpos mb < 2 ^ 53 -> ea <= 960 -> eb <= 960 ->
  finite (SFsub prec emax (S754_finite sa ma ea) (S754_finite sb mb eb)).
Proof.
  intros Ha Hb Hea Heb. rewrite SFsub_finite.
  set (mn := Z.min ea eb).
  pose proof (Z.pow_pos_nonneg 2 (ea - mn) ltac:(lia) ltac:(subst mn; lia)) as Pa.
  pose proof (Z.pow_pos_nonneg 2 (eb - mn) ltac:(lia) ltac:(subst mn; lia)) as Pb.
  set (A := Zpos ma * 2 ^ (ea - mn)) in *. set (B := Zpos mb * 2 ^ (eb - mn)) in *.
  assert (0 < A) as HA0 by (subst A; lia).
  assert (0 < B) as HB0 by (subst B; lia).
  assert (A + B < 2 ^ (54 + Z.max ea eb - mn)) as Hsum.
  { assert (A < 2 ^ 53 * 2 ^ (ea - mn)) by (subst A; apply Z.mul_lt_mono_pos_r; lia).
    assert (B < 2 ^ 53 * 2 ^ (eb - mn)) by (subst B; apply Z.mul_lt_mono_pos_r; lia).
    assert (2 ^ (ea - mn) <= 2 ^ (Z.max ea eb - mn)) by (apply Z.pow_le_mono_r; lia).
    assert (2 ^ (eb - mn) <= 2 ^ (Z.max ea eb - mn)) by (apply Z.pow_le_mono_r; lia).
    replace (54 + Z.max ea eb - mn) with (1 + 53 + (Z.max ea eb - mn)) by lia.
    rewrite !Z.pow_add_r by (subst mn; lia). lia. }
  assert (forall z : Z, Z.abs z <= A + B -> finite (binary_normalize prec emax z mn false))
    as Hn.
  { intros z Hz. destruct z as [|p|p]; [exact I| |];
      cbn [binary_normalize]; apply binary_round_finite.
    - assert (Z.log2 (Zpos p) < 54 + Z.max ea eb - mn)
        by (apply Z.log2_lt_pow2; lia). lia.
    - assert (Z.log2 (Zpos p) < 54 + Z.max ea eb - mn)
        by (apply Z.log2_lt_pow2; lia). lia. }
  apply Hn. destruct sa, sb; cbn [cond_Zopp]; lia.
Qed.

(** The sum of two numbers that are not negative is not negative. *)
Lemma SFadd_nonneg x y :
  nonneg x -> nonneg y -> nonneg (SFadd prec emax x y).
Proof.
  destruct x as [sx|sx| |sx mx ex], y as [sy|sy| |sy my ey]; cbn [nonneg];
    try tauto; intros Hx Hy; subst; cbn [SFadd nonneg]; try reflexivity; try exact I.
  - destruct sx, sy; exact I.
  - cbn [cond_Zopp]. 
    change (Z.pos (fst (shl_align mx ex (Z.min ex ey)))
            + Z.pos (fst (shl_align my ey (Z.min ex ey))))
      with (Z.pos (fst (shl_align mx ex (Z.min ex ey))
                   + fst (shl_align my ey (Z.min ex ey)))).
    cbn [binary_normalize]. apply sign_is_nonneg, binary_round_sign.
Qed.

(** A number from above 0 to 180 is finite, of exponent -45 at most. *)
Lemma upto_180 x :
  (0 <? x)%float = true -> (x <=? 180)%float = true ->
  exists m e, Prim2SF x = S754_finite false m e /\ e <= -45.
Proof.
  intros H0 H1. apply ltb_zero_iff in H0. rewrite leb_spec in H1.
  pose proof (Prim2SF_valid x) as V.
  destruct (Prim2SF x) as [s|s| |s m e]; cbn [strictly] in H0; try tauto; subst s.
  - vm_compute in H1. discriminate.
  - exists m, e. split; [reflexivity|].
    apply valid_finite in V. destruct (canonical_bounds m e V) as (A & B & C).
    destruct (Z.le_gt_cases e (-45)) as [|Hgt]; [assumption|exfalso].
    change (Prim2SF 180) with (S754_finite false 6333186975989760 (-45)) in H1.
    unfold SFleb in H1.
    rewrite (SFcompare_finite false m e false 6333186975989760 (-45) V eq_refl) in H1.
    cbn [cond_Zopp] in H1. rewrite Z.min_r, Z.sub_diag in H1 by lia.
    pose proof (Z.pow_pos_nonneg 2 (e - -45) ltac:(lia) ltac:(lia)) as Hp.
    assert (2 <= 2 ^ (e - -45)).
    { change 2 with (2 ^ 1) at 1. apply Z.pow_le_mono_r; lia. }
    specialize (C ltac:(lia)). change (2 ^ 52) with 4503599627370496 in C.
    change (2 ^ 0) with 1 in H1.
    destruct (Z.compare_spec (Z.pos m * 2 ^ (e - -45)) (6333186975989760 * 1));
      try discriminate;
    assert (4503599627370496 * 2 <= Zpos m * 2 ^ (e - -45))
      by (apply Z.mul_le_mono_nonneg; lia); lia.
Qed.

(** *** Doubles as integers *)

Lemma scaled_finite_pos m e :
  canonical_mantissa prec emax m e = true ->
  -1074 <= e /\ 0 < Zpos m * 2 ^ (e + 1074).
Proof.
  intros Hc. destruct (canonical_bounds m e Hc) as (He & _).
  split; [exact He|]. apply Z.mul_pos_pos; [lia|]. apply Z.pow_pos_nonneg; lia.
Qed.

Lemma SFleb_scaled x y :
  SpecFloat.valid_binary prec emax x = true -> SpecFloat.valid_binary prec emax y = true ->
  finite x -> finite y ->
  SFleb x y = (scaled x <=? scaled y).
Proof.
  intros Vx Vy Fx Fy. unfold SFleb.
  destruct x as [sx|sx| |sx mx ex], y as [sy|sy| |sy my ey]; cbn [finite] in Fx, Fy;
    try contradiction; clear Fx Fy.
  - reflexivity.
  - apply valid_finite in Vy. destruct (scaled_finite_pos my ey Vy) as [_ Hp].
    cbn [SFcompare scaled]. destruct sy; cbn [cond_Zopp]; symmetry;
      [apply Z.leb_gt|apply Z.leb_le]; lia.
  - apply valid_finite in Vx. destruct (scaled_finite_pos mx ex Vx) as [_ Hp].
    cbn [SFcompare scaled]. destruct sx; cbn [cond_Zopp]; symmetry;
      [apply Z.leb_le|apply Z.leb_gt]; lia.
  - apply valid_finite in Vx, Vy.
    destruct (scaled_finite_pos mx ex Vx) as [Hex _].
    destruct (scaled_finite_pos my ey Vy) as [Hey _].
    rewrite (SFcompare_finite sx mx ex sy my ey Vx Vy). cbn [scaled].
    set (mn := Z.min ex ey).
    pose proof (Z.pow_pos_nonneg 2 (mn + 1074) ltac:(lia) ltac:(lia)) as HK.
    assert (forall s m e, mn <= e ->
              cond_Zopp s (Zpos m * 2 ^ (e + 1074))
              = cond_Zopp s (Zpos m * 2 ^ (e - mn)) * 2 ^ (mn + 1074)) as Hs.
    { intros s m e He. replace (e + 1074) with (e - mn + (mn + 1074)) by lia.
      rewrite Z.pow_add_r by lia. destruct s; cbn [cond_Zopp]; ring. }
    rewrite (Hs sx mx ex), (Hs sy my ey) by lia.
    set (a := cond_Zopp sx (Z.pos mx * 2 ^ (ex - mn))).
    set (b := cond_Zopp sy (Z.pos my * 2 ^ (ey - mn))).
    destruct (Z.compare_spec a b) as [Hc|Hc|Hc]; symmetry.
    + apply Z.leb_le. rewrite Hc. lia.
    + apply Z.leb_le. apply Z.mul_le_mono_nonneg_r; lia.
    + apply Z.leb_gt. apply Z.mul_lt_mono_pos_r; lia.
Qed.

Lemma scaled_abs x : scaled (SFabs x) = Z.abs (scaled x).
Proof.
  destruct x as [s|s| |s m e]; cbn [SFabs scaled]; try reflexivity.
  pose proof (Z.pow_nonneg 2 (e + 1074) ltac:(lia)).
  destruct s; cbn [cond_Zopp]; lia.
Qed.

(** *** Rounding an integer mantissa *)

(** Rounding [p * 2 ^ e]: the result is off by a relative error of at
    most [2 ^ -53], and by nothing when [p * 2 ^ e] has 53 bits. *)
Lemma binary_round_scaled s p e :
  -1074 <= e -> Z.log2 (Zpos p) + 1 + e <= 1023 ->
  exists M E,
    binary_round prec emax s p e = S754_finite s M E /\ -1074 <= E /\
    2 ^ 53 * Z.abs (Zpos M * 2 ^ (E + 1074) - Zpos p * 2 ^ (e + 1074))
      <= Zpos p * 2 ^ (e + 1074) /\
    (representable (Zpos p) -> Zpos M * 2 ^ (E + 1074) = Zpos p * 2 ^ (e + 1074)).
Proof.
  intros He HD. unfold binary_round. rewrite digits2_log2.
  set (f := fexp prec emax (Z.log2 (Z.pos p) + 1 + e)).
  assert (f = Z.max (Z.log2 (Zpos p) + e - 52) (-1074)) as Hf
    by (subst f; rewrite fexp_eq; lia).
  pose proof (Z.log2_nonneg (Zpos p)) as L0.
  pose proof (Z.pow_pos_nonneg 2 (e + 1074) ltac:(lia) ltac:(lia)) as HPe.
  destruct (Z.le_gt_cases f e) as [Hle|Hgt].
  - pose proof (shl_align_value p e f Hle) as Hv.
    pose proof (shl_align_exponent_eq p e f Hle) as Hx.
    destruct (shl_align p e f) as [mz ez]. cbn [fst snd] in Hv, Hx. subst ez.
    destruct (binary_round_aux_nearest s (Zpos mz) f loc_Exact (Zpos mz) 1
                ltac:(lia) ltac:(lia)) as (M & E' & HM & HE & Hb & ->).
    { cbn [located]. lia. }
    cbv zeta in HE, Hb.
    assert (Zdigits2 (Zpos mz) + f = Z.log2 (Zpos p) + 1 + e) as HDz.
    { rewrite Zdigits2_log2, Hv, Z.log2_mul_pow2 by lia. lia. }
    rewrite HDz in HE, Hb. fold f in HE, Hb. rewrite Z.sub_diag in HE, Hb.
    change (Z.max 0 0) with 0 in HE, Hb. change (2 ^ 0) with 1 in Hb.
    assert (M * 2 ^ (E' - f) = Zpos mz) as Hex by lia.
    pose proof (Z.pow_pos_nonneg 2 (E' - f) ltac:(lia) ltac:(lia)) as HP1.
    destruct M as [|M|M]; try lia.
    exists M, E'.
    replace (E' <=? emax - prec) with true
      by (symmetry; apply Z.leb_le; change (emax - prec) with 971; lia).
    split; [reflexivity|]. split; [lia|].
    assert (Zpos M * 2 ^ (E' + 1074) = Zpos p * 2 ^ (e + 1074)) as Heq.
    { replace (E' + 1074) with (E' - f + (f + 1074)) by lia.
      rewrite Z.pow_add_r, Z.mul_assoc, Hex, Hv, <- Z.mul_assoc, <- Z.pow_add_r by lia.
      do 2 f_equal. lia. }
    split; [|intros _; exact Heq].
    rewrite Heq, Z.sub_diag. cbn [Z.abs]. lia.
  - assert (shl_align p e f = (p, e)) as ->.
    { unfold shl_align. destruct (f - e) as [|d|d] eqn:Ed; try reflexivity. lia. }
    destruct (binary_round_aux_nearest s (Zpos p) e loc_Exact (Zpos p) 1
                ltac:(lia) ltac:(lia)) as (M & E' & HM & HE & Hb & ->).
    { cbn [located]. lia. }
    cbv zeta in HE, Hb. rewrite Zdigits2_log2 in HE, Hb by lia. fold f in HE, Hb.
    set (k := Z.log2 (Zpos p) - 52).
    assert (0 < k) as Hk by (subst k; lia).
    replace (Z.max (f - e) 0) with k in HE, Hb by (subst k; lia).
    rewrite !Z.mul_1_r in Hb.
    pose proof (Z.pow_pos_nonneg 2 k ltac:(lia) ltac:(lia)) as HPk.
    destruct (Z.log2_spec (Zpos p) ltac:(lia)) as [S1 _].
    replace (Z.log2 (Zpos p)) with (52 + k) in S1 by (subst k; lia).
    rewrite Z.pow_add_r in S1 by lia.
    assert (2 ^ 53 * Z.abs (M * 2 ^ (E' - e) - Zpos p) <= Zpos p) as Hrel.
    { change (2 ^ 53) with (2 ^ 52 * 2). change (2 ^ 52) with 4503599627370496 in *.
      set (d := Z.abs (M * 2 ^ (E' - e) - Zpos p)).
      assert (2 * d <= 2 ^ k) by (subst d; lia). lia. }
    destruct M as [|M|M]; try lia.
    exists M, E'.
    replace (E' <=? emax - prec) with true
      by (symmetry; apply Z.leb_le; change (emax - prec) with 971; subst k; lia).
    split; [reflexivity|]. split; [lia|].
    assert (Zpos M * 2 ^ (E' + 1074) - Zpos p * 2 ^ (e + 1074)
            = (Zpos M * 2 ^ (E' - e) - Zpos p) * 2 ^ (e + 1074)) as Hd.
    { replace (E' + 1074) with (E' - e + (e + 1074)) by lia.
      rewrite Z.pow_add_r by lia. ring. }
    split.
    + rewrite Hd, Z.abs_mul, (Z.abs_eq (2 ^ (e + 1074))), Z.mul_assoc by lia.
      apply Z.mul_le_mono_nonneg_r; [lia|exact Hrel].
    + intros (v & j & Hv & Hj & Hvb). rewrite Z.abs_eq in Hv by lia.
      assert (Zpos M * 2 ^ (E' - e) - Zpos p = 0) as Hz; [|lia].
      assert (0 < v) as Hv0.
      { destruct (Z.eq_dec v 0) as [->|]; [lia|lia]. }
      assert (k <= j) as Hkj.
      { assert (Z.log2 (Zpos p) = Z.log2 v + j) as Hl
          by (rewrite Hv, Z.log2_mul_pow2 by lia; lia).
        assert (Z.log2 v < 53) by (apply Z.log2_lt_pow2; lia).
        subst k. lia. }
      assert (Zpos p = v * 2 ^ (j - k) * 2 ^ k) as Hp.
      { rewrite Hv, <- Z.mul_assoc, <- Z.pow_add_r by lia. do 2 f_equal. lia. }
      assert (Zpos M * 2 ^ (E' - e) = Zpos M * 2 ^ (E' - e - k) * 2 ^ k) as HMk.
      { rewrite <- Z.mul_assoc, <- Z.pow_add_r by lia. do 2 f_equal. lia. }
      set (D := Zpos M * 2 ^ (E' - e - k) - v * 2 ^ (j - k)).
      assert (Zpos M * 2 ^ (E' - e) - Zpos p = D * 2 ^ k) as HD2
        by (rewrite HMk, Hp; subst D; ring).
      rewrite HD2 in Hb |- *.
      assert (D = 0) as ->; [|reflexivity].
      destruct (Z.eq_dec D 0) as [|Hnz]; [assumption|exfalso].
      assert (2 ^ k <= Z.abs D * 2 ^ k)
        by (apply (Z.le_trans _ (1 * 2 ^ k)); [lia|apply Z.mul_le_mono_nonneg_r; lia]).
      assert (Z.abs (D * 2 ^ k) = Z.abs D * 2 ^ k)
        by (rewrite Z.abs_mul, (Z.abs_eq (2 ^ k)) by lia; reflexivity).
      lia.
Qed.

(** *** Differences *)

Lemma representable_scaled p e :
  -1074 <= e -> representable (Zpos p * 2 ^ (e + 1074)) -> representable (Zpos p).
Proof.
  intros He (v & j & Hv & Hj & Hvb).
  pose proof (Z.pow_pos_nonneg 2 (e + 1074) ltac:(lia) ltac:(lia)) as HP.
  rewrite Z.abs_eq in Hv by lia.
  destruct (Z.le_gt_cases (e + 1074) j) as [Hle|Hgt].
  - exists v, (j - (e + 1074)). split; [|split; [lia|exact Hvb]].
    rewrite Z.abs_eq by lia.
    apply (Z.mul_cancel_r _ _ (2 ^ (e + 1074))); [lia|].
    rewrite Hv, <- Z.mul_assoc, <- Z.pow_add_r by lia. do 2 f_equal. lia.
  - exists (Zpos p), 0. rewrite Z.abs_eq by lia. change (2 ^ 0) with 1.
    split; [lia|]. split; [lia|]. split; [lia|].
    assert (v = Zpos p * 2 ^ (e + 1074 - j)) as Hv'.
    { apply (Z.mul_cancel_r _ _ (2 ^ j)); [apply Z.pow_nonzero; lia|].
      rewrite <- Hv, <- Z.mul_assoc, <- Z.pow_add_r by lia. do 2 f_equal. lia. }
    pose proof (Z.pow_pos_nonneg 2 (e + 1074 - j) ltac:(lia) ltac:(lia)) as HQ.
    assert (Zpos p * 1 <= Zpos p * 2 ^ (e + 1074 - j))
      by (apply Z.mul_le_mono_nonneg_l; lia).
    lia.
Qed.

Lemma binary_normalize_scaled z e :
  -1074 <= e -> Z.abs z * 2 ^ (e + 1074) < 2 ^ 2001 ->
  let r := binary_normalize prec emax z e false in
  let d := z * 2 ^ (e + 1074) in
  finite r /\
  2 ^ 53 * Z.abs (scaled r - d) <= Z.abs d /\
  (representable d -> scaled r = d).
Proof.
  intros He Hb. cbv zeta.
  pose proof (Z.pow_pos_nonneg 2 (e + 1074) ltac:(lia) ltac:(lia)) as HP.
  assert (forall s p, Z.abs z = Zpos p ->
            exists M E,
              binary_round prec emax s p e = S754_finite s M E /\
              2 ^ 53 * Z.abs (Zpos M * 2 ^ (E + 1074) - Zpos p * 2 ^ (e + 1074))
                <= Zpos p * 2 ^ (e + 1074) /\
              (representable (Zpos p * 2 ^ (e + 1074)) ->
               Zpos M * 2 ^ (E + 1074) = Zpos p * 2 ^ (e + 1074))) as Hr.
  { intros s p Hp. rewrite Hp in Hb.
    assert (Z.log2 (Zpos p * 2 ^ (e + 1074)) < 2001) as Hl
      by (apply Z.log2_lt_pow2; lia).
    rewrite Z.log2_mul_pow2 in Hl by lia.
    destruct (binary_round_scaled s p e He ltac:(lia)) as (M & E & Heq & _ & Hrel & Hex).
    exists M, E. split; [exact Heq|]. split; [exact Hrel|].
    intros Hrep. apply Hex. now apply (representable_scaled p e). }
  destruct z as [|p|p]; cbn [binary_normalize].
  - cbn [finite scaled]. rewrite Z.mul_0_l. cbn [Z.abs].
    repeat split; intros; lia.
  - destruct (Hr false p eq_refl) as (M & E & -> & Hrel & Hex).
    cbn [finite scaled cond_Zopp]. split; [exact I|].
    rewrite (Z.abs_eq (Zpos p * _)) by lia. split; [exact Hrel|exact Hex].
  - destruct (Hr true p eq_refl) as (M & E & -> & Hrel & Hex).
    cbn [finite scaled cond_Zopp]. split; [exact I|].
    replace (Z.neg p * 2 ^ (e + 1074)) with (- (Zpos p * 2 ^ (e + 1074))) by lia.
    rewrite Z.abs_opp, (Z.abs_eq (Zpos p * _)) by lia.
    replace (- (Zpos M * 2 ^ (E + 1074)) - - (Zpos p * 2 ^ (e + 1074)))
      with (- (Zpos M * 2 ^ (E + 1074) - Zpos p * 2 ^ (e + 1074))) by ring.
    rewrite Z.abs_opp. split; [exact Hrel|].
    intros (v & j & Hv & Hj). rewrite Z.abs_opp in Hv.
    rewrite Hex; [reflexivity|]. exists v, j. split; [exact Hv|exact Hj].
Qed.

(** The difference of two finite doubles of moderate size: off the
    exact difference by a relative error of at most [2 ^ -53], and by
    nothing when the exact difference has 53 bits. *)
Lemma SFsub_scaled x y :
  SpecFloat.valid_binary prec emax x = true -> SpecFloat.valid_binary prec emax y = true ->
  finite x -> finite y ->
  Z.abs (scaled x) < 2 ^ 2000 -> Z.abs (scaled y) < 2 ^ 2000 ->
  let r := SFsub prec emax x y in
  let d := scaled x - scaled y in
  finite r /\
  2 ^ 53 * Z.abs (scaled r - d) <= Z.abs d /\
  (representable d -> scaled r = d).
Proof.
  intros Vx Vy Fx Fy Bx By.
  destruct x as [sx|sx| |sx mx ex], y as [sy|sy| |sy my ey]; cbn [finite] in Fx, Fy;
    try contradiction; clear Fx Fy; cbv zeta.
  - cbn [SFsub scaled]. destruct sx, sy; cbn [finite scaled]; repeat split; intros; lia.
  - cbn [SFsub scaled finite]. split; [exact I|].
    assert (cond_Zopp (negb sy) (Z.pos my * 2 ^ (ey + 1074))
            = 0 - cond_Zopp sy (Z.pos my * 2 ^ (ey + 1074))) as ->
      by (destruct sy; cbn [cond_Zopp negb]; lia).
    rewrite Z.sub_diag. cbn [Z.abs]. split; [lia|reflexivity].
  - cbn [SFsub scaled finite]. split; [exact I|].
    rewrite Z.sub_0_r, Z.sub_diag. cbn [Z.abs]. split; [lia|reflexivity].
  - apply valid_finite in Vx, Vy.
    destruct (scaled_finite_pos mx ex Vx) as [Hex Hpx].
    destruct (scaled_finite_pos my ey Vy) as [Hey Hpy].
    rewrite SFsub_finite. cbn [scaled] in *.
    set (mn := Z.min ex ey).
    pose proof (Z.pow_pos_nonneg 2 (mn + 1074) ltac:(lia) ltac:(lia)) as HK.
    assert (forall s m e, mn <= e ->
              cond_Zopp s (Zpos m * 2 ^ (e + 1074))
              = cond_Zopp s (Zpos m * 2 ^ (e - mn)) * 2 ^ (mn + 1074)) as Hs.
    { intros s m e He. replace (e + 1074) with (e - mn + (mn + 1074)) by lia.
      rewrite Z.pow_add_r by lia. destruct s; cbn [cond_Zopp]; ring. }
    rewrite (Hs sx mx ex), (Hs sy my ey) in * by lia.
    set (a := cond_Zopp sx (Z.pos mx * 2 ^ (ex - mn))) in *.
    set (b := cond_Zopp sy (Z.pos my * 2 ^ (ey - mn))) in *.
    rewrite <- Z.mul_sub_distr_r.
    apply binary_normalize_scaled; [lia|].
    rewrite !Z.abs_mul, !(Z.abs_eq (2 ^ (mn + 1074))) in Bx, By by lia.
    assert (Z.abs (a - b) <= Z.abs a + Z.abs b) by lia.
    assert (Z.abs (a - b) * 2 ^ (mn + 1074)
            <= (Z.abs a + Z.abs b) * 2 ^ (mn + 1074))
      by (apply Z.mul_le_mono_nonneg_r; lia).
    assert (2 ^ 2001 = 2 ^ 2000 + 2 ^ 2000) as ->
      by (change 2001 with (Z.succ 2000); rewrite Z.pow_succ_r by lia; lia).
    set (T := 2 ^ 2000) in *. lia.
Qed.

(** Two doubles with the same value that are not zero are the same. *)
Lemma scaled_inj s1 m1 e1 s2 m2 e2 :
  canonical_mantissa prec emax m1 e1 = true ->
  canonical_mantissa prec emax m2 e2 = true ->
  scaled (S754_finite s1 m1 e1) = scaled (S754_finite s2 m2 e2) ->
  S754_finite s1 m1 e1 = S754_finite s2 m2 e2.
Proof.
  intros C1 C2 H. cbn [scaled] in H.
  destruct (scaled_finite_pos m1 e1 C1) as [H1 P1].
  destruct (scaled_finite_pos m2 e2 C2) as [H2 P2].
  assert (s1 = s2) as <- by (destruct s1, s2; cbn [cond_Zopp] in H; try reflexivity; lia).
  assert (Zpos m1 * 2 ^ (e1 + 1074) = Zpos m2 * 2 ^ (e2 + 1074)) as Hv
    by (destruct s1; cbn [cond_Zopp] in H; lia).
  assert (Z.log2 (Zpos m1) + e1 = Z.log2 (Zpos m2) + e2) as Hl.
  { apply (f_equal Z.log2) in Hv. rewrite !Z.log2_mul_pow2 in Hv by lia. lia. }
  unfold canonical_mantissa in C1, C2. rewrite fexp_eq, digits2_log2 in C1, C2.
  apply Z.eqb_eq in C1, C2.
  assert (e1 = e2) as <- by lia.
  apply Z.mul_cancel_r in Hv; [|apply Z.pow_nonzero; lia].
  now injection Hv as ->.
Qed.

(** *** Sums *)

Lemma SFadd_finite sa ma ea sb mb eb :
  SFadd prec emax (S754_finite sa ma ea) (S754_finite sb mb eb) =
  binary_normalize prec emax
    (cond_Zopp sa (Zpos ma * 2 ^ (ea - Z.min ea eb))
     + cond_Zopp sb (Zpos mb * 2 ^ (eb - Z.min ea eb)))
    (Z.min ea eb) false.
Proof.
  cbn [SFadd]. cbv zeta.
  rewrite !shl_align_value by lia. reflexivity.
Qed.

(** The sum of two finite doubles of moderate size: off the exact sum
    by a relative error of at most [2 ^ -53]. *)
Lemma SFadd_scaled x y :
  SpecFloat.valid_binary prec emax x = true -> SpecFloat.valid_binary prec emax y = true ->
  finite x -> finite y ->
  Z.abs (scaled x) < 2 ^ 2000 -> Z.abs (scaled y) < 2 ^ 2000 ->
  let r := SFadd prec emax x y in
  let d := scaled x + scaled y in
  finite r /\ 2 ^ 53 * Z.abs (scaled r - d) <= Z.abs d.
Proof.
  intros Vx Vy Fx Fy Bx By.
  destruct x as [sx|sx| |sx mx ex], y as [sy|sy| |sy my ey]; cbn [finite] in Fx, Fy;
    try contradiction; clear Fx Fy; cbv zeta.
  - cbn [SFadd scaled]. destruct sx, sy; cbn [finite scaled]; split; lia.
  - cbn [SFadd scaled finite]. split; [exact I|].
    rewrite Z.add_0_l, Z.sub_diag. cbn [Z.abs]. lia.
  - cbn [SFadd scaled finite]. split; [exact I|].
    rewrite Z.add_0_r, Z.sub_diag. cbn [Z.abs]. lia.
  - apply valid_finite in Vx, Vy.
    destruct (scaled_finite_pos mx ex Vx) as [Hex Hpx].
    destruct (scaled_finite_pos my ey Vy) as [Hey Hpy].
    rewrite SFadd_finite. cbn [scaled] in *.
    set (mn := Z.min ex ey).
    pose proof (Z.pow_pos_nonneg 2 (mn + 1074) ltac:(lia) ltac:(lia)) as HK.
    assert (forall s m e, mn <= e ->
              cond_Zopp s (Zpos m * 2 ^ (e + 1074))
              = cond_Zopp s (Zpos m * 2 ^ (e - mn)) * 2 ^ (mn + 1074)) as Hs.
    { intros s m e He. replace (e + 1074) with (e - mn + (mn + 1074)) by lia.
      rewrite Z.pow_add_r by lia. destruct s; cbn [cond_Zopp]; ring. }
    rewrite (Hs sx mx ex), (Hs sy my ey) in * by lia.
    set (a := cond_Zopp sx (Z.pos mx * 2 ^ (ex - mn))) in *.
    set (b := cond_Zopp sy (Z.pos my * 2 ^ (ey - mn))) in *.
    rewrite <- Z.mul_add_distr_r.
    destruct (binary_normalize_scaled (a + b) mn) as (F & H & _); [lia| |split; assumption].
    rewrite !Z.abs_mul, !(Z.abs_eq (2 ^ (mn + 1074))) in Bx, By by lia.
    assert (Z.abs (a + b) <= Z.abs a + Z.abs b) by lia.
    assert (Z.abs (a + b) * 2 ^ (mn + 1074)
            <= (Z.abs a + Z.abs b) * 2 ^ (mn + 1074))
      by (apply Z.mul_le_mono_nonneg_r; lia).
    assert (2 ^ 2001 = 2 ^ 2000 + 2 ^ 2000) as ->
      by (change 2001 with (Z.succ 2000); rewrite Z.pow_succ_r by lia; lia).
    set (T := 2 ^ 2000) in *. lia.
Qed.

End Binary64.


(** ** Facts about the library functions *)

Module JSFacts.

Import JS.


Ltac digit_cases d :=
  let H := fresh in
  assert (d = 0 \/ d = 1 \/ d = 2 \/ d = 3 \/ d = 4 \/ d = 5 \/ d = 6 \/ d = 7
          \/ d = 8 \/ d = 9) as H by lia;
  repeat (destruct H as [H|H]; [subst d|]); [..|subst d].

Lemma digit_char_is_digit d :
  0 <= d <= 9 ->
  is_digit (digit_char d) = true /\ digit_value (digit_char d) = d.
Proof. intros H. digit_cases d; split; reflexivity. Qed.

Lemma decimal_aux_app f n acc rest :
  (decimal_aux f n acc ++ rest)%string = decimal_aux f n (acc ++ rest)%string.
Proof.
  revert n acc. induction f as [|f IH]; intros n acc; cbn [decimal_aux].
  - reflexivity.
  - destruct (n <? 10); [reflexivity|]. now rewrite IH.
Qed.

(** The text of [n] begins with a digit. *)
Lemma decimal_aux_head f n acc :
  0 <= n ->
  exists d r, 0 <= d <= 9 /\ decimal_aux f n acc = String (digit_char d) r.
Proof.
  revert n acc. induction f as [|f IH]; intros n acc Hn; cbn [decimal_aux].
  - exists (n mod 10), acc. split; [|reflexivity].
    pose proof (Z.mod_pos_bound n 10 ltac:(lia)). lia.
  - destruct (n <? 10).
    + exists (n mod 10), acc. split; [|reflexivity].
      pose proof (Z.mod_pos_bound n 10 ltac:(lia)). lia.
    + apply IH. apply Z.div_pos; lia.
Qed.

(** Reading back the text of [n]: its digits are taken up to the last
    one and denote [n]. *)
Lemma DecimalDigits_decimal_aux f n rest :
  0 <= n < 10 ^ (Z.of_nat f + 1) ->
  exists k, forall a c,
    DecimalDigits (decimal_aux f n rest) a c =
    DecimalDigits rest (a * 10 ^ Z.of_nat (S k) + n) (c + S k).
Proof.
  revert n rest. induction f as [|f IH]; intros n rest Hn.
  - exists O. intros a c. cbn [decimal_aux DecimalDigits].
    change (0 + 1) with 1 in Hn. rewrite Z.pow_1_r in Hn.
    rewrite Z.mod_small by lia.
    destruct (digit_char_is_digit n ltac:(lia)) as [-> ->].
    f_equal; [change (10 ^ Z.of_nat 1) with 10; lia | lia].
  - cbn [decimal_aux]. destruct (Z.ltb_spec n 10) as [Hlt|Hge].
    + exists O. intros a c. cbn [DecimalDigits].
      rewrite Z.mod_small by lia.
      destruct (digit_char_is_digit n ltac:(lia)) as [-> ->].
      f_equal; [change (10 ^ Z.of_nat 1) with 10; lia | lia].
    + destruct (IH (n / 10) (String (digit_char (n mod 10)) rest)) as [k Hk].
      { split; [apply Z.div_pos; lia|].
        apply Z.div_lt_upper_bound; [lia|].
        rewrite <- Z.pow_succ_r by lia.
        replace (Z.succ (Z.of_nat f + 1)) with (Z.of_nat (S f) + 1) by lia. lia. }
      exists (S k). intros a c. rewrite Hk. cbn [DecimalDigits].
      pose proof (Z.mod_pos_bound n 10 ltac:(lia)) as Hm.
      destruct (digit_char_is_digit (n mod 10) ltac:(lia)) as [-> ->].
      f_equal; [|lia].
      rewrite (Nat2Z.inj_succ (S k)), Z.pow_succ_r by lia.
      pose proof (Z.div_mod n 10 ltac:(lia)). lia.
Qed.

Lemma decimal_fuel n : 0 <= n -> n < 10 ^ (Z.of_nat (Z.to_nat (Z.log2 n)) + 1).
Proof.
  intros Hn. rewrite Z2Nat.id by apply Z.log2_nonneg.
  destruct (Z.eq_dec n 0) as [->|Hz]; [reflexivity|].
  destruct (Z.log2_spec n ltac:(lia)) as [_ H].
  eapply Z.lt_le_trans; [exact H|].
  replace (Z.succ (Z.log2 n)) with (Z.log2 n + 1) by lia.
  apply Z.pow_le_mono_l. lia.
Qed.

Lemma decimal_digit b : 0 <= b <= 9 -> decimal b = String (digit_char b) "".
Proof. intros H. digit_cases b; reflexivity. Qed.

(** Reading back a literal with one decimal, as [toFixed_1] writes it. *)
Lemma parseFloat_one_decimal (neg : bool) a b :
  0 <= a -> 0 <= b <= 9 ->
  parseFloat ((if neg then "-" else "") ++ decimal a ++ String "." (decimal b))%string
  = RoundMV neg (10 * a + b) (-1).
Proof.
  intros Ha Hb.
  assert (StrUnsignedDecimalLiteral neg (decimal a ++ String "." (decimal b))%string
          = RoundMV neg (10 * a + b) (-1)) as H.
  { assert ((decimal a ++ String "." (decimal b))%string
            = decimal_aux (Z.to_nat (Z.log2 a)) a (String "." (decimal b))) as ->.
    { unfold decimal at 1. now rewrite decimal_aux_app. }
    unfold StrUnsignedDecimalLiteral.
    destruct (decimal_aux_head (Z.to_nat (Z.log2 a)) a (String "." (decimal b)) Ha)
      as (d & r & Hd & E).
    destruct (DecimalDigits_decimal_aux (Z.to_nat (Z.log2 a)) a
                (String "." (decimal b))) as [k Hk].
    { split; [exact Ha|now apply decimal_fuel]. }
    assert (String.prefix "Infinity" (decimal_aux (Z.to_nat (Z.log2 a)) a
              (String "." (decimal b))) = false) as ->.
    { rewrite E. digit_cases d; reflexivity. }
    rewrite Hk. cbn [DecimalDigits]. change (is_digit ".") with false. cbv iota.
    rewrite (decimal_digit b Hb). cbn [DecimalDigits].
    destruct (digit_char_is_digit b Hb) as [-> ->].
    cbn [Nat.add ExponentPart]. f_equal; lia. }
  destruct neg; cbn [append].
  - exact H.
  - unfold parseFloat.
    destruct (decimal_aux_head (Z.to_nat (Z.log2 a)) a "" Ha) as (d & r & Hd & E).
    revert H. unfold decimal at 1 3. rewrite E. cbn [append]. intros H.
    digit_cases d; exact H.
Qed.

Lemma tenths_nonneg m e : 0 <= tenths m e.
Proof.
  unfold tenths. destruct (0 <=? e) eqn:E.
  - apply Z.leb_le in E. apply Z.mul_nonneg_nonneg; [lia|]. apply Z.pow_nonneg; lia.
  - apply Z.leb_gt in E. apply Z.div_pos.
    + pose proof (Z.pow_nonneg 2 (- e) ltac:(lia)). lia.
    + apply Z.pow_pos_nonneg; lia.
Qed.

(** [parseFloat(x.toFixed(1))] for a finite non-zero [x]: the double
    nearest to [tenths / 10], with the sign of [x]. *)
Lemma parseFloat_toFixed_1_finite x s m e :
  Prim2SF x = S754_finite s m e ->
  parseFloat (toFixed_1 x) = RoundMV s (tenths m e) (-1).
Proof.
  intros E. unfold toFixed_1. rewrite E.
  pose proof (tenths_nonneg m e) as Hn.
  rewrite parseFloat_one_decimal.
  - f_equal. pose proof (Z.div_mod (tenths m e) 10 ltac:(lia)). lia.
  - apply Z.div_pos; lia.
  - pose proof (Z.mod_pos_bound (tenths m e) 10 ltac:(lia)). lia.
Qed.

Lemma number_of_Z_nonneg n : 0 <= n -> SFClass.nonneg (Prim2SF (number_of_Z n)).
Proof.
  intros Hn. destruct n as [|p|p]; try lia.
  - exact I.
  - apply Binary64.sign_is_nonneg, Binary64.of_uint63_sign.
Qed.

Lemma Math_round_nonneg x :
  SFClass.nonneg (Prim2SF x) -> SFClass.nonneg (Prim2SF (Math_round x)).
Proof.
  intros H. unfold Math_round.
  destruct (Prim2SF x) as [s|s| |s m e] eqn:E; try (rewrite E; exact H).
  destruct (0 <=? e) eqn:He; [rewrite E; exact H|].
  simpl in H. subst s. cbn [cond_Zopp signed].
  apply Z.leb_gt in He.
  assert (0 <= (2 * Z.pos m + 2 ^ (- e)) / 2 ^ (1 - e)) as Hn.
  { apply Z.div_pos; [|apply Z.pow_pos_nonneg; lia].
    pose proof (Z.pow_nonneg 2 (- e) ltac:(lia)). lia. }
  destruct (_ =? 0); [exact I|]. now apply number_of_Z_nonneg.
Qed.

Lemma Math_round_nan x : Prim2SF x = S754_nan -> Math_round x = x.
Proof. intros E. unfold Math_round. now rewrite E. Qed.

Lemma RoundMV_sign neg mant e10 :
  0 <= mant -> SFClass.sign_is neg (Prim2SF (RoundMV neg mant e10)).
Proof.
  intros H. unfold RoundMV. destruct mant as [|m|m]; try lia.
  - destruct neg; reflexivity.
  - apply Binary64.SF2Prim_sign.
    pose proof (Binary64.SFdiv_finite_sign false
                  (m * Z.to_pos (10 ^ Z.max e10 0)) 0 false
                  (Z.to_pos (10 ^ Z.max (- e10) 0)) 0) as Hq.
    cbn [xorb] in Hq. destruct neg; [|exact Hq].
    now apply (Binary64.SFopp_sign false).
Qed.

(** Rounding a non-negative number to one decimal gives a non-negative
    number. *)
Lemma parseFloat_toFixed_1_nonneg x :
  SFClass.sign_is false (Prim2SF x) ->
  SFClass.nonneg (Prim2SF (parseFloat (toFixed_1 x))).
Proof.
  intros H. destruct (Prim2SF x) as [s|s| |s m e] eqn:E; simpl in H;
    try tauto; subst s.
  - unfold toFixed_1. rewrite E. exact I.
  - unfold toFixed_1. rewrite E. reflexivity.
  - rewrite (parseFloat_toFixed_1_finite x false m e E).
    apply Binary64.sign_is_nonneg, RoundMV_sign, tenths_nonneg.
Qed.

(** *** Integers as doubles *)

Lemma Prim2SF_number_of_pos p :
  Zpos p < 2 ^ 53 ->
  exists mz,
    Zpos mz = Zpos p * 2 ^ (52 - Z.log2 (Zpos p)) /\
    Prim2SF (number_of_Z (Zpos p)) = S754_finite false mz (Z.log2 (Zpos p) - 52).
Proof.
  intros Hp. unfold number_of_Z. rewrite of_uint63_spec, Uint63.of_Z_spec.
  rewrite Z.mod_small by (change Uint63.wB with (2 ^ 63); split; [lia|];
    eapply Z.lt_trans; [exact Hp|reflexivity]).
  cbn [binary_normalize]. now apply Binary64.binary_round_integer.
Qed.

Lemma to_index_number_of_Z k :
  0 <= k < 2 ^ 53 -> to_index (number_of_Z k) = Some (Z.to_nat k).
Proof.
  intros Hk. destruct k as [|p|p]; try lia; [reflexivity|].
  destruct (Prim2SF_number_of_pos p ltac:(lia)) as (mz & Hmz & E).
  unfold to_index. rewrite E.
  pose proof (Z.log2_nonneg (Zpos p)) as L0.
  assert (Z.log2 (Zpos p) < 53) as L1 by (apply Z.log2_lt_pow2; lia).
  destruct (Z.leb_spec 0 (Z.log2 (Zpos p) - 52)) as [H|H].
  - assert (Z.log2 (Zpos p) = 52) as L by lia. rewrite L in *.
    do 2 f_equal. change (52 - 52) with 0 in *. change (2 ^ 0) with 1 in *. lia.
  - replace (- (Z.log2 (Zpos p) - 52)) with (52 - Z.log2 (Zpos p)) by lia.
    rewrite Hmz, Z.mod_mul, Z.div_mul by (apply Z.pow_nonzero; lia).
    reflexivity.
Qed.

Lemma get_number_of_Z {A} (l : list A) k :
  0 <= k < 2 ^ 53 -> get l (number_of_Z k) = nth_error l (Z.to_nat k).
Proof. intros H. unfold get. now rewrite to_index_number_of_Z. Qed.

Lemma get_neg_zero {A} (l : list A) x :
  Prim2SF x = S754_zero true -> get l x = nth_error l O.
Proof. intros E. unfold get, to_index. now rewrite E. Qed.

Lemma Prim2SF_one : Prim2SF 1 = S754_finite false 4503599627370496 (-52).
Proof. reflexivity. Qed.

(** A number in [[0, 1)] is a zero or a positive finite double whose
    exponent is below -52. *)
Lemma unit_interval r :
  (0 <=? r)%float = true -> (r <? 1)%float = true ->
  (exists s, Prim2SF r = S754_zero s) \/
  (exists m e, Prim2SF r = S754_finite false m e
               /\ canonical_mantissa prec emax m e = true
               /\ e < 0 /\ Zpos m < 2 ^ (- e)).
Proof.
  intros H0 H1. apply Binary64.leb_zero_iff in H0.
  rewrite ltb_spec, Prim2SF_one in H1.
  pose proof (Prim2SF_valid r) as V.
  destruct (Prim2SF r) as [s|s| |s m e]; simpl in H0; try tauto.
  - left. now exists s.
  - subst s. discriminate.
  - subst s. right. exists m, e. split; [reflexivity|].
    apply Binary64.valid_finite in V. split; [exact V|].
    destruct (Binary64.canonical_bounds m e V) as (A & B & C).
    assert (e < -52) as He.
    { destruct (Z.lt_ge_cases e (-52)) as [|Hge]; [assumption|exfalso].
      unfold SFltb in H1.
      rewrite (Binary64.SFcompare_finite false m e false 4503599627370496 (-52) V eq_refl)
        in H1.
      cbn [cond_Zopp] in H1. rewrite Z.min_r, Z.sub_diag in H1 by lia.
      pose proof (Z.pow_pos_nonneg 2 (e - -52) ltac:(lia) ltac:(lia)) as Hp.
      specialize (C ltac:(lia)). change (2 ^ 52) with 4503599627370496 in C.
      destruct (Z.compare_spec (Z.pos m * 2 ^ (e - -52)) (4503599627370496 * 2 ^ 0));
        try discriminate.
      change (2 ^ 0) with 1 in *. nia. }
    split; [lia|]. eapply Z.lt_le_trans; [exact B|].
    apply Z.pow_le_mono_r; lia.
Qed.

(** [Math.floor(Math.random() * n)] is an index below [n]: for [r] in
    [[0, 1)] and an integer [n] from 1 to [2^52 - 1], the floor of the
    double product is one of the integers [0 .. n - 1] (or [-0], when
    [r] is [-0]). *)
Lemma random_index r n :
  (0 <=? r)%float = true -> (r <? 1)%float = true ->
  1 <= n < 2 ^ 52 ->
  Prim2SF (Math_floor (r * number_of_Z n)%float) = S754_zero true \/
  exists k, 0 <= k < n /\ Math_floor (r * number_of_Z n)%float = number_of_Z k.
Proof.
  intros H0 H1 Hn.
  destruct n as [|p|p]; try lia.
  destruct (Prim2SF_number_of_pos p) as (mc & Hmc & Ec).
  { eapply Z.lt_trans; [apply Hn|reflexivity]. }
  pose proof (Z.log2_nonneg (Zpos p)) as L0.
  assert (Z.log2 (Zpos p) < 52) as L1 by (apply Z.log2_lt_pow2; lia).
  destruct (Z.log2_spec (Zpos p) ltac:(lia)) as [L2 L3].
  pose proof (Prim2SF_valid (r * number_of_Z (Zpos p))%float) as V.
  unfold Math_floor. rewrite mul_spec, Ec in *.
  assert (forall x, Prim2SF x = S754_zero false -> x = number_of_Z 0) as Hz.
  { intros x Hx. apply Prim2SF_inj. now rewrite Hx. }
  destruct (unit_interval r H0 H1) as [[s E]|(m & e & E & Hc & He & Hm)];
    rewrite E in *.
  - cbn [SF64mul SFmul].
    assert (Prim2SF (r * number_of_Z (Zpos p))%float = S754_zero s) as Hm.
    { rewrite mul_spec, E, Ec. cbn [SF64mul SFmul]. now rewrite xorb_false_r. }
    destruct s; [left; exact Hm|].
    right. exists 0. split; [lia|]. apply Hz. exact Hm.
  - unfold SF64mul in *.
    destruct (Binary64.SFmul_below m e mc (Z.log2 (Zpos p) - 52) (Zpos p) Hc He Hm)
      as [Ez|(M & E' & Ef & HE' & Hlt)].
    + rewrite Hmc. split.
      * replace 52 with (Z.log2 (Zpos p) + (52 - Z.log2 (Zpos p))) at 1 by lia.
        rewrite Z.pow_add_r by lia.
        apply Z.mul_le_mono_nonneg_r; [apply Z.pow_nonneg; lia|lia].
      * replace 53 with (Z.succ (Z.log2 (Zpos p)) + (52 - Z.log2 (Zpos p))) by lia.
        rewrite Z.pow_add_r by lia.
        apply Z.mul_lt_mono_pos_r; [apply Z.pow_pos_nonneg; lia|lia].
    + lia.
    + rewrite Hmc. f_equal. f_equal. lia.
    + exact V.
    + rewrite Ez. right. exists 0. split; [lia|]. apply Hz.
      now rewrite mul_spec, E, Ec.
    + rewrite Ef. right.
      replace (0 <=? E') with false by (symmetry; apply Z.leb_gt; lia).
      cbn [cond_Zopp]. exists (Zpos M / 2 ^ (- E')). split; [|reflexivity].
      split; [|exact Hlt]. apply Z.div_pos; [lia|]. apply Z.pow_pos_nonneg; lia.
Qed.

(** Drawing from a non-empty array with
    [array[Math.floor(Math.random() * array.length)]] gives one of its
    elements. *)
Lemma random_element {A} (l : list A) r :
  (0 <=? r)%float = true -> (r <? 1)%float = true ->
  l <> [] -> Z.of_nat (List.length l) < 2 ^ 52 ->
  exists x, get l (Math_floor (r * length l)%float) = Some x /\ In x l.
Proof.
  intros H0 H1 Hl Hlen. unfold length.
  assert (1 <= Z.of_nat (List.length l)) as Hn by (destruct l; [congruence|cbn; lia]).
  destruct (random_index r (Z.of_nat (List.length l)) H0 H1 ltac:(lia))
    as [Hz|(k & Hk & ->)].
  - rewrite (get_neg_zero l _ Hz). destruct l as [|x l]; [congruence|].
    exists x. split; [reflexivity|now left].
  - rewrite get_number_of_Z by lia.
    destruct (nth_error l (Z.to_nat k)) as [x|] eqn:E.
    + exists x. split; [reflexivity|]. eapply nth_error_In; eassumption.
    + apply nth_error_None in E. lia.
Qed.

(** The integers from 0 to [n - 1]. *)
Lemma in_range n k : 0 <= k < Z.of_nat n -> In k (map Z.of_nat (seq 0 n)).
Proof.
  intros H. apply in_map_iff. exists (Z.to_nat k). split; [lia|].
  apply in_seq. lia.
Qed.

(** *** Rounding, against the exact value *)

Lemma exact_finite x s m e :
  Prim2SF x = S754_finite s m e ->
  exists q, exact x = Some q /\
    (q == Qmake (cond_Zopp s (Zpos m * 2 ^ Z.max e 0)) (Z.to_pos (2 ^ Z.max (- e) 0)))%Q.
Proof.
  intros E. unfold exact, exact_SF. rewrite E.
  destruct (Z.leb_spec 0 e) as [H|H]; eexists; (split; [reflexivity|]).
  - rewrite Z.max_l, Z.max_r by lia. change (Z.to_pos (2 ^ 0)) with 1%positive.
    unfold inject_Z. destruct s; cbn [cond_Zopp]; unfold Qeq; cbn [Qnum Qden]; lia.
  - rewrite Z.max_r, Z.max_l, Z.mul_1_r by lia. apply Qred_correct.
Qed.

Lemma Qfloor_half (N : Z) (D : positive) :
  Qfloor (Qmake N D + (1 # 2)) = (2 * N + Zpos D) / (2 * Zpos D).
Proof.
  unfold Qplus, Qfloor. cbn [Qnum Qden]. f_equal; lia.
Qed.

Lemma Qfloor_tenths_half (N : Z) (D : positive) :
  Qfloor (10 * Qmake N D + (1 # 2)) = (20 * N + Zpos D) / (2 * Zpos D).
Proof.
  unfold Qmult, Qplus, Qfloor. cbn [Qnum Qden]. f_equal; lia.
Qed.

Lemma tenths_fraction m e :
  tenths m e =
  (20 * (Zpos m * 2 ^ Z.max e 0) + Zpos (Z.to_pos (2 ^ Z.max (- e) 0)))
  / (2 * Zpos (Z.to_pos (2 ^ Z.max (- e) 0))).
Proof.
  unfold tenths. destruct (Z.leb_spec 0 e) as [H|H].
  - rewrite Z.max_l, Z.max_r by lia. change (Z.pos (Z.to_pos (2 ^ 0))) with 1.
    apply Z.div_unique with 1; [lia|ring].
  - rewrite Z.max_r, Z.max_l, Z.mul_1_r by lia.
    pose proof (Z.pow_pos_nonneg 2 (- e) ltac:(lia) ltac:(lia)).
    rewrite Z2Pos.id by lia. f_equal.
    replace (1 - e) with (Z.succ (- e)) by lia. now rewrite Z.pow_succ_r by lia.
Qed.

Lemma round1_half_away_compat q q' :
  (q == q')%Q -> Spec.round1_half_away q = Spec.round1_half_away q'.
Proof.
  intros H. unfold Spec.round1_half_away, Spec.round_half_away.
  assert (Qle_bool 0 q = Qle_bool 0 q') as E1.
  { apply eq_true_iff_eq. rewrite !Qle_bool_iff. now rewrite H. }
  assert (Qle_bool 0 (10 * q) = Qle_bool 0 (10 * q')) as E2.
  { apply eq_true_iff_eq. rewrite !Qle_bool_iff. now rewrite H. }
  rewrite E1, E2.
  assert (Qfloor (10 * q + (1 # 2)) = Qfloor (10 * q' + (1 # 2))) as ->
    by (apply Qfloor_comp; now rewrite H).
  assert (Qfloor (- (10 * q) + (1 # 2)) = Qfloor (- (10 * q') + (1 # 2))) as ->
    by (apply Qfloor_comp; now rewrite H).
  reflexivity.
Qed.

(** [parseFloat(x.toFixed(1))] is the rounding of the exact value of
    the double [x], half away from zero, to one decimal. *)
Lemma parseFloat_toFixed_1_exact x q :
  exact x = Some q -> parseFloat (toFixed_1 x) = Spec.round1_half_away q.
Proof.
  unfold exact. destruct (Prim2SF x) as [s|s| |s m e] eqn:E; cbn [exact_SF];
    try discriminate.
  - intros [= <-]. unfold toFixed_1. rewrite E. reflexivity.
  - intros Hq.
    destruct (exact_finite x s m e E) as (q' & Hq' & Heq).
    unfold exact in Hq'. rewrite E in Hq'. cbn [exact_SF] in Hq'.
    assert (q' = q) by congruence. subst q'. clear Hq'.
    rewrite (parseFloat_toFixed_1_finite x s m e E).
    rewrite (round1_half_away_compat _ _ Heq).
    set (N := Zpos m * 2 ^ Z.max e 0).
    set (D := Z.to_pos (2 ^ Z.max (- e) 0)).
    assert (0 < N) as HN.
    { subst N. apply Z.mul_pos_pos; [lia|]. apply Z.pow_pos_nonneg; lia. }
    pose proof (tenths_nonneg m e) as Ht.
    rewrite (tenths_fraction m e) in Ht |- *. fold N D in Ht |- *.
    unfold Spec.round1_half_away, Spec.round_half_away.
    destruct s; cbn [cond_Zopp].
    + assert (Qle_bool 0 (Qmake (- N) D) = false) as ->.
      { apply not_true_iff_false. rewrite Qle_bool_iff. unfold Qle.
        cbn [Qnum Qden]. lia. }
      assert (Qle_bool 0 (10 * Qmake (- N) D) = false) as ->.
      { apply not_true_iff_false. rewrite Qle_bool_iff. unfold Qle, Qmult.
        cbn [Qnum Qden]. lia. }
      cbn [negb]. f_equal.
      assert (- (10 * Qmake (- N) D) + (1 # 2) == 10 * Qmake N D + (1 # 2))%Q as Hq2.
      { unfold Qeq, Qplus, Qmult, Qopp. cbn [Qnum Qden]. lia. }
      rewrite (Qfloor_comp _ _ Hq2), Qfloor_tenths_half. lia.
    + assert (Qle_bool 0 (Qmake N D) = true) as ->.
      { rewrite Qle_bool_iff. unfold Qle. cbn [Qnum Qden]. lia. }
      assert (Qle_bool 0 (10 * Qmake N D) = true) as ->.
      { rewrite Qle_bool_iff. unfold Qle, Qmult. cbn [Qnum Qden]. lia. }
      cbn [negb]. f_equal. rewrite Qfloor_tenths_half. lia.
Qed.

Lemma integer_value_number_of_Z n :
  - 2 ^ 53 < n < 2 ^ 53 -> integer_value (number_of_Z n) = Some n.
Proof.
  intros Hn.
  assert (forall p (s : bool) x, Zpos p < 2 ^ 53 ->
            Prim2SF x = (if s then SFopp else fun y => y) (Prim2SF (number_of_Z (Zpos p))) ->
            integer_value x = Some (cond_Zopp s (Zpos p))) as H.
  { intros p s x Hp Hx.
    destruct (Prim2SF_number_of_pos p Hp) as (mz & Hmz & E). rewrite E in Hx.
    assert (Prim2SF x = S754_finite s mz (Z.log2 (Zpos p) - 52)) as Ex
      by (rewrite Hx; destruct s; reflexivity).
    unfold integer_value. rewrite Ex.
    pose proof (Z.log2_nonneg (Zpos p)) as L0.
    assert (Z.log2 (Zpos p) < 53) as L1 by (apply Z.log2_lt_pow2; lia).
    destruct (Z.leb_spec 0 (Z.log2 (Zpos p) - 52)) as [H|H].
    - assert (Z.log2 (Zpos p) = 52) as L by lia. rewrite L in *.
      do 2 f_equal. change (52 - 52) with 0 in *. change (2 ^ 0) with 1 in *. lia.
    - replace (- (Z.log2 (Zpos p) - 52)) with (52 - Z.log2 (Zpos p)) by lia.
      rewrite Hmz, Z.mod_mul, Z.div_mul by (apply Z.pow_nonzero; lia).
      reflexivity. }
  destruct n as [|p|p].
  - reflexivity.
  - apply (H p false); [lia|reflexivity].
  - apply (H p true); [lia|]. unfold number_of_Z at 1. now rewrite opp_spec.
Qed.

(** [Math.round] is the rounding of the exact value of the double to
    the nearest integer, a tie going up. *)
Lemma Math_round_exact x q :
  exact x = Some q -> integer_value (Math_round x) = Some (Spec.round_half_up q).
Proof.
  unfold exact. pose proof (Prim2SF_valid x) as V.
  destruct (Prim2SF x) as [s|s| |s m e] eqn:E; cbn [exact_SF]; try discriminate.
  - intros [= <-]. unfold Math_round, integer_value. rewrite E, E. reflexivity.
  - intros Hq.
    destruct (exact_finite x s m e E) as (q' & Hq' & Heq).
    unfold exact in Hq'. rewrite E in Hq'. cbn [exact_SF] in Hq'.
    assert (q' = q) by congruence. subst q'. clear Hq'.
    unfold Spec.round_half_up.
    assert (Qfloor (q + (1 # 2)) =
            Qfloor (Qmake (cond_Zopp s (Z.pos m * 2 ^ Z.max e 0))
                          (Z.to_pos (2 ^ Z.max (- e) 0)) + (1 # 2))) as ->
      by (apply Qfloor_comp; now rewrite Heq).
    rewrite Qfloor_half. unfold Math_round. rewrite E.
    destruct (Z.leb_spec 0 e) as [He|He].
    + unfold integer_value. rewrite E.
      replace (0 <=? e) with true by (symmetry; apply Z.leb_le; lia).
      rewrite Z.max_l, Z.max_r by lia. change (Z.pos (Z.to_pos (2 ^ 0))) with 1.
      f_equal. apply Z.div_unique with 1; lia.
    + rewrite Z.max_r, Z.max_l, Z.mul_1_r by lia.
      pose proof (Z.pow_pos_nonneg 2 (- e) ltac:(lia) ltac:(lia)) as Hp.
      rewrite Z2Pos.id by lia.
      replace (1 - e) with (Z.succ (- e)) by lia. rewrite Z.pow_succ_r by lia.
      set (n := (2 * cond_Zopp s (Z.pos m) + 2 ^ (- e)) / (2 * 2 ^ (- e))).
      destruct (Z.eqb_spec n 0) as [Hz|Hnz].
      * rewrite Hz. unfold integer_value. destruct s; reflexivity.
      * apply integer_value_number_of_Z.
        apply Binary64.valid_finite, Binary64.canonical_bounds in V.
        destruct V as (_ & Hm & _).
        assert (2 ^ 1 <= 2 ^ (- e)) as Hp2 by (apply Z.pow_le_mono_r; lia).
        change (2 ^ 1) with 2 in Hp2.
        change (2 ^ 53) with 9007199254740992 in *.
        assert (- 4503599627370496 <= n <= 4503599627370496); [|lia].
        subst n. split.
        -- apply Z.div_le_lower_bound; [lia|]. destruct s; cbn [cond_Zopp]; nia.
        -- apply Z.div_le_upper_bound; [lia|]. destruct s; cbn [cond_Zopp]; nia.
Qed.

Lemma round_half_up_nonneg q :
  (0 <= q)%Q -> Spec.round_half_up q = Spec.round_half_away q.
Proof.
  intros H. unfold Spec.round_half_away, Spec.round_half_up.
  now rewrite (proj2 (Qle_bool_iff 0 q) H).
Qed.

(** *** The percentage of correct answers *)

(** The error the two roundings of [c / t * 100] can make, on integers:
    [A / Pa] stands for the quotient and [B / (Pa * 2 ^ 46)] for the
    product. *)
Lemma error_budget A B t c Pa :
  0 < t -> 0 <= c < 2 ^ 44 -> 0 < Pa -> 0 <= A ->
  2 ^ 53 * Z.abs (A * t - c * Pa) <= c * Pa ->
  2 ^ 53 * Z.abs (B - A * 7036874417766400) <= A * 7036874417766400 ->
  2 * Z.abs (t * B - 100 * c * (Pa * 2 ^ 46)) < Pa * 2 ^ 46.
Proof.
  intros Ht Hc HPa HA H1 H2.
  set (U := B - A * 7036874417766400) in *.
  set (V := A * t - c * Pa) in *.
  set (K := c * Pa) in *.
  assert (t * B - 100 * c * (Pa * 2 ^ 46) = t * U + 7036874417766400 * V) as ->
    by (subst U V K; ring).
  assert (Z.abs (t * U + 7036874417766400 * V)
          <= t * Z.abs U + 7036874417766400 * Z.abs V) as Htri.
  { eapply Z.le_trans; [apply Z.abs_triangle|].
    rewrite !Z.abs_mul, (Z.abs_eq t), (Z.abs_eq 7036874417766400) by lia. lia. }
  assert (A * t <= Z.abs V + K) as HAt by (subst V; lia).
  assert (0 <= K <= (2 ^ 44 - 1) * Pa) as HK by (subst K; nia).
  assert (2 ^ 53 * (t * Z.abs U) <= (A * t) * 7036874417766400) as HU.
  { replace (2 ^ 53 * (t * Z.abs U)) with (t * (2 ^ 53 * Z.abs U)) by ring.
    replace (A * t * 7036874417766400) with (t * (A * 7036874417766400)) by ring.
    apply Z.mul_le_mono_nonneg_l; lia. }
  set (aU := Z.abs U) in *. set (aV := Z.abs V) in *.
  set (At := A * t) in *. set (tU := t * aU) in *.
  lia.
Qed.

(** Rounding to the nearest integer survives an error below [1 / (2 t)],
    a halfway case apart. *)
Lemma round_agrees c t B P :
  0 < t -> 0 <= c -> 0 < P ->
  2 * Z.abs (t * B - 100 * c * P) < P ->
  let n := (2 * B + P) / (2 * P) in
  let R := (200 * c + t) / (2 * t) in
  n = R \/ ((200 * c + t) mod (2 * t) = 0 /\ n = R - 1).
Proof.
  intros Ht Hc HP Hb n R.
  pose proof (Z.div_mod (200 * c + t) (2 * t) ltac:(lia)) as Hdm.
  pose proof (Z.mod_pos_bound (200 * c + t) (2 * t) ltac:(lia)) as Hmb.
  fold R in Hdm. set (rho := (200 * c + t) mod (2 * t)) in *.
  assert (2 * t * B + t * P - (200 * c + t) * P < P /\
          (200 * c + t) * P - (2 * t * B + t * P) < P) as [Hu Hl] by lia.
  destruct (Z.eq_dec rho 0) as [E0|Hnz].
  - destruct (Z.le_gt_cases (2 * P * R) (2 * B + P)) as [Hge|Hlt].
    + left. subst n. symmetry. apply (Z.div_unique _ _ _ (2 * B + P - 2 * P * R)); [|ring].
      left. split; [lia|]. 
      assert (t * (2 * B + P - 2 * P * R) < t * (2 * P)); [|nia].
      nia.
    + right. split; [exact E0|]. subst n. symmetry.
      apply (Z.div_unique _ _ _ (2 * B + P - 2 * P * (R - 1))); [|ring].
      left. split; [|lia].
      assert (0 <= t * (2 * B + P - 2 * P * (R - 1))); [|nia].
      nia.
  - left. subst n. symmetry. apply (Z.div_unique _ _ _ (2 * B + P - 2 * P * R)); [|ring].
    left. split.
    + assert (0 <= t * (2 * B + P - 2 * P * R)); [|nia]. nia.
    + assert (t * (2 * B + P - 2 * P * R) < t * (2 * P)); [|nia]. nia.
Qed.

Lemma normalized_mantissa p :
  Zpos p < 2 ^ 53 ->
  2 ^ 52 <= Zpos p * 2 ^ (52 - Z.log2 (Zpos p)) < 2 ^ 53.
Proof.
  intros Hp.
  destruct (Z.log2_spec (Zpos p) ltac:(lia)) as [L1 L2].
  pose proof (Z.log2_nonneg (Zpos p)) as L0.
  assert (Z.log2 (Zpos p) < 53) as L53 by (apply Z.log2_lt_pow2; lia).
  set (l := Z.log2 (Zpos p)) in *.
  assert (2 ^ 52 = 2 ^ l * 2 ^ (52 - l)) as E52
    by (rewrite <- Z.pow_add_r by lia; f_equal; lia).
  assert (2 ^ 53 = 2 ^ Z.succ l * 2 ^ (52 - l)) as E53
    by (rewrite <- Z.pow_add_r by lia; f_equal; lia).
  pose proof (Z.pow_pos_nonneg 2 (52 - l) ltac:(lia) ltac:(lia)) as Hpos.
  rewrite E52, E53. split.
  - apply Z.mul_le_mono_nonneg_r; lia.
  - apply Z.mul_lt_mono_pos_r; lia.
Qed.

Lemma Prim2SF_hundred : Prim2SF 100 = S754_finite false 7036874417766400 (-46).
Proof. reflexivity. Qed.

(** The double [c / t * 100], then [Math.round]: the result is the
    integer nearest to a value [B / 2 ^ L] within [1 / (2 t)] of
    [100 c / t]. *)
Lemma Math_round_percentage (c t : positive) :
  Zpos c < 2 ^ 44 -> Zpos t < 2 ^ 53 ->
  exists B L,
    0 <= L /\
    2 * Z.abs (Zpos t * B - 100 * Zpos c * 2 ^ L) < 2 ^ L /\
    Math_round (number_of_Z (Zpos c) / number_of_Z (Zpos t) * 100)%float
    = number_of_Z ((2 * B + 2 ^ L) / (2 * 2 ^ L)).
Proof.
  intros Hc Ht.
  destruct (Prim2SF_number_of_pos c ltac:(lia)) as (mc & Hmc & Ec).
  destruct (Prim2SF_number_of_pos t Ht) as (mt & Hmt & Et).
  pose proof (normalized_mantissa c ltac:(lia)) as Nc. rewrite <- Hmc in Nc.
  pose proof (normalized_mantissa t Ht) as Nt. rewrite <- Hmt in Nt.
  pose proof (Z.log2_nonneg (Zpos c)) as Lc0.
  pose proof (Z.log2_nonneg (Zpos t)) as Lt0.
  assert (Z.log2 (Zpos c) < 44) as Lc1 by (apply Z.log2_lt_pow2; lia).
  assert (Z.log2 (Zpos t) < 53) as Lt1 by (apply Z.log2_lt_pow2; lia).
  set (lc := Z.log2 (Zpos c)) in *. set (lt := Z.log2 (Zpos t)) in *.
  (* the quotient *)
  destruct (Binary64.SFdiv_relative mc (lc - 52) mt (lt - 52) Nc Nt ltac:(lia))
    as (MX & EX & Ediv & HEX & Hb1).
  set (X := (number_of_Z (Zpos c) / number_of_Z (Zpos t))%float).
  assert (Prim2SF X = S754_finite false MX EX) as EqX
    by (subst X; rewrite div_spec, Ec, Et; exact Ediv).
  pose proof (Prim2SF_valid X) as VX. rewrite EqX in VX.
  apply Binary64.valid_finite, Binary64.canonical_bounds in VX. destruct VX as (_ & VX & _).
  (* the product *)
  destruct (Binary64.SFmul_relative MX EX 7036874417766400 (-46) VX ltac:(lia) ltac:(lia))
    as (MY & EY & Emul & HEY & Hb2).
  set (Y := (X * 100)%float).
  assert (Prim2SF Y = S754_finite false MY EY) as EqY
    by (subst Y; rewrite mul_spec, EqX, Prim2SF_hundred; exact Emul).
  pose proof (Prim2SF_valid Y) as VY. rewrite EqY in VY.
  apply Binary64.valid_finite, Binary64.canonical_bounds in VY. destruct VY as (_ & _ & VY).
  (* on integers *)
  set (a := 53 + lt - lc) in *.
  replace (lc - 52 - (lt - 52) - 53) with (- a) in Hb1, HEX by lia.
  replace (EX - - a) with (EX + a) in Hb1 by lia.
  set (A := Zpos MX * 2 ^ (EX + a)) in *.
  set (B := Zpos MY * 2 ^ (EY + 46 + a)).
  pose proof (Z.pow_pos_nonneg 2 a ltac:(lia) ltac:(lia)) as HPa.
  pose proof (Z.pow_pos_nonneg 2 (EX + a) ltac:(lia) ltac:(lia)) as HPg.
  pose proof (Z.pow_pos_nonneg 2 (52 - lt) ltac:(lia) ltac:(lia)) as HPu.
  assert (0 <= A) as HA by (subst A; apply Z.mul_nonneg_nonneg; lia).
  assert (2 ^ 53 * Z.abs (A * Zpos t - Zpos c * 2 ^ a) <= Zpos c * 2 ^ a) as H1.
  { assert (Zpos mc * 2 ^ 53 = Zpos c * 2 ^ a * 2 ^ (52 - lt)) as E1.
    { rewrite Hmc, <- !Z.mul_assoc, <- !Z.pow_add_r by lia. do 2 f_equal. lia. }
    assert (A * Zpos mt - Zpos mc * 2 ^ 53
            = (A * Zpos t - Zpos c * 2 ^ a) * 2 ^ (52 - lt)) as E2
      by (rewrite E1, Hmt; ring).
    rewrite E2, E1, Z.abs_mul, (Z.abs_eq (2 ^ (52 - lt))), Z.mul_assoc in Hb1 by lia.
    apply Z.mul_le_mono_pos_r in Hb1; [exact Hb1|exact HPu]. }
  assert (2 ^ 53 * Z.abs (B - A * 7036874417766400) <= A * 7036874417766400) as H2.
  { assert (B = Zpos MY * 2 ^ (EY - (EX + -46)) * 2 ^ (EX + a)) as EB.
    { subst B. rewrite <- Z.mul_assoc, <- Z.pow_add_r by lia. do 2 f_equal. lia. }
    assert (B - A * 7036874417766400
            = (Zpos MY * 2 ^ (EY - (EX + -46)) - Zpos MX * 7036874417766400)
              * 2 ^ (EX + a)) as E2 by (rewrite EB; subst A; ring).
    rewrite E2, Z.abs_mul, (Z.abs_eq (2 ^ (EX + a))), Z.mul_assoc by lia.
    replace (A * 7036874417766400)
      with (Zpos MX * 7036874417766400 * 2 ^ (EX + a)) by (subst A; ring).
    apply Z.mul_le_mono_nonneg_r; [lia|exact Hb2]. }
  pose proof (error_budget A B (Zpos t) (Zpos c) (2 ^ a)
                ltac:(lia) ltac:(lia) HPa HA H1 H2) as Herr.
  rewrite <- Z.pow_add_r in Herr by lia.
  exists B, (a + 46). split; [lia|]. split; [exact Herr|].
  (* the exponent of the product is negative *)
  pose proof (Z.pow_pos_nonneg 2 (a + 46) ltac:(lia) ltac:(lia)) as HPL.
  assert (EY < 0) as HEYneg.
  { destruct (Z.lt_ge_cases EY 0) as [Hlt|Hge]; [exact Hlt|exfalso].
    specialize (VY ltac:(lia)).
    assert (2 ^ (a + 46) <= 2 ^ (EY + 46 + a)) by (apply Z.pow_le_mono_r; lia).
    assert (2 ^ 52 * 2 ^ (a + 46) <= B)
      by (subst B; apply Z.mul_le_mono_nonneg; lia).
    assert (1 * B <= Zpos t * B) by (apply Z.mul_le_mono_nonneg_r; lia).
    assert (100 * Z.pos c * 2 ^ (a + 46) <= 100 * 2 ^ 44 * 2 ^ (a + 46))
      by (apply Z.mul_le_mono_nonneg_r; lia).
    lia. }
  fold X. fold Y. unfold Math_round. rewrite EqY.
  replace (0 <=? EY) with false by (symmetry; apply Z.leb_gt; exact HEYneg).
  cbn [cond_Zopp].
  assert ((2 * Z.pos MY + 2 ^ (- EY)) / 2 ^ (1 - EY)
          = (2 * B + 2 ^ (a + 46)) / (2 * 2 ^ (a + 46))) as ->.
  { pose proof (Z.pow_pos_nonneg 2 (EY + 46 + a) ltac:(lia) ltac:(lia)) as HPs.
    assert (2 * B + 2 ^ (a + 46)
            = (2 * Z.pos MY + 2 ^ (- EY)) * 2 ^ (EY + 46 + a)) as ->.
    { subst B. rewrite Z.mul_add_distr_r, <- Z.pow_add_r by lia.
      replace (- EY + (EY + 46 + a)) with (a + 46) by lia. ring. }
    assert (2 * 2 ^ (a + 46) = 2 ^ (1 - EY) * 2 ^ (EY + 46 + a)) as ->.
    { rewrite <- Z.pow_add_r by lia.
      replace (1 - EY + (EY + 46 + a)) with (Z.succ (a + 46)) by lia.
      rewrite Z.pow_succ_r by lia. reflexivity. }
    rewrite Z.div_mul_cancel_r; [reflexivity| |lia].
    apply Z.pow_nonzero; lia. }
  destruct (Z.eqb_spec ((2 * B + 2 ^ (a + 46)) / (2 * 2 ^ (a + 46))) 0) as [->|_];
    reflexivity.
Qed.

(** *** One decimal, read back *)

(** The double nearest to [n / 10]: an infinity, or [M * 2 ^ E] within
    a relative error of [2 ^ -53]. *)
Lemma RoundMV_tenth (s : bool) (n : positive) :
  Prim2SF (RoundMV s (Zpos n) (-1)) = S754_infinity s \/
  exists M E sh,
    0 <= sh <= 56 /\ - sh <= E /\
    2 ^ 52 <= Zpos M < 2 ^ 53 /\
    2 ^ 53 * Z.abs (Zpos M * 2 ^ (E + sh) * 10 - Zpos n * 2 ^ sh) <= Zpos n * 2 ^ sh /\
    Prim2SF (RoundMV s (Zpos n) (-1)) = S754_finite s M E.
Proof.
  unfold RoundMV. change (Z.max (-1) 0) with 0. change (Z.max (- -1) 0) with 1.
  change (Z.to_pos (10 ^ 0)) with 1%positive. change (Z.to_pos (10 ^ 1)) with 10%positive.
  rewrite Pos.mul_1_r.
  destruct (Binary64.SFdiv_tenth n) as (M & E & sh & Hsh & HE & HM & Hc & Hb & ->).
  destruct (Z.leb_spec E (emax - prec)) as [Hle|Hgt].
  - right. exists M, E, sh. repeat (split; [assumption|]).
    assert (Prim2SF (SF2Prim (S754_finite s M E)) = S754_finite s M E) as Hv.
    { apply Prim2SF_SF2Prim. unfold FloatAxioms.valid_binary, SpecFloat.valid_binary, bounded.
      rewrite Hc. apply Z.leb_le in Hle. rewrite Hle. reflexivity. }
    destruct s; exact Hv.
  - left. destruct s; reflexivity.
Qed.

(** Such a double, when below [2 ^ 52] tenths, has [n] tenths. *)
Lemma tenths_exact (n M : positive) E sh :
  0 <= sh -> - sh <= E -> 2 ^ 52 <= Zpos M ->
  2 ^ 53 * Z.abs (Zpos M * 2 ^ (E + sh) * 10 - Zpos n * 2 ^ sh) <= Zpos n * 2 ^ sh ->
  Zpos n < 2 ^ 52 ->
  tenths M E = Zpos n.
Proof.
  intros Hsh HE HM Hb Hn.
  pose proof (Z.pow_pos_nonneg 2 sh ltac:(lia) Hsh) as HP.
  pose proof (Z.pow_pos_nonneg 2 (E + sh) ltac:(lia) ltac:(lia)) as HQ.
  set (A := Zpos M * 2 ^ (E + sh)) in *. set (P := 2 ^ sh) in *.
  assert (Zpos n * P < 2 ^ 52 * P) as HnP by (apply Z.mul_lt_mono_pos_r; lia).
  assert (E < 0) as Hneg.
  { destruct (Z.lt_ge_cases E 0) as [|Hge]; [assumption|exfalso].
    assert (P <= 2 ^ (E + sh)) by (subst P; apply Z.pow_le_mono_r; lia).
    assert (2 ^ 52 * P <= A) by (subst A; apply Z.mul_le_mono_nonneg; lia).
    lia. }
  unfold tenths. replace (0 <=? E) with false by (symmetry; apply Z.leb_gt; exact Hneg).
  assert (20 * Zpos M + 2 ^ (- E) = (20 * Zpos M + 2 ^ (- E)) * 1) as E1 by ring.
  rewrite <- (Z.div_mul_cancel_r _ _ (2 ^ (E + sh))) by (try apply Z.pow_nonzero; lia).
  assert ((20 * Z.pos M + 2 ^ (- E)) * 2 ^ (E + sh) = 20 * A + P) as ->.
  { subst A P. rewrite Z.mul_add_distr_r, <- Z.pow_add_r by lia.
    replace (- E + (E + sh)) with sh by lia. ring. }
  assert (2 ^ (1 - E) * 2 ^ (E + sh) = 2 * P) as ->.
  { subst P. rewrite <- Z.pow_add_r by lia.
    replace (1 - E + (E + sh)) with (Z.succ sh) by lia. now rewrite Z.pow_succ_r. }
  symmetry. apply (Z.div_unique _ _ _ (20 * A + P - Zpos n * (2 * P))); [|ring].
  left. lia.
Qed.

(** In any case it has at least one tenth. *)
Lemma tenths_positive (n M : positive) E sh :
  0 <= sh -> - sh <= E ->
  2 ^ 53 * Z.abs (Zpos M * 2 ^ (E + sh) * 10 - Zpos n * 2 ^ sh) <= Zpos n * 2 ^ sh ->
  1 <= tenths M E.
Proof.
  intros Hsh HE Hb.
  pose proof (Z.pow_pos_nonneg 2 sh ltac:(lia) Hsh) as HP.
  pose proof (Z.pow_pos_nonneg 2 (E + sh) ltac:(lia) ltac:(lia)) as HQ.
  unfold tenths. destruct (Z.leb_spec 0 E) as [Hge|Hneg].
  - pose proof (Z.pow_pos_nonneg 2 E ltac:(lia) Hge). nia.
  - set (A := Zpos M * 2 ^ (E + sh)) in *. set (P := 2 ^ sh) in *.
    rewrite <- (Z.div_mul_cancel_r _ _ (2 ^ (E + sh))) by (try apply Z.pow_nonzero; lia).
    assert ((20 * Z.pos M + 2 ^ (- E)) * 2 ^ (E + sh) = 20 * A + P) as ->.
    { subst A P. rewrite Z.mul_add_distr_r, <- Z.pow_add_r by lia.
      replace (- E + (E + sh)) with sh by lia. ring. }
    assert (2 ^ (1 - E) * 2 ^ (E + sh) = 2 * P) as ->.
    { subst P. rewrite <- Z.pow_add_r by lia.
      replace (1 - E + (E + sh)) with (Z.succ sh) by lia. now rewrite Z.pow_succ_r. }
    apply Z.div_le_lower_bound; [lia|].
    assert (P <= Zpos n * P) by (apply (Z.le_trans _ (1 * P)); [lia|apply Z.mul_le_mono_nonneg_r; lia]).
    lia.
Qed.

Lemma ToBoolean_spec z :
  ToBoolean z = true <->
  (exists s, Prim2SF z = S754_infinity s) \/ (exists s m e, Prim2SF z = S754_finite s m e).
Proof.
  unfold ToBoolean. rewrite negb_true_iff, orb_false_iff.
  pose proof (Binary64.is_zero_spec z) as Hz. pose proof (Binary64.is_nan_spec z) as Hn.
  destruct (Prim2SF z) as [s|s| |s m e] eqn:E; split.
  - intros [H _]. rewrite (proj2 Hz (ex_intro _ s eq_refl)) in H. discriminate.
  - intros [[s' H]|(s' & m & e & H)]; discriminate.
  - intros _. left. now exists s.
  - intros _. split.
    + destruct (PrimFloat.is_zero z); [|reflexivity].
      destruct (proj1 Hz eq_refl) as [s' H]. discriminate.
    + destruct (PrimFloat.is_nan z); [|reflexivity].
      pose proof (proj1 Hn eq_refl). discriminate.
  - intros [_ H]. rewrite (proj2 Hn eq_refl) in H. discriminate.
  - intros [[s' H]|(s' & m & e & H)]; discriminate.
  - intros _. right. now exists s, m, e.
  - intros _. split.
    + destruct (PrimFloat.is_zero z); [|reflexivity].
      destruct (proj1 Hz eq_refl) as [s' H]. discriminate.
    + destruct (PrimFloat.is_nan z); [|reflexivity].
      pose proof (proj1 Hn eq_refl). discriminate.
Qed.

Lemma Prim2SF_pow48 :
  Prim2SF 281474976710656 = S754_finite false 4503599627370496 (-4).
Proof. reflexivity. Qed.

(** A double of 53 bits below [2 ^ 48] in magnitude, on integers. *)
Lemma abs_below_pow48 y s M E sh :
  Prim2SF y = S754_finite s M E ->
  (abs y <? 281474976710656)%float = true ->
  2 ^ 52 <= Zpos M -> 0 <= E + sh ->
  Zpos M * 2 ^ (E + sh) < 2 ^ 48 * 2 ^ sh.
Proof.
  intros Hy Hlt HM Hsh.
  pose proof (Prim2SF_valid y) as V. rewrite Hy in V. apply Binary64.valid_finite in V.
  rewrite ltb_spec, abs_spec, Hy, Prim2SF_pow48 in Hlt. cbn [SFabs] in Hlt.
  unfold SFltb in Hlt.
  rewrite (Binary64.SFcompare_finite false M E false 4503599627370496 (-4) V eq_refl) in Hlt.
  cbn [cond_Zopp] in Hlt.
  destruct (Z.compare_spec (Z.pos M * 2 ^ (E - Z.min E (-4)))
              (4503599627370496 * 2 ^ (-4 - Z.min E (-4)))) as [|Hc|]; try discriminate.
  change 4503599627370496 with (2 ^ 52) in Hc.
  destruct (Z.le_gt_cases (-4) E) as [Hge|Hlt4].
  - exfalso. rewrite Z.min_r in Hc by lia. replace (-4 - -4) with 0 in Hc by lia.
    pose proof (Z.pow_pos_nonneg 2 (E - -4) ltac:(lia) ltac:(lia)).
    change (2 ^ 0) with 1 in Hc. nia.
  - rewrite Z.min_l, Z.sub_diag in Hc by lia. change (2 ^ 0) with 1 in Hc.
    rewrite Z.mul_1_r in Hc.
    replace (2 ^ 48 * 2 ^ sh) with (2 ^ 52 * 2 ^ (-4 - E) * 2 ^ (E + sh)).
    + apply Z.mul_lt_mono_pos_r; [apply Z.pow_pos_nonneg; lia|exact Hc].
    + rewrite <- !Z.pow_add_r by lia. f_equal. lia.
Qed.

(** [parseFloat(x.toFixed(1))] is a fixed point of that rounding: a
    number with one decimal, below [2 ^ 48], is written and read back
    as itself. *)
Lemma one_decimal_fixed_point x :
  let y := parseFloat (toFixed_1 x) in
  (abs y <? 281474976710656)%float = true ->
  (parseFloat (toFixed_1 y) =? y)%float = true /\ PrimFloat.is_finite y = true.
Proof.
  intros y. subst y.
  destruct (Prim2SF x) as [s|s| |s m e] eqn:Ex.
  - assert (toFixed_1 x = "0.0") as -> by (unfold toFixed_1; rewrite Ex; reflexivity).
    intros _. split; vm_compute; reflexivity.
  - assert (toFixed_1 x = (if s then "-" else "") ++ "Infinity") as ->
      by (unfold toFixed_1; rewrite Ex; reflexivity).
    destruct s; vm_compute; discriminate.
  - assert (toFixed_1 x = "NaN") as -> by (unfold toFixed_1; rewrite Ex; reflexivity).
    vm_compute. discriminate.
  - rewrite (parseFloat_toFixed_1_finite x s m e Ex).
    pose proof (tenths_nonneg m e) as Hn.
    destruct (tenths m e) as [|n|n] eqn:En; try lia.
    + intros _. destruct s; split; vm_compute; reflexivity.
    + intros Hlt.
      destruct (RoundMV_tenth s n) as [Hinf|(M & E & sh & Hsh & HE & HM & Hb & Hy)].
      * exfalso. rewrite ltb_spec, abs_spec, Hinf in Hlt. destruct s; discriminate.
      * pose proof (abs_below_pow48 _ s M E sh Hy Hlt ltac:(lia) ltac:(lia)) as HA.
        pose proof (Z.pow_pos_nonneg 2 sh ltac:(lia) ltac:(lia)) as HP.
        assert (Zpos n < 2 ^ 52) as Hn52.
        { set (A := Zpos M * 2 ^ (E + sh)) in *. set (P := 2 ^ sh) in *.
          assert (Zpos n * P < 2 ^ 52 * P) as HnP by lia.
          apply (Z.mul_lt_mono_pos_r P); assumption. }
        rewrite (parseFloat_toFixed_1_finite _ s M E Hy).
        rewrite (tenths_exact n M E sh) by (assumption || lia).
        split.
        -- rewrite FloatAxioms.eqb_spec, Hy.
           destruct (SFeqb (S754_finite s M E) (S754_finite s M E)) eqn:Hq; [reflexivity|].
           apply Binary64.SFeqb_refl_false in Hq. discriminate.
        -- apply Binary64.is_finite_iff. rewrite Hy. exact I.
Qed.

(** A number that is not zero keeps at least one tenth: written with
    one decimal and read back, it is still not zero. *)
Lemma one_decimal_truthy x :
  let y := parseFloat (toFixed_1 x) in
  ToBoolean y = true -> ToBoolean (parseFloat (toFixed_1 y)) = true.
Proof.
  intros y. subst y.
  destruct (Prim2SF x) as [s|s| |s m e] eqn:Ex.
  - assert (toFixed_1 x = "0.0") as -> by (unfold toFixed_1; rewrite Ex; reflexivity).
    vm_compute. discriminate.
  - assert (toFixed_1 x = (if s then "-" else "") ++ "Infinity") as ->
      by (unfold toFixed_1; rewrite Ex; reflexivity).
    intros _. destruct s; vm_compute; reflexivity.
  - assert (toFixed_1 x = "NaN") as -> by (unfold toFixed_1; rewrite Ex; reflexivity).
    vm_compute. discriminate.
  - rewrite (parseFloat_toFixed_1_finite x s m e Ex).
    pose proof (tenths_nonneg m e) as Hn.
    destruct (tenths m e) as [|n|n] eqn:En; try lia.
    + destruct s; vm_compute; discriminate.
    + intros _.
      destruct (RoundMV_tenth s n) as [Hinf|(M & E & sh & Hsh & HE & HM & Hb & Hy)].
      * assert (toFixed_1 (RoundMV s (Zpos n) (-1)) = (if s then "-" else "") ++ "Infinity")
          as -> by (unfold toFixed_1; rewrite Hinf; reflexivity).
        destruct s; vm_compute; reflexivity.
      * rewrite (parseFloat_toFixed_1_finite _ s M E Hy).
        pose proof (tenths_positive n M E sh ltac:(lia) HE Hb) as Hpos.
        destruct (tenths M E) as [|n'|n'] eqn:En'; try lia.
        apply ToBoolean_spec.
        destruct (RoundMV_tenth s n') as [Hinf|(M' & E' & sh' & _ & _ & _ & _ & Hy')].
        -- left. now exists s.
        -- right. now exists s, M', E'.
Qed.

(** Rounding to one decimal a number that is not negative gives a
    number that is not negative. *)
Lemma one_decimal_nonneg x :
  SFClass.nonneg (Prim2SF x) ->
  (0 <=? parseFloat (toFixed_1 x))%float = true.
Proof.
  intros H. apply Binary64.leb_zero_iff.
  destruct (Prim2SF x) as [s|s| |s m e] eqn:E; cbn [SFClass.nonneg] in H; try tauto.
  - assert (toFixed_1 x = "0.0") as -> by (unfold toFixed_1; rewrite E; reflexivity).
    exact I.
  - apply parseFloat_toFixed_1_nonneg. rewrite E. exact H.
  - apply parseFloat_toFixed_1_nonneg. rewrite E. exact H.
Qed.

(** *** The order of doubles, on exact values *)

Lemma Qle_bool_finite sx mx ex sy my ey :
  Qle_bool (Qmake (cond_Zopp sx (Zpos mx * 2 ^ Z.max ex 0)) (Z.to_pos (2 ^ Z.max (- ex) 0)))
           (Qmake (cond_Zopp sy (Zpos my * 2 ^ Z.max ey 0)) (Z.to_pos (2 ^ Z.max (- ey) 0)))
  = (cond_Zopp sx (Zpos mx * 2 ^ (ex - Z.min ex ey))
     <=? cond_Zopp sy (Zpos my * 2 ^ (ey - Z.min ex ey))).
Proof.
  apply eq_true_iff_eq. rewrite Qle_bool_iff, Z.leb_le. unfold Qle. cbn [Qnum Qden].
  assert (forall e, 0 < 2 ^ Z.max e 0) as Hpos by (intros; apply Z.pow_pos_nonneg; lia).
  rewrite !Z2Pos.id by apply Hpos.
  set (k := Z.max ex 0 + Z.max (- ey) 0 - (ex - Z.min ex ey)).
  assert (0 <= k) as Hk by lia.
  pose proof (Z.pow_pos_nonneg 2 k ltac:(lia) Hk) as HK.
  assert (2 ^ Z.max ex 0 * 2 ^ Z.max (- ey) 0 = 2 ^ (ex - Z.min ex ey) * 2 ^ k) as E1.
  { rewrite <- !Z.pow_add_r by lia. f_equal. lia. }
  assert (2 ^ Z.max ey 0 * 2 ^ Z.max (- ex) 0 = 2 ^ (ey - Z.min ex ey) * 2 ^ k) as E2.
  { rewrite <- !Z.pow_add_r by lia. f_equal. lia. }
  assert (forall s m a d, cond_Zopp s (Zpos m * a) * d = cond_Zopp s (Zpos m) * (a * d)) as Hc
    by (intros [] m a d; cbn [cond_Zopp]; ring).
  assert (forall s m a, cond_Zopp s (Zpos m * a) = cond_Zopp s (Zpos m) * a) as Hc'
    by (intros [] m a; cbn [cond_Zopp]; ring).
  rewrite !Hc, E1, E2, !(Hc' _ _ (2 ^ (_ - _))), !Z.mul_assoc.
  symmetry. apply Z.mul_le_mono_pos_r. exact HK.
Qed.

Lemma leb_exact x y qx qy :
  exact x = Some qx -> exact y = Some qy -> (x <=? y)%float = Qle_bool qx qy.
Proof.
  intros Hx Hy. rewrite leb_spec. unfold SFleb.
  pose proof (Prim2SF_valid x) as Vx. pose proof (Prim2SF_valid y) as Vy.
  unfold exact in Hx, Hy.
  destruct (Prim2SF x) as [sx|sx| |sx mx ex] eqn:Ex; cbn [exact_SF] in Hx; try discriminate;
  destruct (Prim2SF y) as [sy|sy| |sy my ey] eqn:Ey; cbn [exact_SF] in Hy; try discriminate.
  - injection Hx as <-. injection Hy as <-. reflexivity.
  - injection Hx as <-.
    destruct (exact_finite y sy my ey Ey) as (q' & Hq' & Heq).
    unfold exact in Hq'. rewrite Ey in Hq'. cbn [exact_SF] in Hq'.
    assert (q' = qy) by congruence. subst q'.
    assert (Qle_bool 0 qy = Qle_bool 0 (Qmake (cond_Zopp sy (Z.pos my * 2 ^ Z.max ey 0))
                                             (Z.to_pos (2 ^ Z.max (- ey) 0)))) as ->.
    { apply eq_true_iff_eq. rewrite !Qle_bool_iff. now rewrite Heq. }
    cbn [SFcompare]. pose proof (Z.pow_pos_nonneg 2 (Z.max ey 0) ltac:(lia) ltac:(lia)).
    destruct sy; cbn [cond_Zopp]; [apply eq_sym, not_true_iff_false|apply eq_sym];
      rewrite Qle_bool_iff; unfold Qle; cbn [Qnum Qden]; nia.
  - injection Hy as <-.
    destruct (exact_finite x sx mx ex Ex) as (q' & Hq' & Heq).
    unfold exact in Hq'. rewrite Ex in Hq'. cbn [exact_SF] in Hq'.
    assert (q' = qx) by congruence. subst q'.
    assert (Qle_bool qx 0 = Qle_bool (Qmake (cond_Zopp sx (Z.pos mx * 2 ^ Z.max ex 0))
                                            (Z.to_pos (2 ^ Z.max (- ex) 0))) 0) as ->.
    { apply eq_true_iff_eq. rewrite !Qle_bool_iff. now rewrite Heq. }
    cbn [SFcompare]. pose proof (Z.pow_pos_nonneg 2 (Z.max ex 0) ltac:(lia) ltac:(lia)).
    destruct sx; cbn [cond_Zopp]; [apply eq_sym|apply eq_sym, not_true_iff_false];
      rewrite Qle_bool_iff; unfold Qle; cbn [Qnum Qden]; nia.
  - destruct (exact_finite x sx mx ex Ex) as (q1 & Hq1 & Heq1).
    unfold exact in Hq1. rewrite Ex in Hq1. cbn [exact_SF] in Hq1.
    assert (q1 = qx) by congruence. subst q1.
    destruct (exact_finite y sy my ey Ey) as (q2 & Hq2 & Heq2).
    unfold exact in Hq2. rewrite Ey in Hq2. cbn [exact_SF] in Hq2.
    assert (q2 = qy) by congruence. subst q2.
    assert (Qle_bool qx qy =
            Qle_bool (Qmake (cond_Zopp sx (Z.pos mx * 2 ^ Z.max ex 0))
                            (Z.to_pos (2 ^ Z.max (- ex) 0)))
                     (Qmake (cond_Zopp sy (Z.pos my * 2 ^ Z.max ey 0))
                            (Z.to_pos (2 ^ Z.max (- ey) 0)))) as ->.
    { apply eq_true_iff_eq. rewrite !Qle_bool_iff. now rewrite Heq1, Heq2. }
    rewrite Qle_bool_finite.
    rewrite (Binary64.SFcompare_finite sx mx ex sy my ey
               (Binary64.valid_finite _ _ _ Vx) (Binary64.valid_finite _ _ _ Vy)).
    unfold Z.leb. now destruct (_ ?= _).
Qed.

(** No double lies between the double [0.3] and the decimal 0.3: a
    double is at most the one exactly when it is at most the other. *)
Lemma leb_three_tenths d dd :
  exact d = Some dd -> (d <=? 0.3)%float = Qle_bool dd (3 # 10).
Proof.
  intros Hd.
  assert (exact 0.3%float = Some (5404319552844595 # 18014398509481984)%Q) as H3
    by (vm_compute; reflexivity).
  rewrite (leb_exact d 0.3%float _ _ Hd H3).
  pose proof (Prim2SF_valid d) as V. unfold exact in Hd.
  destruct (Prim2SF d) as [s|s| |s m e] eqn:E; cbn [exact_SF] in Hd; try discriminate.
  - injection Hd as <-. reflexivity.
  - destruct (exact_finite d s m e E) as (q' & Hq' & Heq).
    unfold exact in Hq'. rewrite E in Hq'. cbn [exact_SF] in Hq'.
    assert (q' = dd) by congruence. subst q'.
    apply Binary64.valid_finite, Binary64.canonical_bounds in V.
    destruct V as (_ & Hm & _). change (2 ^ 53) with 9007199254740992 in Hm.
    apply eq_true_iff_eq. rewrite !Qle_bool_iff, Heq. unfold Qle. cbn [Qnum Qden].
    pose proof (Z.pow_pos_nonneg 2 (Z.max e 0) ltac:(lia) ltac:(lia)) as P1.
    pose proof (Z.pow_pos_nonneg 2 (Z.max (- e) 0) ltac:(lia) ltac:(lia)) as P2.
    rewrite Z2Pos.id by exact P2.
    destruct s; cbn [cond_Zopp]; [split; intros _; nia|].
    destruct (Z.leb_spec 0 e) as [He|He].
    + rewrite (Z.max_r (- e)) by lia. change (2 ^ 0) with 1. split; intros; nia.
    + rewrite (Z.max_r e 0), (Z.max_l (- e) 0) by lia. change (2 ^ 0) with 1.
      rewrite !Z.mul_1_r.
      destruct (Z.le_gt_cases (- e) 54) as [Hs|Hs].
      * set (R := 2 ^ (54 + e)).
        pose proof (Z.pow_pos_nonneg 2 (54 + e) ltac:(lia) ltac:(lia)) as HR. fold R in HR.
        pose proof (Z.pow_pos_nonneg 2 (- e) ltac:(lia) ltac:(lia)) as HP.
        assert (18014398509481984 = R * 2 ^ (- e)) as E54.
        { subst R. rewrite <- Z.pow_add_r by lia.
          replace (54 + e + - e) with 54 by lia. reflexivity. }
        rewrite E54.
        assert (Z.pos m * (R * 2 ^ (- e)) = Z.pos m * R * 2 ^ (- e)) as -> by ring.
        rewrite <- Z.mul_le_mono_pos_r by exact HP.
        assert (Z.pos m * 10 <= 3 * 2 ^ (- e) <->
                Z.pos m * 10 * R <= 3 * 2 ^ (- e) * R) as ->
          by (apply Z.mul_le_mono_pos_r; exact HR).
        replace (3 * 2 ^ (- e) * R) with (3 * 18014398509481984) by (rewrite E54; ring).
        lia.
      * set (R := 2 ^ (- e - 54)).
        assert (2 ^ 1 <= R) as HR by (apply Z.pow_le_mono_r; lia).
        change (2 ^ 1) with 2 in HR.
        assert (2 ^ (- e) = 18014398509481984 * R) as ->.
        { subst R. change 18014398509481984 with (2 ^ 54). rewrite <- Z.pow_add_r by lia.
          f_equal. lia. }
        split; intros _; nia.
Qed.

Lemma leb_abs_unbounded z t q :
  exact (abs z) = None -> exact t = Some q -> (abs z <=? t)%float = false.
Proof.
  unfold exact. rewrite leb_spec, abs_spec.
  destruct (Prim2SF z) as [s|s| |s m e]; cbn [SFabs exact_SF]; try discriminate; intros _.
  - destruct (Prim2SF t); cbn [exact_SF]; try discriminate; reflexivity.
  - reflexivity.
Qed.

(** *** One decimal of a quotient *)

(** Rounding to the nearest integer survives an error below [1 / (2 t)],
    a halfway case apart: [B / P] stands for the computed value and
    [N / t] for the exact one. *)
Lemma nearest_agrees N t B P :
  0 < t -> 0 <= N -> 0 < P ->
  2 * Z.abs (t * B - N * P) < P ->
  let n := (2 * B + P) / (2 * P) in
  let R := (2 * N + t) / (2 * t) in
  n = R \/ ((2 * N + t) mod (2 * t) = 0 /\ n = R - 1).
Proof.
  intros Ht HN HP Hb n R.
  pose proof (Z.div_mod (2 * N + t) (2 * t) ltac:(lia)) as Hdm.
  pose proof (Z.mod_pos_bound (2 * N + t) (2 * t) ltac:(lia)) as Hmb.
  fold R in Hdm. set (rho := (2 * N + t) mod (2 * t)) in *.
  assert (2 * t * B + t * P - (2 * N + t) * P < P /\
          (2 * N + t) * P - (2 * t * B + t * P) < P) as [Hu Hl] by lia.
  assert (t * (2 * B + P - 2 * P * R) = 2 * t * B + t * P - (2 * N + t) * P + rho * P) as EQ
    by (rewrite Hdm; ring).
  assert (0 <= rho * P) as Hrho by (apply Z.mul_nonneg_nonneg; lia).
  assert (rho * P <= (2 * t - 1) * P) as Hrho' by (apply Z.mul_le_mono_nonneg_r; lia).
  destruct (Z.eq_dec rho 0) as [E0|Hnz].
  - rewrite E0, Z.mul_0_l, Z.add_0_r in EQ.
    destruct (Z.le_gt_cases (2 * P * R) (2 * B + P)) as [Hge|Hlt].
    + left. subst n. symmetry. apply (Z.div_unique _ _ _ (2 * B + P - 2 * P * R)); [|ring].
      left. split; [lia|].
      apply (Z.mul_lt_mono_pos_l t); [exact Ht|]. rewrite EQ.
      assert (P <= t * P) by (apply (Z.le_trans _ (1 * P)); [lia|apply Z.mul_le_mono_nonneg_r; lia]).
      lia.
    + right. split; [exact E0|]. subst n. symmetry.
      apply (Z.div_unique _ _ _ (2 * B + P - 2 * P * (R - 1))); [|ring].
      left. split; [|lia].
      assert (0 <= t * (2 * B + P - 2 * P * (R - 1))) as H0.
      { replace (t * (2 * B + P - 2 * P * (R - 1)))
          with (t * (2 * B + P - 2 * P * R) + 2 * (t * P)) by ring.
        rewrite EQ.
        assert (P <= t * P) by (apply (Z.le_trans _ (1 * P)); [lia|apply Z.mul_le_mono_nonneg_r; lia]).
        lia. }
      destruct (Z.le_gt_cases 0 (2 * B + P - 2 * P * (R - 1))) as [|Hneg]; [assumption|].
      exfalso. assert (t * (2 * B + P - 2 * P * (R - 1)) < 0); [|lia].
      apply Z.mul_pos_neg; lia.
  - assert (P <= rho * P)
      by (apply (Z.le_trans _ (1 * P)); [lia|apply Z.mul_le_mono_nonneg_r; lia]).
    left. subst n. symmetry. apply (Z.div_unique _ _ _ (2 * B + P - 2 * P * R)); [|ring].
    left. split.
    + destruct (Z.le_gt_cases 0 (2 * B + P - 2 * P * R)) as [|Hneg]; [assumption|].
      exfalso. assert (t * (2 * B + P - 2 * P * R) < 0); [|lia].
      apply Z.mul_pos_neg; lia.
    + apply (Z.mul_lt_mono_pos_l t); [exact Ht|]. rewrite EQ.
      replace (t * (2 * P)) with (2 * t * P) by ring.
      replace ((2 * t - 1) * P) with (2 * t * P - P) in Hrho' by ring. lia.
Qed.

(** The quotient of two whole numbers, written with one decimal and
    read back: the decimal nearest to the exact quotient, except that
    a quotient exactly halfway between two decimals can go to the lower
    one. *)
Lemma quotient_tenths (c t : positive) :
  Zpos c < 2 ^ 48 -> Zpos t < 2 ^ 53 ->
  let R := (20 * Zpos c + Zpos t) / (2 * Zpos t) in
  let y := parseFloat (toFixed_1 (number_of_Z (Zpos c) / number_of_Z (Zpos t))%float) in
  y = RoundMV false R (-1) \/
  ((20 * Zpos c + Zpos t) mod (2 * Zpos t) = 0 /\ y = RoundMV false (R - 1) (-1)).
Proof.
  intros Hc Ht.
  destruct (Prim2SF_number_of_pos c ltac:(lia)) as (mc & Hmc & Ec).
  destruct (Prim2SF_number_of_pos t Ht) as (mt & Hmt & Et).
  pose proof (normalized_mantissa c ltac:(lia)) as Nc. rewrite <- Hmc in Nc.
  pose proof (normalized_mantissa t Ht) as Nt. rewrite <- Hmt in Nt.
  pose proof (Z.log2_nonneg (Zpos c)) as Lc0.
  pose proof (Z.log2_nonneg (Zpos t)) as Lt0.
  assert (Z.log2 (Zpos c) < 48) as Lc1 by (apply Z.log2_lt_pow2; lia).
  assert (Z.log2 (Zpos t) < 53) as Lt1 by (apply Z.log2_lt_pow2; lia).
  set (lc := Z.log2 (Zpos c)) in *. set (lt := Z.log2 (Zpos t)) in *.
  destruct (Binary64.SFdiv_relative mc (lc - 52) mt (lt - 52) Nc Nt ltac:(lia))
    as (MX & EX & Ediv & HEX & Hb1).
  set (X := (number_of_Z (Zpos c) / number_of_Z (Zpos t))%float).
  assert (Prim2SF X = S754_finite false MX EX) as EqX
    by (subst X; rewrite div_spec, Ec, Et; exact Ediv).
  set (a := 53 + lt - lc) in *.
  replace (lc - 52 - (lt - 52) - 53) with (- a) in Hb1, HEX by lia.
  replace (EX - - a) with (EX + a) in Hb1 by lia.
  set (A := Zpos MX * 2 ^ (EX + a)) in *.
  pose proof (Z.pow_pos_nonneg 2 a ltac:(lia) ltac:(lia)) as HPa.
  pose proof (Z.pow_pos_nonneg 2 (EX + a) ltac:(lia) ltac:(lia)) as HPg.
  pose proof (Z.pow_pos_nonneg 2 (52 - lt) ltac:(lia) ltac:(lia)) as HPu.
  assert (0 <= A) as HA by (subst A; apply Z.mul_nonneg_nonneg; lia).
  assert (2 ^ 53 * Z.abs (A * Zpos t - Zpos c * 2 ^ a) <= Zpos c * 2 ^ a) as H1.
  { assert (Zpos mc * 2 ^ 53 = Zpos c * 2 ^ a * 2 ^ (52 - lt)) as E1.
    { rewrite Hmc, <- !Z.mul_assoc, <- !Z.pow_add_r by lia. do 2 f_equal. lia. }
    assert (A * Zpos mt - Zpos mc * 2 ^ 53
            = (A * Zpos t - Zpos c * 2 ^ a) * 2 ^ (52 - lt)) as E2
      by (rewrite E1, Hmt; ring).
    rewrite E2, E1, Z.abs_mul, (Z.abs_eq (2 ^ (52 - lt))), Z.mul_assoc in Hb1 by lia.
    apply Z.mul_le_mono_pos_r in Hb1; [exact Hb1|exact HPu]. }
  assert (2 * Z.abs (Zpos t * (10 * A) - 10 * Zpos c * 2 ^ a) < 2 ^ a) as Hb.
  { replace (Zpos t * (10 * A) - 10 * Zpos c * 2 ^ a)
      with (10 * (A * Zpos t - Zpos c * 2 ^ a)) by ring.
    rewrite Z.abs_mul, (Z.abs_eq 10) by lia.
    assert (Zpos c * 2 ^ a <= (2 ^ 48 - 1) * 2 ^ a)
      by (apply Z.mul_le_mono_nonneg_r; lia).
    set (V := Z.abs (A * Zpos t - Zpos c * 2 ^ a)) in *. set (P := 2 ^ a) in *.
    change (2 ^ 53) with 9007199254740992 in *. change (2 ^ 48) with 281474976710656 in *.
    lia. }
  intros R y. subst y. fold X.
  rewrite (parseFloat_toFixed_1_finite X false MX EX EqX).
  assert (tenths MX EX = (2 * (10 * A) + 2 ^ a) / (2 * 2 ^ a)) as ->.
  { rewrite tenths_fraction.
    pose proof (Z.pow_pos_nonneg 2 (Z.max (- EX) 0) ltac:(lia) ltac:(lia)) as HD.
    rewrite Z2Pos.id by exact HD.
    set (k := a - Z.max (- EX) 0).
    assert (0 <= k) as Hk by lia.
    pose proof (Z.pow_pos_nonneg 2 k ltac:(lia) Hk) as HK.
    assert (2 ^ a = 2 ^ Z.max (- EX) 0 * 2 ^ k) as ->
      by (rewrite <- Z.pow_add_r by lia; f_equal; lia).
    assert (A = Zpos MX * 2 ^ Z.max EX 0 * 2 ^ k) as ->
      by (subst A; rewrite <- Z.mul_assoc, <- Z.pow_add_r by lia; do 2 f_equal; lia).
    rewrite <- (Z.div_mul_cancel_r _ _ (2 ^ k)) by lia.
    f_equal; ring. }
  destruct (nearest_agrees (10 * Zpos c) (Zpos t) (10 * A) (2 ^ a)
              ltac:(lia) ltac:(lia) HPa Hb) as [->|[Hh ->]].
  - left. subst R. replace (2 * (10 * Zpos c)) with (20 * Zpos c) by ring. reflexivity.
  - right. subst R. replace (2 * (10 * Zpos c)) with (20 * Zpos c) in * by ring.
    split; [exact Hh|reflexivity].
Qed.

(** The same quotient rounded by the specification. *)
Lemma round1_half_away_quotient (c t : positive) :
  Spec.round1_half_away (Zpos c # t)
  = RoundMV false ((20 * Zpos c + Zpos t) / (2 * Zpos t)) (-1).
Proof.
  unfold Spec.round1_half_away, Spec.round_half_away.
  assert (Qle_bool 0 (Zpos c # t) = true) as ->
    by (rewrite Qle_bool_iff; unfold Qle; cbn [Qnum Qden]; lia).
  assert (Qle_bool 0 (10 * (Zpos c # t)) = true) as ->
    by (rewrite Qle_bool_iff; unfold Qle, Qmult; cbn [Qnum Qden]; lia).
  rewrite Qfloor_tenths_half. cbn [negb]. f_equal.
  apply Z.abs_eq. apply Z.div_pos; lia.
Qed.

Lemma tie_quotient (c t : positive) :
  (20 * Zpos c + Zpos t) mod (2 * Zpos t) = 0 ->
  Spec.tie (10 * (Zpos c # t)) = true.
Proof.
  intros H. apply Z.mod_divide in H; [|lia]. destruct H as [j Hj].
  unfold Spec.tie. apply Qeq_bool_iff.
  assert (Qfloor (10 * (Zpos c # t)) = j - 1) as ->.
  { unfold Qfloor, Qmult. cbn [Qnum Qden].
    rewrite Pos2Z.inj_mul.
    symmetry. apply (Z.div_unique _ _ _ (10 * Zpos c - Zpos t * (j - 1))); lia. }
  unfold Qeq, Qminus, Qplus, Qopp, Qmult, inject_Z. cbn [Qnum Qden].
  rewrite !Pos2Z.inj_mul. lia.
Qed.

Import SFClass.

Local Open Scope float_scope.

(** *** Whole numbers and decimals as integers *)

Lemma scaled_number_of_Z n :
  (Z.abs n < 2 ^ 53)%Z ->
  finite (Prim2SF (number_of_Z n)) /\
  scaled (Prim2SF (number_of_Z n)) = (n * 2 ^ 1074)%Z.
Proof.
  intros Hn.
  assert (forall p, (Zpos p < 2 ^ 53)%Z ->
            finite (Prim2SF (number_of_Z (Zpos p))) /\
            scaled (Prim2SF (number_of_Z (Zpos p))) = (Zpos p * 2 ^ 1074)%Z) as Hp.
  { intros p Hp. destruct (Prim2SF_number_of_pos p Hp) as (mz & Hmz & ->).
    split; [exact I|]. cbn [scaled cond_Zopp].
    pose proof (Z.log2_nonneg (Zpos p)).
    assert (Z.log2 (Zpos p) < 53)%Z by (apply Z.log2_lt_pow2; lia).
    rewrite Hmz, <- Z.mul_assoc, <- Z.pow_add_r by lia. do 2 f_equal. lia. }
  destruct n as [|p|p].
  - split; [exact I|reflexivity].
  - apply Hp. lia.
  - destruct (Hp p ltac:(lia)) as [F S].
    assert (Prim2SF (number_of_Z (Zneg p)) = SFopp (Prim2SF (number_of_Z (Zpos p)))) as ->
      by (unfold number_of_Z; rewrite opp_spec; reflexivity).
    destruct (Prim2SF (number_of_Z (Zpos p))) as [s|s| |s m e];
      cbn [finite SFopp scaled] in *; try contradiction.
    + split; [exact I|lia].
    + split; [exact I|]. destruct s; cbn [cond_Zopp negb] in *; lia.
Qed.

(** The difference of two whole numbers is computed exactly. *)
Lemma sub_whole b g :
  (Z.abs b < 2 ^ 52)%Z -> (Z.abs g < 2 ^ 52)%Z ->
  number_of_Z b - number_of_Z g = number_of_Z (b - g).
Proof.
  intros Hb Hg.
  assert (2 ^ 52 < 2 ^ 53)%Z as H5253 by reflexivity.
  destruct (scaled_number_of_Z b ltac:(lia)) as [Fb Sb].
  destruct (scaled_number_of_Z g ltac:(lia)) as [Fg Sg].
  destruct (scaled_number_of_Z (b - g) ltac:(lia)) as [Fd Sd].
  pose proof (Z.pow_pos_nonneg 2 1074 ltac:(lia) ltac:(lia)) as HK.
  assert (2 ^ 53 * 2 ^ 1074 <= 2 ^ 2000)%Z as Hbig
    by (rewrite <- Z.pow_add_r by lia; apply Z.pow_le_mono_r; lia).
  assert (forall n, (Z.abs n < 2 ^ 53)%Z -> (Z.abs (n * 2 ^ 1074) < 2 ^ 2000)%Z) as Hbound.
  { intros n Hn. rewrite Z.abs_mul, (Z.abs_eq (2 ^ 1074)) by lia.
    eapply Z.lt_le_trans; [|exact Hbig]. apply Z.mul_lt_mono_pos_r; lia. }
  destruct (Binary64.SFsub_scaled (Prim2SF (number_of_Z b)) (Prim2SF (number_of_Z g))
              (Prim2SF_valid _) (Prim2SF_valid _) Fb Fg
              ltac:(rewrite Sb; apply Hbound; lia) ltac:(rewrite Sg; apply Hbound; lia))
    as (Fr & _ & Hex).
  rewrite Sb, Sg, <- Z.mul_sub_distr_r in Hex.
  specialize (Hex ltac:(exists (Z.abs (b - g)), 1074%Z;
                         rewrite Z.abs_mul, (Z.abs_eq (2 ^ 1074)) by lia;
                         split; [reflexivity|lia])).
  fold SF64sub in Fr, Hex. rewrite <- sub_spec in Fr, Hex.
  apply Prim2SF_inj.
  pose proof (Prim2SF_valid (number_of_Z b - number_of_Z g)) as Vr.
  pose proof (Prim2SF_valid (number_of_Z (b - g))) as Vd.
  rewrite <- Sd in Hex.
  destruct (Z.eq_dec (b - g) 0) as [E0|Hnz].
  - rewrite E0 in *. change (Prim2SF (number_of_Z 0)) with (S754_zero false) in *.
    assert (b = g) as -> by lia.
    rewrite sub_spec.
    destruct (Prim2SF (number_of_Z g)) as [s|s| |s m e] eqn:Eg;
      cbn [finite] in Fg; try contradiction.
    + destruct s; reflexivity.
    + rewrite Binary64.SFsub_finite, Z.sub_diag. reflexivity.
  - assert (scaled (Prim2SF (number_of_Z (b - g))) <> 0%Z) as Hd0.
    { rewrite Sd. intros H. apply Z.mul_eq_0 in H. lia. }
    assert (scaled (Prim2SF (number_of_Z b - number_of_Z g)) <> 0%Z) as Hr0 by congruence.
    destruct (Prim2SF (number_of_Z b - number_of_Z g)) as [s|s| |s m e] eqn:Er;
      cbn [finite scaled] in Fr, Hr0; try contradiction; try congruence.
    destruct (Prim2SF (number_of_Z (b - g))) as [s'|s'| |s' m' e'] eqn:Ed;
      cbn [finite scaled] in Fd, Hd0; try contradiction; try congruence.
    apply Binary64.scaled_inj; [now apply Binary64.valid_finite in Vr
                         |now apply Binary64.valid_finite in Vd|exact Hex].
Qed.

(** The double nearest to [n / 10], for [n] below [2 ^ 52]: finite, and
    within a relative error of [2 ^ -53]. *)
Lemma RoundMV_tenth_scaled n :
  (0 <= n < 2 ^ 52)%Z ->
  let x := Prim2SF (RoundMV false n (-1)) in
  finite x /\ (2 ^ 53 * Z.abs (10 * scaled x - n * 2 ^ 1074) <= n * 2 ^ 1074)%Z.
Proof.
  intros Hn. cbv zeta. destruct n as [|p|p]; try lia.
  - split; [exact I|]. cbn. lia.
  - unfold RoundMV. change (Z.max (-1) 0) with 0%Z. change (Z.max (- -1) 0) with 1%Z.
    change (Z.to_pos (10 ^ 0)) with 1%positive. change (Z.to_pos (10 ^ 1)) with 10%positive.
    rewrite Pos.mul_1_r.
    destruct (Binary64.SFdiv_tenth p) as (M & E & sh & Hsh & HE & HM & Hc & Hb & ->).
    pose proof (Z.pow_pos_nonneg 2 sh ltac:(lia) ltac:(lia)) as HP.
    pose proof (Z.pow_pos_nonneg 2 (E + sh) ltac:(lia) ltac:(lia)) as HQ.
    assert (E < 0)%Z as Hneg.
    { destruct (Z.lt_ge_cases E 0) as [|Hge]; [assumption|exfalso].
      assert (2 ^ sh <= 2 ^ (E + sh))%Z by (apply Z.pow_le_mono_r; lia).
      assert (2 ^ 52 * 2 ^ sh <= Zpos M * 2 ^ (E + sh))%Z
        by (apply Z.mul_le_mono_nonneg; lia).
      assert (Zpos p * 2 ^ sh < 2 ^ 52 * 2 ^ sh)%Z by (apply Z.mul_lt_mono_pos_r; lia).
      set (A := (Zpos M * 2 ^ (E + sh))%Z) in *. set (P := (2 ^ sh)%Z) in *.
      set (nP := (Zpos p * P)%Z) in *.
      change (2 ^ 53)%Z with 9007199254740992%Z in *.
      change (2 ^ 52)%Z with 4503599627370496%Z in *. lia. }
    replace (E <=? emax - prec)%Z with true
      by (symmetry; apply Z.leb_le; change (emax - prec)%Z with 971%Z; lia).
    assert (Prim2SF (SF2Prim (S754_finite false M E)) = S754_finite false M E) as ->.
    { apply Prim2SF_SF2Prim. unfold FloatAxioms.valid_binary, SpecFloat.valid_binary, bounded.
      rewrite Hc. apply Z.leb_le. change (emax - prec)%Z with 971%Z. lia. }
    split; [exact I|]. cbn [scaled cond_Zopp].
    pose proof (Z.pow_pos_nonneg 2 (1074 - sh) ltac:(lia) ltac:(lia)) as HR.
    assert (2 ^ (E + 1074) = 2 ^ (E + sh) * 2 ^ (1074 - sh))%Z as E1
      by (rewrite <- Z.pow_add_r by lia; f_equal; lia).
    assert (2 ^ 1074 = 2 ^ sh * 2 ^ (1074 - sh))%Z as E2
      by (rewrite <- Z.pow_add_r by lia; f_equal; lia).
    rewrite E1, E2.
    assert (10 * (Zpos M * (2 ^ (E + sh) * 2 ^ (1074 - sh)))
              - Zpos p * (2 ^ sh * 2 ^ (1074 - sh))
            = (Zpos M * 2 ^ (E + sh) * 10 - Zpos p * 2 ^ sh) * 2 ^ (1074 - sh))%Z as ->
      by ring.
    rewrite (Z.mul_assoc (Zpos p)).
    rewrite Z.abs_mul, (Z.abs_eq (2 ^ (1074 - sh))), Z.mul_assoc by lia.
    apply Z.mul_le_mono_nonneg_r; [lia|exact Hb].
Qed.

Lemma scaled_thresholds :
  (2 ^ 1074 = 18014398509481984 * 2 ^ 1020)%Z /\
  scaled (Prim2SF 0.3) = (5404319552844595 * 2 ^ 1020)%Z /\
  scaled (Prim2SF 1) = (18014398509481984 * 2 ^ 1020)%Z /\
  scaled (Prim2SF 2) = (2 * (18014398509481984 * 2 ^ 1020))%Z /\
  scaled (Prim2SF 5) = (5 * (18014398509481984 * 2 ^ 1020))%Z.
Proof. repeat split; vm_compute; reflexivity. Qed.

Lemma leb_abs_scaled x t :
  finite (Prim2SF x) -> finite (Prim2SF t) ->
  (abs x <=? t) = (Z.abs (scaled (Prim2SF x)) <=? scaled (Prim2SF t))%Z.
Proof.
  intros Fx Ft. rewrite leb_spec, <- Binary64.scaled_abs, <- abs_spec.
  apply Binary64.SFleb_scaled; try apply Prim2SF_valid; [|exact Ft].
  rewrite abs_spec. destruct (Prim2SF x); cbn [finite SFabs] in *; tauto.
Qed.

(** The tests of the dose difference, on total doses of one decimal:
    [a] tenths typed against [b] tenths of reference. *)
Lemma dose_tests_decimal a b :
  (0 <= a < 2 ^ 48)%Z -> (0 <= b < 2 ^ 48)%Z ->
  let D := abs (RoundMV false a (-1) - RoundMV false b (-1)) in
  ((Z.abs (a - b) <> 3)%Z -> (D <=? 0.3) = (Z.abs (a - b) <=? 3)%Z) /\
  ((Z.abs (a - b) <> 10)%Z -> (D <=? 1) = (Z.abs (a - b) <=? 10)%Z).
Proof.
  intros Ha Hb D. subst D.
  assert (2 ^ 48 < 2 ^ 52)%Z as H4852 by reflexivity.
  destruct (RoundMV_tenth_scaled a ltac:(lia)) as [Fu Su].
  destruct (RoundMV_tenth_scaled b ltac:(lia)) as [Ft St].
  destruct scaled_thresholds as (EK & E03 & E1 & _ & _).
  pose proof (Z.pow_pos_nonneg 2 1020 ltac:(lia) ltac:(lia)) as HL.
  set (u := RoundMV false a (-1)) in *. set (t := RoundMV false b (-1)) in *.
  set (su := scaled (Prim2SF u)) in *. set (st := scaled (Prim2SF t)) in *.
  rewrite EK in Su, St.
  assert (a * (18014398509481984 * 2 ^ 1020) <= (2 ^ 48 - 1) * (18014398509481984 * 2 ^ 1020))%Z
    as HXa by (apply Z.mul_le_mono_nonneg_r; lia).
  assert (b * (18014398509481984 * 2 ^ 1020) <= (2 ^ 48 - 1) * (18014398509481984 * 2 ^ 1020))%Z
    as HXb by (apply Z.mul_le_mono_nonneg_r; lia).
  assert (0 <= a * (18014398509481984 * 2 ^ 1020))%Z as HXa0
    by (apply Z.mul_nonneg_nonneg; lia).
  assert (0 <= b * (18014398509481984 * 2 ^ 1020))%Z as HXb0
    by (apply Z.mul_nonneg_nonneg; lia).
  assert (2 ^ 1020 * 2 ^ 110 <= 2 ^ 2000)%Z as Hbig
    by (rewrite <- Z.pow_add_r by lia; apply Z.pow_le_mono_r; lia).
  change (2 ^ 110)%Z with 1298074214633706907132624082305024%Z in Hbig.
  change (2 ^ 53)%Z with 9007199254740992%Z in *.
  change (2 ^ 48)%Z with 281474976710656%Z in *.
  assert (Z.abs su < 2 ^ 2000 /\ Z.abs st < 2 ^ 2000)%Z as [Bu Bt].
  { set (L := (2 ^ 1020)%Z) in *. set (T := (2 ^ 2000)%Z) in *.
    set (XA := (a * (18014398509481984 * L))%Z) in *.
    set (XB := (b * (18014398509481984 * L))%Z) in *. lia. }
  destruct (Binary64.SFsub_scaled (Prim2SF u) (Prim2SF t)
              (Prim2SF_valid _) (Prim2SF_valid _) Fu Ft Bu Bt) as (Fr & Hr & _).
  fold SF64sub in Fr, Hr. rewrite <- sub_spec in Fr, Hr. fold su st in Hr.
  rewrite !(leb_abs_scaled (u - t)) by (exact Fr || exact I).
  rewrite E03, E1.
  set (sr := scaled (Prim2SF (u - t))) in *.
  assert ((a - b) * (18014398509481984 * 2 ^ 1020)
          = a * (18014398509481984 * 2 ^ 1020) - b * (18014398509481984 * 2 ^ 1020))%Z
    as Hdiff by ring.
  assert (forall c, Z.abs (a - b) <= c ->
            Z.abs ((a - b) * (18014398509481984 * 2 ^ 1020))
            <= c * (18014398509481984 * 2 ^ 1020))%Z as Hle.
  { intros c Hc. rewrite Z.abs_mul, (Z.abs_eq (_ * 2 ^ 1020)) by lia.
    apply Z.mul_le_mono_nonneg_r; lia. }
  assert (forall c, c <= Z.abs (a - b) ->
            c * (18014398509481984 * 2 ^ 1020)
            <= Z.abs ((a - b) * (18014398509481984 * 2 ^ 1020)))%Z as Hge.
  { intros c Hc. rewrite Z.abs_mul, (Z.abs_eq (_ * 2 ^ 1020)) by lia.
    apply Z.mul_le_mono_nonneg_r; lia. }
  split; intros Hne.
  - destruct (Z.leb_spec (Z.abs (a - b)) 3) as [H3|H3].
    + specialize (Hle 2%Z ltac:(lia)). rewrite Hdiff in Hle.
      apply Z.leb_le.
      set (L := (2 ^ 1020)%Z) in *.
      set (XA := (a * (18014398509481984 * L))%Z) in *.
      set (XB := (b * (18014398509481984 * L))%Z) in *. lia.
    + specialize (Hge 4%Z ltac:(lia)). rewrite Hdiff in Hge.
      apply Z.leb_gt.
      set (L := (2 ^ 1020)%Z) in *.
      set (XA := (a * (18014398509481984 * L))%Z) in *.
      set (XB := (b * (18014398509481984 * L))%Z) in *. lia.
  - destruct (Z.leb_spec (Z.abs (a - b)) 10) as [H3|H3].
    + specialize (Hle 9%Z ltac:(lia)). rewrite Hdiff in Hle.
      apply Z.leb_le.
      set (L := (2 ^ 1020)%Z) in *.
      set (XA := (a * (18014398509481984 * L))%Z) in *.
      set (XB := (b * (18014398509481984 * L))%Z) in *. lia.
    + specialize (Hge 11%Z ltac:(lia)). rewrite Hdiff in Hge.
      apply Z.leb_gt.
      set (L := (2 ^ 1020)%Z) in *.
      set (XA := (a * (18014398509481984 * L))%Z) in *.
      set (XB := (b * (18014398509481984 * L))%Z) in *. lia.
Qed.

(** The tests of the carbs difference, on whole numbers of grams. *)
Lemma carbs_tests_whole k n :
  (Z.abs k < 2 ^ 52)%Z -> (Z.abs n < 2 ^ 52)%Z ->
  let C := abs (number_of_Z k - number_of_Z n) in
  (C <=? 2) = (Z.abs (k - n) <=? 2)%Z /\ (C <=? 5) = (Z.abs (k - n) <=? 5)%Z.
Proof.
  intros Hk Hn C. subst C. rewrite (sub_whole k n Hk Hn).
  assert (2 ^ 52 < 2 ^ 53)%Z as H5253 by reflexivity.
  destruct (scaled_number_of_Z (k - n) ltac:(lia)) as [Fd Sd].
  destruct scaled_thresholds as (EK & _ & _ & E2 & E5).
  pose proof (Z.pow_pos_nonneg 2 1020 ltac:(lia) ltac:(lia)) as HL.
  rewrite !(leb_abs_scaled (number_of_Z (k - n))) by (exact Fd || exact I).
  rewrite Sd, E2, E5, EK, Z.abs_mul, (Z.abs_eq (_ * 2 ^ 1020)) by lia.
  set (K := (18014398509481984 * 2 ^ 1020)%Z). assert (0 < K)%Z as HK by (subst K; lia).
  split; apply eq_true_iff_eq; rewrite !Z.leb_le;
    (split; intros H; [apply (Z.mul_le_mono_pos_r _ _ K HK); exact H
                      |apply Z.mul_le_mono_nonneg_r; lia]).
Qed.

(** The tenths of a double within half a tenth of [n / 10]. *)
Lemma tenths_scaled M E n :
  (-1074 <= E)%Z ->
  (- 2 ^ 1074 <= 20 * (Zpos M * 2 ^ (E + 1074)) - 2 * n * 2 ^ 1074 < 2 ^ 1074)%Z ->
  tenths M E = n.
Proof.
  intros HE Hb. rewrite tenths_fraction.
  pose proof (Z.pow_pos_nonneg 2 (Z.max (- E) 0) ltac:(lia) ltac:(lia)) as HD.
  rewrite Z2Pos.id by exact HD.
  set (k := (1074 - Z.max (- E) 0)%Z).
  assert (0 <= k)%Z as Hk by (subst k; lia).
  pose proof (Z.pow_pos_nonneg 2 k ltac:(lia) Hk) as HK.
  assert (2 ^ 1074 = 2 ^ Z.max (- E) 0 * 2 ^ k)%Z as EK
    by (rewrite <- Z.pow_add_r by lia; f_equal; subst k; lia).
  assert (Zpos M * 2 ^ (E + 1074) = Zpos M * 2 ^ Z.max E 0 * 2 ^ k)%Z as EM
    by (rewrite <- Z.mul_assoc, <- Z.pow_add_r by lia; do 2 f_equal; subst k; lia).
  rewrite EK, EM in Hb.
  set (A := (Zpos M * 2 ^ Z.max E 0)%Z) in *. set (D := (2 ^ Z.max (- E) 0)%Z) in *.
  set (P := (2 ^ k)%Z) in *.
  symmetry. apply (Z.div_unique _ _ _ (20 * A + D - 2 * D * n)%Z); [|ring].
  left.
  assert ((20 * A + D - 2 * D * n) * P = 20 * (A * P) - 2 * n * (D * P) + D * P)%Z as EQ
    by ring.
  split.
  - apply (Z.mul_le_mono_pos_r _ _ P HK). rewrite EQ. lia.
  - apply (Z.mul_lt_mono_pos_r P); [exact HK|]. rewrite EQ.
    replace (2 * D * P)%Z with (2 * (D * P))%Z by ring. lia.
Qed.

(** The sum of two numbers of one decimal, written with one decimal
    and read back, is their decimal sum. *)
Lemma sum_one_decimal x y :
  (0 <= x < 2 ^ 47)%Z -> (0 <= y < 2 ^ 47)%Z ->
  parseFloat (toFixed_1 (RoundMV false x (-1) + RoundMV false y (-1)))
  = RoundMV false (x + y) (-1).
Proof.
  intros Hx Hy.
  assert (2 ^ 47 < 2 ^ 52)%Z as H4752 by reflexivity.
  destruct (RoundMV_tenth_scaled x ltac:(lia)) as [Fu Su].
  destruct (RoundMV_tenth_scaled y ltac:(lia)) as [Ft St].
  destruct scaled_thresholds as (EK & _).
  pose proof (Z.pow_pos_nonneg 2 1020 ltac:(lia) ltac:(lia)) as HL.
  set (u := RoundMV false x (-1)) in *. set (t := RoundMV false y (-1)) in *.
  set (su := scaled (Prim2SF u)) in *. set (st := scaled (Prim2SF t)) in *.
  rewrite EK in Su, St.
  assert (x * (18014398509481984 * 2 ^ 1020) <= (2 ^ 47 - 1) * (18014398509481984 * 2 ^ 1020))%Z
    as HXa by (apply Z.mul_le_mono_nonneg_r; lia).
  assert (y * (18014398509481984 * 2 ^ 1020) <= (2 ^ 47 - 1) * (18014398509481984 * 2 ^ 1020))%Z
    as HXb by (apply Z.mul_le_mono_nonneg_r; lia).
  assert (0 <= x * (18014398509481984 * 2 ^ 1020))%Z as HXa0
    by (apply Z.mul_nonneg_nonneg; lia).
  assert (0 <= y * (18014398509481984 * 2 ^ 1020))%Z as HXb0
    by (apply Z.mul_nonneg_nonneg; lia).
  assert (2 ^ 1020 * 2 ^ 110 <= 2 ^ 2000)%Z as Hbig
    by (rewrite <- Z.pow_add_r by lia; apply Z.pow_le_mono_r; lia).
  change (2 ^ 110)%Z with 1298074214633706907132624082305024%Z in Hbig.
  change (2 ^ 53)%Z with 9007199254740992%Z in *.
  change (2 ^ 47)%Z with 140737488355328%Z in *.
  assert (Z.abs su < 2 ^ 2000 /\ Z.abs st < 2 ^ 2000)%Z as [Bu Bt].
  { set (L := (2 ^ 1020)%Z) in *. set (T := (2 ^ 2000)%Z) in *.
    set (XA := (x * (18014398509481984 * L))%Z) in *.
    set (XB := (y * (18014398509481984 * L))%Z) in *. lia. }
  destruct (Binary64.SFadd_scaled (Prim2SF u) (Prim2SF t)
              (Prim2SF_valid _) (Prim2SF_valid _) Fu Ft Bu Bt) as (Fr & Hr).
  fold SF64add in Fr, Hr. rewrite <- add_spec in Fr, Hr. fold su st in Hr.
  pose proof (Prim2SF_valid (u + t)) as Vr.
  set (sr := scaled (Prim2SF (u + t))) in *.
  assert ((x + y) * (18014398509481984 * 2 ^ 1020)
          = x * (18014398509481984 * 2 ^ 1020) + y * (18014398509481984 * 2 ^ 1020))%Z
    as Hsum by ring.
  destruct (Prim2SF (u + t)) as [s|s| |s M E] eqn:Er; cbn [finite] in Fr; try contradiction.
  - (* the sum is zero: both are *)
    cbn [scaled] in sr. subst sr.
    assert (x = 0 /\ y = 0)%Z as [-> ->].
    { destruct (Z.eq_dec (x + y) 0) as [|Hnz]; [lia|exfalso].
      assert (1 * (18014398509481984 * 2 ^ 1020)
              <= (x + y) * (18014398509481984 * 2 ^ 1020))%Z
        by (apply Z.mul_le_mono_nonneg_r; lia).
      rewrite Hsum in *.
      set (L := (2 ^ 1020)%Z) in *.
      set (XA := (x * (18014398509481984 * L))%Z) in *.
      set (XB := (y * (18014398509481984 * L))%Z) in *. lia. }
    assert (toFixed_1 (u + t) = "0.0") as -> by (unfold toFixed_1; rewrite Er; reflexivity).
    reflexivity.
  - apply Binary64.valid_finite in Vr.
    destruct (Binary64.scaled_finite_pos M E Vr) as [HE HP].
    cbn [scaled] in sr.
    assert (s = false) as ->.
    { destruct s; [exfalso|reflexivity]. subst sr. cbn [cond_Zopp] in Hr.
      set (L := (2 ^ 1020)%Z) in *.
      set (XA := (x * (18014398509481984 * L))%Z) in *.
      set (XB := (y * (18014398509481984 * L))%Z) in *.
      set (V := (Zpos M * 2 ^ (E + 1074))%Z) in *. lia. }
    rewrite (parseFloat_toFixed_1_finite _ false M E Er). f_equal.
    apply tenths_scaled; [exact HE|].
    subst sr. cbn [cond_Zopp] in Hr. rewrite EK.
    replace (2 * (x + y) * (18014398509481984 * 2 ^ 1020))%Z
      with (2 * ((x + y) * (18014398509481984 * 2 ^ 1020)))%Z by ring.
    rewrite Hsum.
    set (L := (2 ^ 1020)%Z) in *.
    set (XA := (x * (18014398509481984 * L))%Z) in *.
    set (XB := (y * (18014398509481984 * L))%Z) in *.
    set (V := (Zpos M * 2 ^ (E + 1074))%Z) in *. lia.
Qed.

(** The same sum rounded by the specification. *)
Lemma round1_half_away_sum x y :
  (0 <= x)%Z -> (0 <= y)%Z ->
  Spec.round1_half_away ((x # 10) + (y # 10)) = RoundMV false (x + y) (-1).
Proof.
  intros Hx Hy. unfold Spec.round1_half_away, Spec.round_half_away.
  assert (Qle_bool 0 ((x # 10) + (y # 10)) = true) as ->
    by (rewrite Qle_bool_iff; unfold Qle, Qplus; cbn [Qnum Qden]; lia).
  assert (Qle_bool 0 (10 * ((x # 10) + (y # 10))) = true) as ->
    by (rewrite Qle_bool_iff; unfold Qle, Qplus, Qmult; cbn [Qnum Qden]; lia).
  cbn [negb]. f_equal.
  assert (Qfloor (10 * ((x # 10) + (y # 10)) + (1 # 2)) = x + y)%Z as ->.
  { unfold Qfloor, Qplus, Qmult. cbn [Qnum Qden].
    symmetry. apply (Z.div_unique _ _ _ 100%Z); lia. }
  lia.
Qed.

Lemma round_half_away_tenths (n t : positive) :
  Spec.round_half_away (10 * (Zpos n # t)) = ((20 * Zpos n + Zpos t) / (2 * Zpos t))%Z.
Proof.
  unfold Spec.round_half_away.
  assert (Qle_bool 0 (10 * (Zpos n # t)) = true) as ->
    by (rewrite Qle_bool_iff; unfold Qle, Qmult; cbn [Qnum Qden]; lia).
  apply Qfloor_tenths_half.
Qed.

(** The quotient of two whole numbers with one decimal, against the
    specification's rounding. *)
Lemma quotient_one_decimal (n t : positive) :
  (Zpos n < 2 ^ 48)%Z -> (Zpos t < 2 ^ 53)%Z ->
  let q := (Zpos n # t)%Q in
  let y := parseFloat (toFixed_1 (number_of_Z (Zpos n) / number_of_Z (Zpos t))) in
  y = Spec.round1_half_away q \/
  (Spec.tie (10 * q) = true /\
   y = RoundMV false (Spec.round_half_away (10 * q) - 1) (-1)).
Proof.
  intros Hn Ht q y. subst q y.
  rewrite round1_half_away_quotient, round_half_away_tenths.
  destruct (quotient_tenths n t Hn Ht) as [H|[Hh H]].
  - left. exact H.
  - right. split; [now apply tie_quotient|exact H].
Qed.

End JSFacts.

Module DosingQuizFacts.

Import JS DosingQuiz Scoring.

Local Open Scope float_scope.

Lemma strict_eq_Num_Null x : strict_eq (Num x) Null = false.
Proof. reflexivity. Qed.

Lemma strict_eq_Num_Undefined x : strict_eq (Num x) Undefined = false.
Proof. reflexivity. Qed.

Lemma checkAnswer_incomplete r p q :
  incomplete p = true ->
  checkAnswer r p q =
    (Alert "Please fill in all fields before checking your answer!", p, q).
Proof.
  unfold incomplete, checkAnswer. intros H.
  rewrite strict_eq_Num_Null, strict_eq_Num_Undefined, !orb_false_r, H.
  reflexivity.
Qed.

Lemma checkAnswer_no_food r p q :
  incomplete p = false -> currentFood q = None ->
  checkAnswer r p q = (TypeError, p, q).
Proof.
  unfold incomplete, checkAnswer. intros H H0.
  rewrite strict_eq_Num_Null, strict_eq_Num_Undefined, !orb_false_r, H, H0.
  reflexivity.
Qed.

Lemma checkAnswer_scored r p q food :
  incomplete p = false -> currentFood q = Some food ->
  exists p',
    checkAnswer r p q =
      (Done, p',
       {| currentFood := currentFood q; currentPortion := currentPortion q;
          currentBG := currentBG q; userSettings := userSettings q;
          stats := scored_stats (scored_tier p q food) (stats q) |})
    /\ stats_panel p' = Some (updateStats (scored_stats (scored_tier p q food) (stats q)))
    /\ exists fb, feedback_section p' = Some fb
         /\ fb_type fb = scored_tier p q food
         /\ correctCarbs (fb_data fb) = netCarbs (correctAnswer food (currentPortion q) (currentBG q) (userSettings q))
         /\ correctInsulinCarbs (fb_data fb) = insulinForCarbs (correctAnswer food (currentPortion q) (currentBG q) (userSettings q))
         /\ correctInsulinCorrection (fb_data fb) = correctionDose (correctAnswer food (currentPortion q) (currentBG q) (userSettings q))
         /\ correctTotalDose (fb_data fb) = totalDose (correctAnswer food (currentPortion q) (currentBG q) (userSettings q)).
Proof.
  unfold incomplete, checkAnswer. intros H H0.
  rewrite strict_eq_Num_Null, strict_eq_Num_Undefined, !orb_false_r, H, H0.
  eexists. split; [reflexivity|]. split; [reflexivity|].
  eexists. split; [reflexivity|]. repeat split.
Qed.

Lemma tier_nan_total u uc c :
  PrimFloat.is_nan u = true -> tier u uc c = incorrect.
Proof.
  intros H. unfold tier.
  rewrite !(Binary64.nan_leb_l (abs (u - totalDose c))); auto using Binary64.nan_abs, Binary64.nan_sub_l.
Qed.

Lemma tier_exact u uc c dd cd :
  exact (abs (u - totalDose c)) = Some dd ->
  exact (abs (uc - netCarbs c)) = Some cd ->
  tier u uc c = Spec.tier dd cd.
Proof.
  intros Hd Hc. unfold tier, Spec.tier.
  rewrite (JSFacts.leb_three_tenths _ _ Hd).
  rewrite (JSFacts.leb_exact _ 2%float _ 2%Q Hc) by reflexivity.
  rewrite (JSFacts.leb_exact _ 1%float _ 1%Q Hd) by reflexivity.
  rewrite (JSFacts.leb_exact _ 5%float _ 5%Q Hc) by reflexivity.
  reflexivity.
Qed.

Lemma tier_unbounded u uc c :
  exact (abs (u - totalDose c)) = None \/ exact (abs (uc - netCarbs c)) = None ->
  tier u uc c = incorrect.
Proof.
  intros [H|H]; unfold tier.
  - rewrite (JSFacts.leb_abs_unbounded _ 0.3%float _ H ltac:(vm_compute; reflexivity)).
    rewrite (JSFacts.leb_abs_unbounded _ 1%float _ H ltac:(vm_compute; reflexivity)).
    reflexivity.
  - rewrite (JSFacts.leb_abs_unbounded _ 2%float _ H ltac:(vm_compute; reflexivity)).
    rewrite (JSFacts.leb_abs_unbounded _ 5%float _ H ltac:(vm_compute; reflexivity)).
    rewrite !andb_false_r. reflexivity.
Qed.

Lemma incomplete_numeric p :
  numeric_answers p = true -> incomplete p = zero_answer p.
Proof.
  unfold numeric_answers, incomplete, zero_answer, not, ToBoolean.
  intros H. apply andb_prop in H as [H _]. apply andb_prop in H as [H1 H2].
  apply negb_true_iff in H1, H2. now rewrite H1, H2, !negb_involutive, !orb_false_r.
Qed.

Lemma checkAnswer_zero r p q :
  numeric_answers p = true -> zero_answer p = true ->
  checkAnswer r p q =
    (Alert "Please fill in all fields before checking your answer!", p, q).
Proof.
  intros Hn Hz. apply checkAnswer_incomplete. now rewrite incomplete_numeric.
Qed.

Lemma checkAnswer_graded r p q food :
  currentFood q = Some food ->
  numeric_answers p = true -> zero_answer p = false ->
  let c := correctAnswer food (currentPortion q) (currentBG q) (userSettings q) in
  let t := tier (parseFloat (total_dose p)) (parseFloat (carbs_eating p)) c in
  exists p' fb,
    checkAnswer r p q =
      (Done, p',
       {| currentFood := currentFood q; currentPortion := currentPortion q;
          currentBG := currentBG q; userSettings := userSettings q;
          stats := scored_stats t (stats q) |}) /\
    stats_panel p' = Some (updateStats (scored_stats t (stats q))) /\
    feedback_section p' = Some fb /\
    fb_type fb = t /\
    correctCarbs (fb_data fb) = netCarbs c /\
    correctInsulinCarbs (fb_data fb) = insulinForCarbs c /\
    correctInsulinCorrection (fb_data fb) = correctionDose c /\
    correctTotalDose (fb_data fb) = totalDose c.
Proof.
  intros Hf Hn Hz. cbv zeta.
  assert (incomplete p = false) as Hi by now rewrite incomplete_numeric.
  destruct (checkAnswer_scored r p q food Hi Hf)
    as (p' & E & S & fb & Hfb & Ht & H1 & H2 & H3 & H4).
  exists p', fb. unfold scored_tier in *. repeat split; assumption.
Qed.

(** The tier of a total dose of one decimal and a whole number of
    grams against reference values of the same kind: the one of the
    specification's table on the decimals, when the doses are not
    exactly 0.3 or 1 apart. *)
Lemma tier_decimal a b k n u uc c :
  (0 <= a < 2 ^ 48)%Z -> (0 <= b < 2 ^ 48)%Z ->
  (Z.abs k < 2 ^ 52)%Z -> (Z.abs n < 2 ^ 52)%Z ->
  u = RoundMV false a (-1) -> totalDose c = RoundMV false b (-1) ->
  uc = number_of_Z k -> netCarbs c = number_of_Z n ->
  (Z.abs (a - b) <> 3)%Z -> (Z.abs (a - b) <> 10)%Z ->
  tier u uc c = Spec.grade (a # 10) (inject_Z k) (b # 10) (inject_Z n).
Proof.
  intros Ha Hb Hk Hn -> Et -> En H3 H10. unfold tier. rewrite Et, En.
  destruct (JSFacts.dose_tests_decimal a b Ha Hb) as [D3 D10].
  destruct (JSFacts.carbs_tests_whole k n Hk Hn) as [C2 C5].
  cbv zeta in D3, D10, C2, C5. rewrite (D3 H3), (D10 H10), C2, C5.
  unfold Spec.grade, Spec.tier.
  assert (forall c, Qle_bool (Qabs ((a # 10) - (b # 10))) (c # 10) = (Z.abs (a - b) <=? c)%Z)
    as HD.
  { intros c0. apply eq_true_iff_eq. rewrite Qle_bool_iff, Z.leb_le.
    unfold Qle, Qabs, Qminus, Qplus, Qopp. cbn [Qnum Qden]. lia. }
  assert (forall c, Qle_bool (Qabs (inject_Z k - inject_Z n)) (c # 1)
                    = (Z.abs (k - n) <=? c)%Z) as HC.
  { intros c0. apply eq_true_iff_eq. rewrite Qle_bool_iff, Z.leb_le.
    unfold Qle, Qabs, Qminus, Qplus, Qopp, inject_Z. cbn [Qnum Qden]. lia. }
  rewrite (HD 3%Z), (HC 2%Z), (HC 5%Z).
  assert (Qle_bool (Qabs ((a # 10) - (b # 10))) 1 = (Z.abs (a - b) <=? 10)%Z) as ->.
  { apply eq_true_iff_eq. rewrite Qle_bool_iff, Z.leb_le.
    unfold Qle, Qabs, Qminus, Qplus, Qopp. cbn [Qnum Qden]. lia. }
  reflexivity.
Qed.

(** C1 (the code departs from it).  A submission whose total dose is
    missing or not numeric, the two other required answers being filled
    in, is not turned away: [checkAnswer] scores it, counts the attempt
    and shows the tier [incorrect].  The guard compares the parsed total
    dose with [null] and [undefined], which [parseFloat] never returns. *)
Theorem missing_total_dose_is_scored r p q food :
  incomplete p = false ->
  currentFood q = Some food ->
  PrimFloat.is_nan (parseFloat (total_dose p)) = true ->
  exists p' q' fb,
    checkAnswer r p q = (Done, p', q') /\
    totalAttempts (stats q') = (totalAttempts (stats q) + 1)%N /\
    feedback_section p' = Some fb /\
    fb_type fb = incorrect.
Proof.
  intros Hi Hf Hn.
  destruct (checkAnswer_scored r p q food Hi Hf) as (p' & E & _ & fb & Hfb & Ht & _).
  exists p'. eexists. exists fb. split; [exact E|]. split; [reflexivity|].
  split; [exact Hfb|]. rewrite Ht. unfold scored_tier. now apply tier_nan_total.
Qed.

Lemma missing_total_dose_is_scored_witness :
  incomplete (submission "17" "1.7" "" "") = false /\
  currentFood scenario1 = Some Cheerios /\
  PrimFloat.is_nan (parseFloat (total_dose (submission "17" "1.7" "" ""))) = true /\
  exists p' q' fb,
    checkAnswer 0 (submission "17" "1.7" "" "") scenario1 = (Done, p', q') /\
    totalAttempts (stats q') = 1%N /\
    feedback_section p' = Some fb /\
    fb_type fb = incorrect.
Proof.
  split; [vm_compute; reflexivity|].
  split; [reflexivity|].
  split; [vm_compute; reflexivity|].
  apply (missing_total_dose_is_scored 0 (submission "17" "1.7" "" "") scenario1 Cheerios);
    vm_compute; reflexivity.
Defined.

(** The two other required answers are checked as the claim says: when
    the carbs or the insulin-for-carbs answer is missing or not numeric,
    the call ends with the alert and changes neither page nor state. *)
Lemma missing_carbs_or_insulin_is_rejected r p q :
  PrimFloat.is_nan (parseFloat (carbs_eating p)) = true \/
  PrimFloat.is_nan (parseFloat (insulin_carbs p)) = true ->
  checkAnswer r p q =
    (Alert "Please fill in all fields before checking your answer!", p, q).
Proof.
  intros H. apply checkAnswer_incomplete. unfold incomplete, not, ToBoolean.
  destruct H as [H|H]; rewrite H, ?orb_true_r; reflexivity.
Qed.

(** C3, as stated, fails.  Against the first scenario, whose reference
    total dose is 2.7 units for 17 g of carbs, a total dose of 2.4 is
    0.3 units off and the table makes it [correct], and a total dose of
    1.7 is 1 unit off and the table makes it [close]; the script shows
    [close] and [incorrect]: it subtracts the doubles nearest to the
    decimals, and those differences are just above 0.3 and 1. *)
Lemma tier_at_threshold_fails :
  let c := correctAnswer Cheerios 1 150 (userSettings scenario1) in
  let shown p := option_map fb_type (feedback_section (snd (fst (checkAnswer 0 p scenario1)))) in
  totalDose c = RoundMV false 27 (-1) /\ exact (netCarbs c) = Some 17%Q /\
  parseFloat "2.4" = RoundMV false 24 (-1) /\
  parseFloat "1.7" = RoundMV false 17 (-1) /\
  exact (parseFloat "17") = Some 17%Q /\
  numeric_answers (submission "17" "1.7" "1.0" "2.4") = true /\
  numeric_answers (submission "17" "1.7" "1.0" "1.7") = true /\
  Spec.grade (24 # 10) 17 (27 # 10) 17 = correct /\
  shown (submission "17" "1.7" "1.0" "2.4") = Some close /\
  shown (submission "17" "1.7" "1.0" "2.4") <> Some (Spec.grade (24 # 10) 17 (27 # 10) 17) /\
  Spec.grade (17 # 10) 17 (27 # 10) 17 = close /\
  shown (submission "17" "1.7" "1.0" "1.7") = Some incorrect /\
  shown (submission "17" "1.7" "1.0" "1.7") <> Some (Spec.grade (17 # 10) 17 (27 # 10) 17).
Proof.
  cbv zeta. repeat split; try (vm_compute; reflexivity); vm_compute; discriminate.
Qed.

(** C3, amended.  For every submission whose three required answers
    are numeric, against the current scenario: when the carbs or the
    insulin-for-carbs answer is zero, the input check turns the
    submission away and no tier is given; otherwise the tier shown is
    the one of the specification's table, [correct] when the dose
    difference is at most 0.3 and the carbs difference at most 2,
    otherwise [close] when they are at most 1 and at most 5, otherwise
    [incorrect], where the two differences are the exact values of the
    doubles the script computes from the doubles nearest to the typed
    answers and the reference values it displays; a difference that is
    infinite or not a number is above every threshold.  On the decimals
    themselves, a total dose of one decimal and a whole number of grams
    against a reference of the same kind, the tier is the one of the
    table whenever the two doses are not exactly 0.3 or exactly 1
    apart. *)
Theorem tier_policy r p q food :
  currentFood q = Some food ->
  numeric_answers p = true ->
  let c := correctAnswer food (currentPortion q) (currentBG q) (userSettings q) in
  let doseDifference := abs (parseFloat (total_dose p) - totalDose c) in
  let carbsDifference := abs (parseFloat (carbs_eating p) - netCarbs c) in
  (zero_answer p = true ->
   checkAnswer r p q =
     (Alert "Please fill in all fields before checking your answer!", p, q)) /\
  (zero_answer p = false ->
   exists p' q' fb,
     checkAnswer r p q = (Done, p', q') /\
     feedback_section p' = Some fb /\
     correctTotalDose (fb_data fb) = totalDose c /\
     correctCarbs (fb_data fb) = netCarbs c /\
     (forall dd cd,
        exact doseDifference = Some dd -> exact carbsDifference = Some cd ->
        fb_type fb = Spec.tier dd cd) /\
     (exact doseDifference = None \/ exact carbsDifference = None ->
      fb_type fb = incorrect) /\
     (forall a b k n,
        (0 <= a < 2 ^ 48)%Z -> (0 <= b < 2 ^ 48)%Z ->
        (Z.abs k < 2 ^ 52)%Z -> (Z.abs n < 2 ^ 52)%Z ->
        parseFloat (total_dose p) = RoundMV false a (-1) ->
        totalDose c = RoundMV false b (-1) ->
        parseFloat (carbs_eating p) = number_of_Z k ->
        netCarbs c = number_of_Z n ->
        (Z.abs (a - b) <> 3)%Z -> (Z.abs (a - b) <> 10)%Z ->
        fb_type fb = Spec.grade (a # 10) (inject_Z k) (b # 10) (inject_Z n))).
Proof.
  intros Hf Hn. cbv zeta. split; intros Hz.
  - now apply checkAnswer_zero.
  - destruct (checkAnswer_graded r p q food Hf Hn Hz)
      as (p' & fb & E & _ & Hfb & Ht & Hc & _ & _ & Hd).
    exists p'. eexists. exists fb. split; [exact E|]. split; [exact Hfb|].
    split; [exact Hd|]. split; [exact Hc|]. rewrite Ht. split; [|split].
    + intros dd cd H1 H2. now apply tier_exact.
    + apply tier_unbounded.
    + intros a b k n Ha Hb Hk Hn' Eu Et Ec En H3 H10.
      now apply (tier_decimal a b k n).
Qed.

(** Example scenario 4 and the submission of the counterexample: a
    total dose of 3.5 against 2.7 is 0.8 apart and [close], on the
    decimals as on the doubles; a total dose of 2.4 is [close] by the
    difference of the doubles. *)
Lemma tier_policy_witness :
  let c := correctAnswer Cheerios 1 150 (userSettings scenario1) in
  currentFood scenario1 = Some Cheerios /\
  numeric_answers (submission "17" "1.7" "1.0" "3.5") = true /\
  zero_answer (submission "17" "1.7" "1.0" "3.5") = false /\
  numeric_answers (submission "17" "1.7" "1.0" "2.4") = true /\
  zero_answer (submission "17" "1.7" "1.0" "2.4") = false /\
  parseFloat "3.5" = RoundMV false 35 (-1) /\ totalDose c = RoundMV false 27 (-1) /\
  parseFloat "17" = number_of_Z 17 /\ netCarbs c = number_of_Z 17 /\
  Spec.grade (35 # 10) (inject_Z 17) (27 # 10) (inject_Z 17) = close /\
  (exists p' q' fb,
     checkAnswer 0 (submission "17" "1.7" "1.0" "3.5") scenario1 = (Done, p', q') /\
     feedback_section p' = Some fb /\ fb_type fb = close) /\
  exact (abs (parseFloat "2.4" - totalDose c))
    = Some (675539944105575 # 2251799813685248)%Q /\
  exact (abs (parseFloat "17" - netCarbs c)) = Some 0%Q /\
  Spec.tier (675539944105575 # 2251799813685248) 0 = close /\
  (exists p' q' fb,
     checkAnswer 0 (submission "17" "1.7" "1.0" "2.4") scenario1 = (Done, p', q') /\
     feedback_section p' = Some fb /\ fb_type fb = close).
Proof.
  cbv zeta.
  split; [reflexivity|]. split; [vm_compute; reflexivity|].
  split; [vm_compute; reflexivity|]. split; [vm_compute; reflexivity|].
  split; [vm_compute; reflexivity|]. split; [vm_compute; reflexivity|].
  split; [vm_compute; reflexivity|]. split; [vm_compute; reflexivity|].
  split; [vm_compute; reflexivity|]. split; [vm_compute; reflexivity|].
  split.
  - destruct (tier_policy 0 (submission "17" "1.7" "1.0" "3.5") scenario1 Cheerios
                eq_refl ltac:(vm_compute; reflexivity)) as [_ H].
    destruct (H ltac:(vm_compute; reflexivity))
      as (p' & q' & fb & E & Hfb & _ & _ & _ & _ & Ht).
    exists p', q', fb. split; [exact E|]. split; [exact Hfb|].
    rewrite (Ht 35%Z 27%Z 17%Z 17%Z); try (vm_compute; reflexivity);
      try (split; vm_compute; congruence); try (vm_compute; congruence).
  - split; [vm_compute; reflexivity|]. split; [vm_compute; reflexivity|].
    split; [vm_compute; reflexivity|].
    destruct (tier_policy 0 (submission "17" "1.7" "1.0" "2.4") scenario1 Cheerios
                eq_refl ltac:(vm_compute; reflexivity)) as [_ H].
    destruct (H ltac:(vm_compute; reflexivity))
      as (p' & q' & fb & E & Hfb & _ & _ & Ht & _).
    exists p', q', fb. split; [exact E|]. split; [exact Hfb|].
    rewrite (Ht (675539944105575 # 2251799813685248)%Q 0%Q);
      vm_compute; reflexivity.
Defined.

(** The tiers on the first scenario (reference dose 2.7 units for 17 g
    of net carbs).  A total dose of 2.4 is [close] and not [correct]:
    the double [2.4 - 2.7] is just beyond [0.3] in absolute value. *)
Example tier_examples :
  tier 2.7 17 (correctAnswer Cheerios 1 150 (userSettings scenario1)) = correct /\
  tier 3.5 17 (correctAnswer Cheerios 1 150 (userSettings scenario1)) = close /\
  tier 2.4 17 (correctAnswer Cheerios 1 150 (userSettings scenario1)) = close /\
  tier 2.7 23 (correctAnswer Cheerios 1 150 (userSettings scenario1)) = incorrect /\
  tier 4 17 (correctAnswer Cheerios 1 150 (userSettings scenario1)) = incorrect.
Proof. vm_compute. repeat split. Qed.




Example scenario3_correct :
  exists p',
    checkAnswer 0 (submission "17" "1.7" "1.0" "2.7") scenario1 =
      (Done, p',
       {| currentFood := Some Cheerios; currentPortion := 1; currentBG := 150;
          userSettings := userSettings scenario1;
          stats := {| totalAttempts := 1; correctAnswers := 1 |} |})
    /\ option_map fb_type (feedback_section p') = Some correct
    /\ option_map accuracy_text (stats_panel p') = Some 100.
Proof. eexists. vm_compute. repeat split. Qed.

Example scenario4_close :
  exists p',
    checkAnswer 0 (submission "17" "1.7" "1.0" "3.5") scenario1 =
      (Done, p',
       {| currentFood := Some Cheerios; currentPortion := 1; currentBG := 150;
          userSettings := userSettings scenario1;
          stats := {| totalAttempts := 1; correctAnswers := 0 |} |})
    /\ option_map fb_type (feedback_section p') = Some close.
Proof. eexists. vm_compute. repeat split. Qed.

(** Over a whole session: the answers of each attempt are typed into
    the page and checked in turn. *)
Lemma checkAnswer_stats_cases r p q :
  let q' := snd (checkAnswer r p q) in
  stats q' = stats q \/
  (totalAttempts (stats q') = (totalAttempts (stats q) + 1)%N /\
   (correctAnswers (stats q') = correctAnswers (stats q) \/
    correctAnswers (stats q') = (correctAnswers (stats q) + 1)%N)).
Proof.
  cbv zeta. destruct (incomplete p) eqn:Hi.
  - rewrite checkAnswer_incomplete by assumption. now left.
  - destruct (currentFood q) as [food|] eqn:Hf.
    + destruct (checkAnswer_scored r p q food Hi Hf) as (p' & E & _).
      rewrite E. right. cbn [snd stats scored_stats totalAttempts correctAnswers].
      split; [reflexivity|]. destruct (scored_tier p q food); auto.
    + rewrite checkAnswer_no_food by assumption. now left.
Qed.

Lemma session_correct_le_total (l : list (number * Page)) q :
  (correctAnswers (stats q) <= totalAttempts (stats q))%N ->
  (correctAnswers (stats (session l q)) <= totalAttempts (stats (session l q)))%N.
Proof.
  revert q. induction l as [|[r p] l IH]; intros q H; [exact H|].
  cbn [session]. apply IH.
  destruct (checkAnswer_stats_cases r p q) as [E|[E1 [E2|E2]]].
  - now rewrite E.
  - rewrite E1, E2. lia.
  - rewrite E1, E2. lia.
Qed.




(** The correction answer takes no part in the input check either: it
    reaches nothing but the data shown with the solution. *)
Lemma correction_answer_only_displayed r p q s :
  let p2 := {| carb_ratio := carb_ratio p; correction_factor := correction_factor p;
               target_bg := target_bg p; carbs_eating := carbs_eating p;
               insulin_carbs := insulin_carbs p; insulin_correction := s;
               total_dose := total_dose p; feedback_section := feedback_section p;
               current_bg := current_bg p; nutrition_label := nutrition_label p;
               stats_panel := stats_panel p |} in
  fst (fst (checkAnswer r p2 q)) = fst (fst (checkAnswer r p q)) /\
  snd (checkAnswer r p2 q) = snd (checkAnswer r p q) /\
  stats_panel (snd (fst (checkAnswer r p2 q))) = stats_panel (snd (fst (checkAnswer r p q))) /\
  option_map fb_type (feedback_section (snd (fst (checkAnswer r p2 q)))) =
    option_map fb_type (feedback_section (snd (fst (checkAnswer r p q)))).
Proof.
  cbv zeta. unfold checkAnswer. cbn [carbs_eating insulin_carbs total_dose].
  destruct (_ || _); [repeat split|].
  destruct (currentFood q); repeat split.
Qed.

(** C5, as stated, fails.  A blood glucose of 135 against a target of
    100 with a correction factor of 100: 35 / 100 = 0.35 rounds to 0.4
    units, but the double nearest to 0.35 lies below it and
    [toFixed(1)] writes 0.3. *)
Lemma correction_rounding_fails :
  let s := {| carbRatio := 10; correctionFactor := 100; targetBG := 100 |} in
  let c := correctAnswer Cheerios 1 135 s in
  Interaction.validSettings s = true /\ (targetBG s <? 135) = true /\
  exact 135 = Some (135 # 1)%Q /\ exact (targetBG s) = Some (100 # 1)%Q /\
  exact (correctionFactor s) = Some (100 # 1)%Q /\
  correctionDose c = 0.3 /\
  Spec.round1_half_away (((135 # 1) - (100 # 1)) / (100 # 1)) = 0.4 /\
  correctionDose c <> Spec.round1_half_away (((135 # 1) - (100 # 1)) / (100 # 1)).
Proof.
  cbv zeta. repeat split; try (vm_compute; reflexivity).
  intros H. apply (f_equal Prim2SF) in H. vm_compute in H. discriminate.
Qed.

(** C5, amended.  For every blood glucose, target and positive (finite)
    correction factor, the correction dose is at least 0; it is exactly
    0 whenever the blood glucose is at or below the target; and above
    the target it is the rounding, half away from zero to one decimal,
    of the exact value of the double computed for the difference over
    the correction factor.  For whole numbers of blood glucose, target
    and correction factor it is the rounding of the exact quotient
    itself, except that a quotient exactly halfway between two decimals
    can go to the lower one. *)
Theorem correction_dose_spec food portion bg s :
  (0 <? correctionFactor s) = true ->
  (correctionFactor s <? infinity) = true ->
  let c := correctAnswer food portion bg s in
  (0 <=? correctionDose c) = true /\
  ((bg <=? targetBG s) = true -> correctionDose c = 0) /\
  (forall x, (targetBG s <? bg) = true ->
     exact ((bg - targetBG s) / correctionFactor s) = Some x ->
     correctionDose c = Spec.round1_half_away x) /\
  (forall b g d f,
     bg = number_of_Z b -> targetBG s = number_of_Z g ->
     correctionFactor s = number_of_Z (Zpos f) ->
     (0 <= g < b)%Z -> (b < 2 ^ 48)%Z -> (Zpos f < 2 ^ 53)%Z ->
     (b - g = Zpos d)%Z ->
     correctionDose c = Spec.round1_half_away (Zpos d # f) \/
     (Spec.tie (10 * (Zpos d # f)) = true /\
      correctionDose c
      = RoundMV false (Spec.round_half_away (10 * (Zpos d # f)) - 1) (-1))).
Proof.
  intros Hp Hf. cbv zeta. cbn [correctAnswer correctionDose]. unfold gt.
  split; [|split; [|split]].
  - destruct (0 <? bg - targetBG s) eqn:Hd; [|reflexivity].
    apply Binary64.leb_zero_iff, JSFacts.parseFloat_toFixed_1_nonneg.
    rewrite div_spec.
    apply Binary64.ltb_zero_iff in Hd.
    destruct (proj1 (Binary64.ltb_infinity_iff _) (conj Hp Hf)) as (m & e & ->).
    destruct (Prim2SF (bg - targetBG s)) as [sd|sd| |sd md ed]; simpl in Hd;
      try tauto; subst sd.
    + reflexivity.
    + apply (Binary64.SFdiv_finite_sign false md ed false m e).
  - intros H. now rewrite (Binary64.sub_not_positive _ _ H).
  - intros x H Hx. rewrite (Binary64.sub_positive _ _ H).
    now apply JSFacts.parseFloat_toFixed_1_exact.
  - intros b g d f -> -> -> Hg Hb Hf' Hd.
    assert (2 ^ 48 < 2 ^ 52)%Z as H4852 by reflexivity.
    rewrite (JSFacts.sub_whole b g) by lia. rewrite Hd.
    assert ((0 <? number_of_Z (Zpos d)) = true) as ->.
    { apply Binary64.ltb_zero_iff.
      destruct (JSFacts.Prim2SF_number_of_pos d) as (mz & _ & ->); [lia|reflexivity]. }
    apply JSFacts.quotient_one_decimal; lia.
Qed.

(** At the input where the claim as stated fails: the double computed
    for 35 / 100 is just below 0.35 and its rounding to one decimal is
    0.3; 35 / 100 is halfway between 0.3 and 0.4, and the correction is
    the lower one. *)
Lemma correction_dose_spec_witness :
  let s := {| carbRatio := 10; correctionFactor := 100; targetBG := 100 |} in
  let c := correctAnswer Cheerios 1 135 s in
  (0 <? correctionFactor s) = true /\
  (correctionFactor s <? infinity) = true /\
  (0 <=? correctionDose c) = true /\
  (targetBG s <? 135) = true /\
  exact ((135 - targetBG s) / correctionFactor s)
    = Some (3152519739159347 # 9007199254740992)%Q /\
  correctionDose c = Spec.round1_half_away (3152519739159347 # 9007199254740992) /\
  135 = number_of_Z 135 /\ targetBG s = number_of_Z 100 /\
  correctionFactor s = number_of_Z 100 /\
  Spec.tie (10 * (35 # 100)) = true /\
  correctionDose c = RoundMV false (Spec.round_half_away (10 * (35 # 100)) - 1) (-1) /\
  correctionDose (correctAnswer Cheerios 1 90 s) = 0.
Proof.
  cbv zeta.
  set (s := {| carbRatio := 10; correctionFactor := 100; targetBG := 100 |}).
  destruct (correction_dose_spec Cheerios 1 135 s eq_refl eq_refl)
    as (H1 & _ & H3 & H4).
  destruct (correction_dose_spec Cheerios 1 90 s eq_refl eq_refl)
    as (_ & H2 & _).
  split; [reflexivity|]. split; [reflexivity|]. split; [exact H1|].
  split; [reflexivity|]. split; [vm_compute; reflexivity|].
  split; [apply H3; vm_compute; reflexivity|].
  split; [vm_compute; reflexivity|]. split; [vm_compute; reflexivity|].
  split; [vm_compute; reflexivity|]. split; [vm_compute; reflexivity|].
  split.
  { destruct (H4 135%Z 100%Z 35%positive 100%positive
                ltac:(vm_compute; reflexivity) ltac:(vm_compute; reflexivity)
                ltac:(vm_compute; reflexivity) ltac:(lia)
                ltac:(vm_compute; reflexivity) ltac:(vm_compute; reflexivity)
                ltac:(reflexivity))
      as [H|[_ H]]; [|exact H].
    exfalso. apply (f_equal Prim2SF) in H. vm_compute in H. discriminate. }
  apply H2. reflexivity.
Defined.

(** Example scenarios 1 and 2: blood glucose 150 over a target of 100
    gives a correction of 1.0, blood glucose 90 gives none. *)
Example correction_examples :
  correctionDose (correctAnswer Cheerios 1 150 (userSettings scenario1)) = 1 /\
  correctionDose (correctAnswer Cheerios 1 90 (userSettings scenario1)) = 0 /\
  totalDose (correctAnswer Cheerios 1 90 (userSettings scenario1)) = 1.7.
Proof. vm_compute. repeat split. Qed.

(** The invariant of the catalog. *)
Lemma catalog_fiber_le_carbs :
  forallb (fun food => fiber food <=? totalCarbs food) foodDatabase = true.
Proof. reflexivity. Qed.

(** C9.  For every food with [fiber <= totalCarbs] and every positive
    portion, the reference net carbs are never negative, and for finite
    carbs and portion they are a number that is at least 0; every one of
    the twelve entries of the catalog has [fiber <= totalCarbs]. *)
Theorem net_carbs_never_negative food portion bg s :
  (fiber food <=? totalCarbs food) = true ->
  (0 <? portion) = true ->
  let c := correctAnswer food portion bg s in
  (netCarbs c <? 0) = false /\
  (PrimFloat.is_finite (totalCarbs food) = true ->
   PrimFloat.is_finite portion = true ->
   (0 <=? netCarbs c) = true) /\
  List.length foodDatabase = 12%nat /\
  (forall f, In f foodDatabase -> (fiber f <=? totalCarbs f) = true).
Proof.
  intros Hle Hp. cbv zeta. cbn [correctAnswer netCarbs].
  rewrite leb_spec in Hle. apply Binary64.ltb_zero_iff in Hp.
  destruct (Binary64.SFsub_nonneg (Prim2SF (totalCarbs food)) (Prim2SF (fiber food))
              (Prim2SF_valid _) (Prim2SF_valid _) Hle) as [Hs Hsf].
  fold SF64sub in Hs, Hsf. rewrite <- sub_spec in Hs, Hsf.
  split; [|split; [|split]].
  - apply Binary64.ltb_zero_r_false.
    destruct Hs as [Hs|Hs].
    + destruct (Binary64.SFmul_nonneg _ _ Hs Hp) as [[Hm|Hm] _];
        fold SF64mul in Hm; rewrite <- mul_spec in Hm.
      * left. now apply JSFacts.Math_round_nonneg.
      * right. now rewrite JSFacts.Math_round_nan.
    + right. rewrite JSFacts.Math_round_nan; rewrite mul_spec, Hs; reflexivity.
  - intros Ft Fp. apply Binary64.leb_zero_iff, JSFacts.Math_round_nonneg.
    apply Binary64.is_finite_iff in Ft, Fp.
    rewrite mul_spec. apply Binary64.SFmul_nonneg; auto.
  - reflexivity.
  - apply forallb_forall. exact catalog_fiber_le_carbs.
Qed.

Lemma net_carbs_never_negative_witness :
  (fiber Cheerios <=? totalCarbs Cheerios) = true /\
  (0 <? 1.5) = true /\
  let c := correctAnswer Cheerios 1.5 150 (userSettings scenario1) in
  (netCarbs c <? 0) = false /\
  (PrimFloat.is_finite (totalCarbs Cheerios) = true ->
   PrimFloat.is_finite 1.5 = true ->
   (0 <=? netCarbs c) = true) /\
  List.length foodDatabase = 12%nat /\
  (forall f, In f foodDatabase -> (fiber f <=? totalCarbs f) = true).
Proof.
  split; [reflexivity|]. split; [reflexivity|].
  apply (net_carbs_never_negative Cheerios 1.5 150 (userSettings scenario1)); reflexivity.
Defined.

(** C2, as stated, fails.  Spaghetti with sauce, one serving, at a carb
    ratio of 20: the net carbs are 39 g and 39 / 20 = 1.95 rounds to
    2.0 units, but the double nearest to 1.95 lies below it and
    [toFixed(1)] writes 1.9; with a correction of 1.0 the total dose is
    2.9 where the claim gives 3.0. *)
Lemma insulin_for_carbs_rounding_fails :
  let Spaghetti :=
    {| name := "Spaghetti with Sauce"; servingSize := "1 cup (249g)";
       servingsPerContainer := 4; calories := 260; totalCarbs := 43;
       fiber := 4; sugars := 9; protein := 9; portions := [0.5; 1; 1.5; 2] |} in
  let s := {| carbRatio := 20; correctionFactor := 50; targetBG := 100 |} in
  let c := correctAnswer Spaghetti 1 150 s in
  In Spaghetti foodDatabase /\ In 1 (portions Spaghetti) /\ Interaction.validSettings s = true /\
  exact ((totalCarbs Spaghetti - fiber Spaghetti) * 1) = Some (39 # 1)%Q /\
  exact (netCarbs c) = Some (39 # 1)%Q /\
  exact (carbRatio s) = Some (20 # 1)%Q /\
  insulinForCarbs c = 1.9 /\
  Spec.round1_half_away ((39 # 1) / (20 # 1)) = 2 /\
  insulinForCarbs c <> Spec.round1_half_away ((39 # 1) / (20 # 1)) /\
  correctionDose c = 1 /\ totalDose c = 2.9 /\
  Spec.round1_half_away ((20 # 10) + (10 # 10)) = 3 /\
  totalDose c <> 3.
Proof.
  cbv zeta. repeat split; try (vm_compute; reflexivity).
  - cbn. tauto.
  - cbn. tauto.
  - intros H. apply (f_equal Prim2SF) in H. vm_compute in H. discriminate.
  - intros H. apply (f_equal Prim2SF) in H. vm_compute in H. discriminate.
Qed.

(** On the catalog the products are exact: the net carbs of every food
    in each of its portions are the rounding of the exact product. *)
Lemma catalog_net_carbs_exact :
  forallb (fun food =>
    forallb (fun portion =>
      match exact (totalCarbs food), exact (fiber food), exact portion,
            integer_value (Math_round ((totalCarbs food - fiber food) * portion)) with
      | Some a, Some b, Some m, Some n => (n =? Spec.round_half_up ((a - b) * m))%Z
      | _, _, _, _ => false
      end) (portions food)) foodDatabase = true.
Proof. vm_compute. reflexivity. Qed.

(** C2, amended.  The reference dose: the net carbs are the nearest
    integer, a tie going up, of the exact value of the double computed
    for the product of the net carbs per serving and the portion, which
    on the catalog is the exact product; the insulin for carbs is the
    rounding, half away from zero to one decimal, of the exact value of
    the double computed for the rounded net carbs over the carb ratio,
    and for a whole carb ratio it is the rounding of the exact quotient
    itself, except that a quotient exactly halfway between two decimals
    can go to the lower one; the total dose is the rounding to one
    decimal of the exact value of the double computed for the sum of
    the insulin for carbs and the correction, which is the sum of these
    two decimals itself; these are the reference values every graded
    submission is shown.  For Cheerios, one serving, carb ratio 10,
    correction factor 50, target 100 and blood glucose 150 they are 17,
    1.7, 1.0 and 2.7. *)
Theorem reference_dose_computation food portion bg s :
  let c := correctAnswer food portion bg s in
  (forall x, exact ((totalCarbs food - fiber food) * portion) = Some x ->
     integer_value (netCarbs c) = Some (Spec.round_half_up x)) /\
  (forall a b m,
     In food foodDatabase -> In portion (portions food) ->
     exact (totalCarbs food) = Some a -> exact (fiber food) = Some b ->
     exact portion = Some m ->
     integer_value (netCarbs c) = Some (Spec.round_half_up ((a - b) * m))) /\
  (forall x, exact (netCarbs c / carbRatio s) = Some x ->
     insulinForCarbs c = Spec.round1_half_away x) /\
  (forall n t,
     netCarbs c = number_of_Z (Zpos n) -> carbRatio s = number_of_Z (Zpos t) ->
     (Zpos n < 2 ^ 48)%Z -> (Zpos t < 2 ^ 53)%Z ->
     insulinForCarbs c = Spec.round1_half_away (Zpos n # t) \/
     (Spec.tie (10 * (Zpos n # t)) = true /\
      insulinForCarbs c
      = RoundMV false (Spec.round_half_away (10 * (Zpos n # t)) - 1) (-1))) /\
  (forall x, exact (insulinForCarbs c + correctionDose c) = Some x ->
     totalDose c = Spec.round1_half_away x) /\
  (forall x y,
     insulinForCarbs c = RoundMV false x (-1) -> correctionDose c = RoundMV false y (-1) ->
     (0 <= x < 2 ^ 47)%Z -> (0 <= y < 2 ^ 47)%Z ->
     totalDose c = Spec.round1_half_away ((x # 10) + (y # 10))) /\
  (forall r p q,
     numeric_answers p = true -> zero_answer p = false ->
     q = {| currentFood := Some food; currentPortion := portion; currentBG := bg;
            userSettings := s; stats := stats q |} ->
     exists p' q' fb,
       checkAnswer r p q = (Done, p', q') /\
       feedback_section p' = Some fb /\
       correctCarbs (fb_data fb) = netCarbs c /\
       correctInsulinCarbs (fb_data fb) = insulinForCarbs c /\
       correctInsulinCorrection (fb_data fb) = correctionDose c /\
       correctTotalDose (fb_data fb) = totalDose c) /\
  In Cheerios foodDatabase /\
  correctAnswer Cheerios 1 150
    {| carbRatio := 10; correctionFactor := 50; targetBG := 100 |} =
  {| netCarbs := 17; insulinForCarbs := 1.7; correctionDose := 1; totalDose := 2.7 |}.
Proof.
  cbv zeta. split; [intros x Hx; now apply JSFacts.Math_round_exact|].
  split.
  { intros a b m Hf Hp Ha Hb Hm. pose proof catalog_net_carbs_exact as H.
    rewrite forallb_forall in H. specialize (H food Hf).
    rewrite forallb_forall in H. specialize (H portion Hp).
    rewrite Ha, Hb, Hm in H. cbn [correctAnswer netCarbs].
    destruct (integer_value _) as [n|]; [|discriminate].
    apply Z.eqb_eq in H. now subst n. }
  split; [intros x Hx; now apply JSFacts.parseFloat_toFixed_1_exact|].
  split.
  { intros n t En Et Hn Ht. cbn [correctAnswer insulinForCarbs netCarbs] in *.
    rewrite En, Et. now apply JSFacts.quotient_one_decimal. }
  split; [intros x Hx; now apply JSFacts.parseFloat_toFixed_1_exact|].
  split.
  { intros x y Ex Ey Hx Hy. cbn [correctAnswer totalDose insulinForCarbs correctionDose] in *.
    rewrite Ex, Ey, JSFacts.sum_one_decimal, JSFacts.round1_half_away_sum by lia. reflexivity. }
  split.
  - intros r p q Hn Hz Hq.
    destruct (checkAnswer_graded r p q food ltac:(rewrite Hq; reflexivity) Hn Hz)
      as (p' & fb & E & _ & Hfb & _ & H1 & H2 & H3 & H4).
    exists p'. eexists. exists fb. split; [exact E|]. split; [exact Hfb|].
    rewrite H1, H2, H3, H4, Hq. cbn [currentPortion currentBG userSettings].
    repeat split.
  - split; [left; reflexivity|]. vm_compute. reflexivity.
Qed.

(** At the input where the claim as stated fails: the double computed
    for 39 / 20 is just below 1.95 and its rounding to one decimal is
    1.9; 39 / 20 is halfway between 1.9 and 2.0, and the insulin for
    carbs is the lower one.  At a carb ratio of 10 the quotient 3.9 is
    not halfway and the insulin for carbs is its rounding. *)
Lemma reference_dose_computation_witness :
  let Spaghetti :=
    {| name := "Spaghetti with Sauce"; servingSize := "1 cup (249g)";
       servingsPerContainer := 4; calories := 260; totalCarbs := 43;
       fiber := 4; sugars := 9; protein := 9; portions := [0.5; 1; 1.5; 2] |} in
  let s := {| carbRatio := 20; correctionFactor := 50; targetBG := 100 |} in
  let c := correctAnswer Spaghetti 1 150 s in
  exact ((totalCarbs Spaghetti - fiber Spaghetti) * 1) = Some (39 # 1)%Q /\
  integer_value (netCarbs c) = Some (Spec.round_half_up (39 # 1)) /\
  In Spaghetti foodDatabase /\ In 1 (portions Spaghetti) /\
  integer_value (netCarbs c) = Some (Spec.round_half_up (((43 # 1) - (4 # 1)) * (1 # 1))) /\
  exact (netCarbs c / carbRatio s) = Some (8782019273372467 # 4503599627370496)%Q /\
  insulinForCarbs c = Spec.round1_half_away (8782019273372467 # 4503599627370496) /\
  netCarbs c = number_of_Z 39 /\ carbRatio s = number_of_Z 20 /\
  Spec.tie (10 * (39 # 20)) = true /\
  insulinForCarbs c = RoundMV false (Spec.round_half_away (10 * (39 # 20)) - 1) (-1) /\
  exact (insulinForCarbs c + correctionDose c) = Some (6530219459687219 # 2251799813685248)%Q /\
  totalDose c = Spec.round1_half_away (6530219459687219 # 2251799813685248) /\
  insulinForCarbs c = RoundMV false 19 (-1) /\ correctionDose c = RoundMV false 10 (-1) /\
  totalDose c = Spec.round1_half_away ((19 # 10) + (10 # 10)) /\
  numeric_answers (submission "39" "2.0" "1.0" "3.0") = true /\
  zero_answer (submission "39" "2.0" "1.0" "3.0") = false /\
  exists p' q' fb,
    checkAnswer 0 (submission "39" "2.0" "1.0" "3.0")
      {| currentFood := Some Spaghetti; currentPortion := 1; currentBG := 150;
         userSettings := s; stats := {| totalAttempts := 0; correctAnswers := 0 |} |}
    = (Done, p', q') /\
    feedback_section p' = Some fb /\
    correctCarbs (fb_data fb) = 39 /\
    correctInsulinCarbs (fb_data fb) = 1.9 /\
    correctInsulinCorrection (fb_data fb) = 1 /\
    correctTotalDose (fb_data fb) = 2.9.
Proof.
  cbv zeta.
  set (Spaghetti :=
    {| name := "Spaghetti with Sauce"; servingSize := "1 cup (249g)";
       servingsPerContainer := 4; calories := 260; totalCarbs := 43;
       fiber := 4; sugars := 9; protein := 9; portions := [0.5; 1; 1.5; 2] |}).
  set (s := {| carbRatio := 20; correctionFactor := 50; targetBG := 100 |}).
  destruct (reference_dose_computation Spaghetti 1 150 s)
    as (H1 & H1' & H2 & H3 & H4 & H4' & H5 & _).
  assert (In Spaghetti foodDatabase) as HF by (cbn; tauto).
  assert (In 1 (portions Spaghetti)) as HP by (cbn; tauto).
  split; [vm_compute; reflexivity|].
  split; [apply H1; vm_compute; reflexivity|].
  split; [exact HF|]. split; [exact HP|].
  split; [apply H1'; try assumption; vm_compute; reflexivity|].
  split; [vm_compute; reflexivity|].
  split; [apply H2; vm_compute; reflexivity|].
  split; [vm_compute; reflexivity|]. split; [vm_compute; reflexivity|].
  split; [vm_compute; reflexivity|].
  split.
  { destruct (H3 39%positive 20%positive
                ltac:(vm_compute; reflexivity) ltac:(vm_compute; reflexivity)
                ltac:(vm_compute; reflexivity) ltac:(vm_compute; reflexivity))
      as [H|[_ H]]; [|exact H].
    exfalso. apply (f_equal Prim2SF) in H. vm_compute in H. discriminate. }
  split; [vm_compute; reflexivity|].
  split; [apply H4; vm_compute; reflexivity|].
  split; [vm_compute; reflexivity|]. split; [vm_compute; reflexivity|].
  split; [apply H4'; try (vm_compute; reflexivity); lia|].
  split; [vm_compute; reflexivity|]. split; [vm_compute; reflexivity|].
  destruct (H5 0 (submission "39" "2.0" "1.0" "3.0")
              {| currentFood := Some Spaghetti; currentPortion := 1; currentBG := 150;
                 userSettings := s; stats := {| totalAttempts := 0; correctAnswers := 0 |} |})
    as (p' & q' & fb & E & Hfb & F1 & F2 & F3 & F4);
    try (vm_compute; reflexivity).
  exists p', q', fb. split; [exact E|]. split; [exact Hfb|].
  rewrite F1, F2, F3, F4. vm_compute. repeat split.
Defined.

(** The rounded net carbs, not the raw product, go into the division:
    a serving and a half of apple is 31.5 g net, counted as 32 g, and at
    a carb ratio of 10 the insulin for carbs is 3.2, where the raw 31.5
    would have given 3.1 or 3.2 depending on the rounding of 3.15. *)
Example apple_one_and_a_half :
  let Apple :=
    {| name := "Apple (Medium)"; servingSize := "1 medium apple (182g)";
       servingsPerContainer := 1; calories := 95; totalCarbs := 25;
       fiber := 4; sugars := 19; protein := 0; portions := [0.5; 1; 1.5; 2] |} in
  In Apple foodDatabase /\
  netCarbs (correctAnswer Apple 1.5 150 (userSettings scenario1)) = 32 /\
  insulinForCarbs (correctAnswer Apple 1.5 150 (userSettings scenario1)) = 3.2.
Proof.
  cbv zeta. split; [right; right; left; reflexivity|].
  vm_compute. split; reflexivity.
Qed.

(** C4, as stated, fails.  Cheerios, one serving, at a carb ratio of 20:
    the net carbs are 17 and the exact quotient 17/20 = 0.85 rounds half
    away from zero to 0.9, but the double nearest to 0.85 lies below it
    and [toFixed(1)] writes 0.8. *)
Lemma exact_quotient_rounding_fails :
  let s := {| carbRatio := 20; correctionFactor := 50; targetBG := 100 |} in
  let c := correctAnswer Cheerios 1 150 s in
  exact (netCarbs c) = Some (17 # 1) /\
  exact (carbRatio s) = Some (20 # 1) /\
  insulinForCarbs c = 0.8 /\
  Spec.round1_half_away ((17 # 1) / (20 # 1)) = 0.9 /\
  insulinForCarbs c <> Spec.round1_half_away ((17 # 1) / (20 # 1)).
Proof.
  cbv zeta. repeat split; try (vm_compute; reflexivity).
  intros H. apply (f_equal Prim2SF) in H. vm_compute in H. discriminate.
Qed.

(** C7, as stated, fails.  Answering the first scenario 40 times, 23
    times with the right total dose and 17 times with a total dose of
    4 units, leaves 23 correct answers out of 40 attempts: the accuracy
    is 57.5, which rounds to 58; the script divides first, and the
    double 23/40 times 100 is 57.49999999999999, shown as 57. *)
Lemma accuracy_rounding_fails :
  let attempts :=
    (repeat (0, submission "17" "1.7" "1.0" "2.7") 23
     ++ repeat (0, submission "17" "1.7" "1.0" "4") 17)%list in
  let s := stats (session attempts scenario1) in
  s = {| totalAttempts := 40; correctAnswers := 23 |} /\
  accuracy_text (updateStats s) = 57 /\
  Spec.accuracyPercent s = 58%Z /\
  accuracy_text (updateStats s) <> number_of_Z (Spec.accuracyPercent s).
Proof.
  cbv zeta. repeat split; try (vm_compute; reflexivity).
  intros H. apply (f_equal Prim2SF) in H. vm_compute in H. discriminate.
Qed.

(** The blood glucose of a question, from the integer [k] that
    [Math.floor(Math.random() * 201)] yields. *)
Lemma blood_glucose_rounding :
  forallb (fun k =>
    PrimFloat.Leibniz.eqb (Math_round ((number_of_Z k + 80) / 5) * 5)
                          (number_of_Z (5 * ((k + 82) / 5))))
    (map Z.of_nat (seq 0 201)) = true.
Proof. vm_compute. reflexivity. Qed.

Lemma catalog_portions :
  forallb (fun food => negb (Nat.eqb (List.length (portions food)) 0)) foodDatabase = true.
Proof. reflexivity. Qed.



Example generated_scenario_example :
  let '(_, _, q') := generateQuestion 0.5 0.25 0.999 (submission "" "" "" "") initial in
  option_map name (currentFood q') = Some "Pizza (Frozen)"%string /\
  currentPortion q' = 1 /\ currentBG q' = 280.
Proof. vm_compute. repeat split. Qed.

(** C4, amended.  Each dose quantity is the rounding, half away from
    zero to one decimal place, of the exact value of the double the
    script computes for the quotient or the sum (and is the double
    nearest to that decimal); the net carbs are the nearest integer, a
    tie going up, of the exact value of the double computed for the
    product, which is the rounding half away from zero whenever that
    value is not negative. *)
Theorem rounding_of_computed_values food portion bg s :
  let c := correctAnswer food portion bg s in
  (forall q, exact (netCarbs c / carbRatio s) = Some q ->
     insulinForCarbs c = Spec.round1_half_away q) /\
  (forall q, (targetBG s <? bg) = true ->
     exact ((bg - targetBG s) / correctionFactor s) = Some q ->
     correctionDose c = Spec.round1_half_away q) /\
  (forall q, exact (insulinForCarbs c + correctionDose c) = Some q ->
     totalDose c = Spec.round1_half_away q) /\
  (forall q, exact ((totalCarbs food - fiber food) * portion) = Some q ->
     integer_value (netCarbs c) = Some (Spec.round_half_up q) /\
     ((0 <= q)%Q -> Spec.round_half_up q = Spec.round_half_away q)).
Proof.
  cbv zeta. cbn [correctAnswer netCarbs insulinForCarbs correctionDose totalDose].
  repeat split.
  - intros q Hq. now apply JSFacts.parseFloat_toFixed_1_exact.
  - intros q Hgt Hq. unfold gt. rewrite (Binary64.sub_positive _ _ Hgt).
    now apply JSFacts.parseFloat_toFixed_1_exact.
  - intros q Hq. now apply JSFacts.parseFloat_toFixed_1_exact.
  - now apply JSFacts.Math_round_exact.
  - apply JSFacts.round_half_up_nonneg.
Qed.

(** At the input where the claim as stated fails: the double computed
    for 17/20 is 7656119366529843 / 2^53, just below 0.85, and its
    rounding half away from zero to one decimal is 0.8. *)
Lemma rounding_of_computed_values_witness :
  let s := {| carbRatio := 20; correctionFactor := 50; targetBG := 100 |} in
  let c := correctAnswer Cheerios 1 150 s in
  exact (netCarbs c / carbRatio s) = Some (7656119366529843 # 9007199254740992) /\
  insulinForCarbs c = Spec.round1_half_away (7656119366529843 # 9007199254740992) /\
  exact ((150 - targetBG s) / correctionFactor s) = Some (1 # 1) /\
  correctionDose c = Spec.round1_half_away (1 # 1) /\
  exact ((totalCarbs Cheerios - fiber Cheerios) * 1) = Some (17 # 1) /\
  integer_value (netCarbs c) = Some (Spec.round_half_up (17 # 1)).
Proof.
  cbv zeta.
  pose proof (rounding_of_computed_values Cheerios 1 150
                {| carbRatio := 20; correctionFactor := 50; targetBG := 100 |})
    as (H1 & H2 & _ & H4).
  split; [vm_compute; reflexivity|].
  split; [apply H1; vm_compute; reflexivity|].
  split; [vm_compute; reflexivity|].
  split; [apply H2; vm_compute; reflexivity|].
  split; [vm_compute; reflexivity|].
  apply H4. vm_compute. reflexivity.
Defined.

Lemma accuracyPercent_pos (c : N) (t : positive) :
  Spec.accuracyPercent {| totalAttempts := Npos t; correctAnswers := c |}
  = ((200 * Z.of_N c + Zpos t) / (2 * Zpos t))%Z.
Proof.
  unfold Spec.accuracyPercent, Spec.round_half_up. cbn [totalAttempts correctAnswers N.eqb].
  rewrite (Qfloor_comp _ (Qmake (100 * Z.of_N c) t + (1 # 2))).
  - rewrite JSFacts.Qfloor_half. f_equal. lia.
  - apply Qplus_comp; [|reflexivity].
    unfold Qeq, Qdiv, Qmult, Qinv. cbn [Qnum Qden Z.of_N]. lia.
Qed.

Lemma halfway_pos (c : N) (t : positive) :
  ((200 * Z.of_N c + Zpos t) mod (2 * Zpos t) = 0)%Z ->
  halfway {| totalAttempts := Npos t; correctAnswers := c |} = true.
Proof.
  intros H. unfold halfway. cbn [totalAttempts correctAnswers Z.of_N].
  apply Z.mod_divide in H; [|lia]. destruct H as [j Hj].
  assert (200 * Z.of_N c = (2 * j - 1) * Zpos t)%Z as E by lia.
  rewrite E, Z.mod_mul, Z.div_mul by lia. cbn [Z.eqb andb].
  replace (2 * j - 1)%Z with (1 + 2 * (j - 1))%Z by lia.
  now rewrite Z.odd_add_mul_2.
Qed.

Lemma percentage_of_none (t : positive) :
  (Zpos t < 2 ^ 53)%Z ->
  Math_round (number_of_Z 0 / number_of_Z (Zpos t) * 100) = number_of_Z 0.
Proof.
  intros Ht.
  set (y := number_of_Z 0 / number_of_Z (Zpos t) * 100).
  assert (Prim2SF y = S754_zero false) as E.
  { subst y. rewrite mul_spec, div_spec.
    destruct (JSFacts.Prim2SF_number_of_pos t Ht) as (mz & _ & ->). reflexivity. }
  unfold Math_round. rewrite E, <- (SF2Prim_Prim2SF y), E. reflexivity.
Qed.

(** The accuracy shown against the specification's, for every pair of
    counts a session can reach in practice. *)
Lemma accuracy_shown (s : Stats) :
  (correctAnswers s < 2 ^ 44)%N -> (totalAttempts s < 2 ^ 53)%N ->
  let shown := accuracy_text (updateStats s) in
  shown = number_of_Z (Spec.accuracyPercent s) \/
  (halfway s = true /\ shown = number_of_Z (Spec.accuracyPercent s - 1)).
Proof.
  destruct s as [[|t] c]; cbv zeta; cbn [totalAttempts correctAnswers]; intros Hc Ht.
  - left. reflexivity.
  - unfold updateStats. cbn [accuracy_text totalAttempts correctAnswers N.ltb N.compare].
    rewrite accuracyPercent_pos. unfold number_of_N. cbn [Z.of_N].
    assert (Zpos t < 2 ^ 53)%Z as Ht' by lia.
    destruct c as [|c].
    + left. cbn [Z.of_N]. rewrite percentage_of_none by exact Ht'.
      rewrite Z.div_small by lia. reflexivity.
    + cbn [Z.of_N].
      assert (Zpos c < 2 ^ 44)%Z as Hc' by lia.
      destruct (JSFacts.Math_round_percentage c t Hc' Ht') as (B & L & HL & Herr & ->).
      pose proof (Z.pow_pos_nonneg 2 L ltac:(lia) HL) as HP.
      destruct (JSFacts.round_agrees (Zpos c) (Zpos t) B (2 ^ L) ltac:(lia) ltac:(lia) HP Herr)
        as [->|[Hhalf ->]].
      * left. reflexivity.
      * right. split; [|reflexivity]. now apply (halfway_pos (Npos c) t).
Qed.

(** C7, amended.  The accuracy shown is 0 when there is no attempt, and
    otherwise [Math.round] of the double [(correctAnswers /
    totalAttempts) * 100]: the nearest integer, a tie going up, of the
    exact value of that double, which has been rounded twice.  It is
    [round(100 * correctAnswers / totalAttempts)] except that, when this
    ratio lies exactly halfway between two integers, it can be the
    integer below (for fewer than [2 ^ 44] correct answers and fewer
    than [2 ^ 53] attempts, where the counters are exact). *)
Theorem displayed_accuracy (s : Stats) :
  let shown := accuracy_text (updateStats s) in
  let product :=
    number_of_N (correctAnswers s) / number_of_N (totalAttempts s) * 100 in
  (totalAttempts s = 0%N -> shown = 0 /\ Spec.accuracyPercent s = 0%Z) /\
  (totalAttempts s <> 0%N ->
   shown = Math_round product /\
   forall q, exact product = Some q ->
     integer_value shown = Some (Spec.round_half_up q)) /\
  ((correctAnswers s < 2 ^ 44)%N -> (totalAttempts s < 2 ^ 53)%N ->
   shown = number_of_Z (Spec.accuracyPercent s) \/
   (halfway s = true /\ shown = number_of_Z (Spec.accuracyPercent s - 1))).
Proof.
  cbv zeta. split; [|split].
  - intros H. unfold updateStats, Spec.accuracyPercent. cbn [accuracy_text].
    rewrite H. split; reflexivity.
  - intros H. unfold updateStats. cbn [accuracy_text].
    replace (0 <? totalAttempts s)%N with true by (symmetry; apply N.ltb_lt; lia).
    split; [reflexivity|]. intros q Hq. now apply JSFacts.Math_round_exact.
  - intros Hc Ht. now apply accuracy_shown.
Qed.

(** At the input where the claim as stated fails: 23 correct out of 40
    is halfway (57.5) and shows 57. *)
Lemma displayed_accuracy_witness :
  let s := {| totalAttempts := 40; correctAnswers := 23 |} in
  totalAttempts s <> 0%N /\
  (correctAnswers s < 2 ^ 44)%N /\ (totalAttempts s < 2 ^ 53)%N /\
  accuracy_text (updateStats s) = Math_round (23 / 40 * 100) /\
  exact (23 / 40 * 100) = Some (8092405580431359 # 140737488355328) /\
  integer_value (accuracy_text (updateStats s)) =
    Some (Spec.round_half_up (8092405580431359 # 140737488355328)) /\
  (accuracy_text (updateStats s) = number_of_Z (Spec.accuracyPercent s) \/
   (halfway s = true /\
    accuracy_text (updateStats s) = number_of_Z (Spec.accuracyPercent s - 1))).
Proof.
  cbv zeta.
  pose proof (displayed_accuracy {| totalAttempts := 40; correctAnswers := 23 |})
    as (_ & H2 & H3).
  cbv zeta in H2, H3.
  assert (totalAttempts {| totalAttempts := 40; correctAnswers := 23 |} <> 0%N) as Hne
    by discriminate.
  split; [exact Hne|].
  split; [vm_compute; reflexivity|]. split; [vm_compute; reflexivity|].
  destruct (H2 Hne) as [E Hq].
  split; [exact E|]. split; [vm_compute; reflexivity|].
  split; [apply Hq; vm_compute; reflexivity|].
  apply H3; vm_compute; reflexivity.
Defined.

End DosingQuizFacts.

(** ** The page in use: facts *)

Module InteractionFacts.
Import JS DosingQuiz Scoring Interaction.
Local Open Scope float_scope.

(** *** Starting the quiz *)

Lemma ToBoolean_not_nan x : ToBoolean x = true -> PrimFloat.is_nan x = false.
Proof.
  unfold ToBoolean. rewrite negb_true_iff, orb_false_iff. now intros [_ H].
Qed.

Lemma positive_ToBoolean x : (0 <? x) = true -> ToBoolean x = true.
Proof.
  intros H. apply Binary64.ltb_zero_iff in H. apply JSFacts.ToBoolean_spec.
  destruct (Prim2SF x) as [s|s| |s m e]; cbn in H; try tauto.
  - left. now exists s.
  - right. now exists s, m, e.
Qed.

Lemma seventy_ToBoolean x : (70 <=? x) = true -> ToBoolean x = true.
Proof.
  intros H. rewrite leb_spec in H. apply JSFacts.ToBoolean_spec.
  destruct (Prim2SF x) as [s|s| |s m e].
  - destruct s; vm_compute in H; discriminate.
  - left. now exists s.
  - vm_compute in H. discriminate.
  - right. now exists s, m, e.
Qed.

Lemma validSettings_truthy s :
  validSettings s = true ->
  ToBoolean (carbRatio s) = true /\ ToBoolean (correctionFactor s) = true /\
  ToBoolean (targetBG s) = true.
Proof.
  unfold validSettings. rewrite !andb_true_iff. intros [[[H1 H2] H3] H4].
  auto using positive_ToBoolean, seventy_ToBoolean.
Qed.

(** The second check of [startQuiz], on numbers that passed the first:
    it lets through exactly the settings that are valid. *)
Lemma realistic_check s :
  ToBoolean (carbRatio s) = true -> ToBoolean (correctionFactor s) = true ->
  ToBoolean (targetBG s) = true ->
  (carbRatio s <=? 0) || (correctionFactor s <=? 0) || (targetBG s <? 70)
  || gt (targetBG s) 180 = negb (validSettings s).
Proof.
  intros H1 H2 H3. apply ToBoolean_not_nan in H1, H2, H3.
  unfold validSettings, gt.
  rewrite (Binary64.ltb_negb_leb 0 (carbRatio s)), (Binary64.ltb_negb_leb 0 (correctionFactor s)),
    (Binary64.ltb_negb_leb (targetBG s) 70), (Binary64.ltb_negb_leb 180 (targetBG s))
    by (assumption || reflexivity).
  destruct (carbRatio s <=? 0), (correctionFactor s <=? 0), (70 <=? targetBG s),
    (targetBG s <=? 180); reflexivity.
Qed.

Lemma startQuiz_cases r1 r2 r3 p q :
  let s := typedSettings p in
  startQuiz r1 r2 r3 p q =
  if validSettings s
  then generateQuestion r1 r2 r3 p
         {| currentFood := currentFood q; currentPortion := currentPortion q;
            currentBG := currentBG q; userSettings := s; stats := stats q |}
  else
    (Alert (if ToBoolean (carbRatio s) && ToBoolean (correctionFactor s)
               && ToBoolean (targetBG s)
            then "Please enter realistic values for your settings."
            else "Please fill in all your dosing settings!"), p, q).
Proof.
  intros s. unfold startQuiz.
  change {| carbRatio := parseFloat (carb_ratio p);
            correctionFactor := parseFloat (correction_factor p);
            targetBG := parseFloat (target_bg p) |} with s.
  change (parseFloat (carb_ratio p)) with (carbRatio s).
  change (parseFloat (correction_factor p)) with (correctionFactor s).
  change (parseFloat (target_bg p)) with (targetBG s).
  unfold not.
  destruct (ToBoolean (carbRatio s)) eqn:H1; cbn [negb orb andb].
  2:{ destruct (validSettings s) eqn:V; [|reflexivity].
      apply validSettings_truthy in V. destruct V as (V & _). congruence. }
  destruct (ToBoolean (correctionFactor s)) eqn:H2; cbn [negb orb andb].
  2:{ destruct (validSettings s) eqn:V; [|reflexivity].
      apply validSettings_truthy in V. destruct V as (_ & V & _). congruence. }
  destruct (ToBoolean (targetBG s)) eqn:H3; cbn [negb orb andb].
  2:{ destruct (validSettings s) eqn:V; [|reflexivity].
      apply validSettings_truthy in V. destruct V as (_ & _ & V). congruence. }
  rewrite (realistic_check s H1 H2 H3).
  destruct (validSettings s); reflexivity.
Qed.

(** X1.  [startQuiz] lets through exactly the settings with a carb
    ratio and a correction factor above 0 and a target from 70 to 180,
    and then goes on to [generateQuestion] with them; any other input
    ends with an alert and changes nothing.  The alert asks to fill in
    the settings exactly when one of them is missing, not numeric or
    zero, and for realistic values otherwise. *)
Theorem startQuiz_validation r1 r2 r3 p q :
  let s := typedSettings p in
  (validSettings s = true ->
   startQuiz r1 r2 r3 p q =
   generateQuestion r1 r2 r3 p
     {| currentFood := currentFood q; currentPortion := currentPortion q;
        currentBG := currentBG q; userSettings := s; stats := stats q |}) /\
  (validSettings s = false ->
   exists msg,
     startQuiz r1 r2 r3 p q = (Alert msg, p, q) /\
     (ToBoolean (carbRatio s) && ToBoolean (correctionFactor s) && ToBoolean (targetBG s)
      = false -> msg = "Please fill in all your dosing settings!") /\
     (ToBoolean (carbRatio s) && ToBoolean (correctionFactor s) && ToBoolean (targetBG s)
      = true -> msg = "Please enter realistic values for your settings.")).
Proof.
  intros s. rewrite startQuiz_cases. fold s. split; intros V; rewrite V.
  - reflexivity.
  - eexists. split; [reflexivity|]. split; intros ->; reflexivity.
Qed.

(** A carb ratio of 0 is asked to be filled in; a negative one, or a
    target of 60, to be realistic; 12, 40 and 110 are let through. *)
Lemma startQuiz_validation_witness :
  let typed cr tb :=
    fill carb_ratio_field cr
      (fill correction_factor_field "40" (fill target_bg_field tb (submission "" "" "" ""))) in
  startQuiz 0 0 0 (typed "0" "110") initial =
    (Alert "Please fill in all your dosing settings!", typed "0" "110", initial) /\
  startQuiz 0 0 0 (typed "-3" "110") initial =
    (Alert "Please enter realistic values for your settings.", typed "-3" "110", initial) /\
  startQuiz 0 0 0 (typed "12" "60") initial =
    (Alert "Please enter realistic values for your settings.", typed "12" "60", initial) /\
  validSettings (typedSettings (typed "12" "110")) = true /\
  startQuiz 0 0 0 (typed "12" "110") initial =
  generateQuestion 0 0 0 (typed "12" "110")
    {| currentFood := None; currentPortion := 1; currentBG := 120;
       userSettings := {| carbRatio := 12; correctionFactor := 40; targetBG := 110 |};
       stats := {| totalAttempts := 0; correctAnswers := 0 |} |}.
Proof.
  cbv zeta. split; [vm_compute; reflexivity|]. split; [vm_compute; reflexivity|].
  split; [vm_compute; reflexivity|]. split; [vm_compute; reflexivity|].
  exact (proj1 (startQuiz_validation 0 0 0
                  (fill carb_ratio_field "12"
                     (fill correction_factor_field "40"
                        (fill target_bg_field "110" (submission "" "" "" ""))))
                  initial) eq_refl).
Defined.

(** *** What each function leaves alone *)

Lemma generateQuestion_keeps r1 r2 r3 p q :
  let '(_, p', q') := generateQuestion r1 r2 r3 p q in
  userSettings q' = userSettings q /\ stats q' = stats q /\
  carb_ratio p' = carb_ratio p /\ correction_factor p' = correction_factor p /\
  target_bg p' = target_bg p /\
  carbs_eating p' = "" /\ insulin_carbs p' = "" /\ insulin_correction p' = "" /\
  total_dose p' = "" /\ feedback_section p' = None /\ stats_panel p' = stats_panel p.
Proof.
  unfold generateQuestion.
  destruct (get foodDatabase (Math_floor (r1 * length foodDatabase)));
    cbn; repeat split; reflexivity.
Qed.

Lemma checkAnswer_keeps r p q :
  let '(_, p', q') := checkAnswer r p q in
  currentFood q' = currentFood q /\ currentPortion q' = currentPortion q /\
  currentBG q' = currentBG q /\ userSettings q' = userSettings q /\
  carb_ratio p' = carb_ratio p /\ correction_factor p' = correction_factor p /\
  target_bg p' = target_bg p /\
  carbs_eating p' = carbs_eating p /\ insulin_carbs p' = insulin_carbs p /\
  insulin_correction p' = insulin_correction p /\ total_dose p' = total_dose p /\
  current_bg p' = current_bg p /\ nutrition_label p' = nutrition_label p.
Proof.
  unfold checkAnswer.
  destruct (_ || _ || _ || _); [cbn; repeat split; reflexivity|].
  destruct (currentFood q) eqn:E; cbn; repeat split; (reflexivity || exact E).
Qed.

Lemma perform_settings a p q :
  validSettings (userSettings q) = true ->
  validSettings (userSettings (snd (perform a p q))) = true.
Proof.
  intros V. destruct a as [f s|r1 r2 r3|r|r1 r2 r3]; cbn [perform].
  - exact V.
  - rewrite startQuiz_cases. cbv zeta.
    destruct (validSettings (typedSettings p)) eqn:V'; [|exact V].
    match goal with |- context [generateQuestion r1 r2 r3 p ?q0] =>
      pose proof (generateQuestion_keeps r1 r2 r3 p q0) as K;
      destruct (generateQuestion r1 r2 r3 p q0) as [[o p'] q'] end.
    destruct K as (K & _). cbn [snd]. rewrite K. exact V'.
  - pose proof (checkAnswer_keeps r p q) as K.
    destruct (checkAnswer r p q) as [[o p'] q']. cbn [snd].
    destruct K as (_ & _ & _ & K & _). now rewrite K.
  - unfold nextQuestion. pose proof (generateQuestion_keeps r1 r2 r3 p q) as K.
    destruct (generateQuestion r1 r2 r3 p q) as [[o p'] q']. cbn [snd].
    destruct K as (K & _). now rewrite K.
Qed.

Lemma run_cons a l p q :
  run (a :: l) p q =
  run l (snd (fst (perform a p q))) (snd (perform a p q)).
Proof. cbn [run]. destruct (perform a p q) as [[o p'] q']. reflexivity. Qed.

(** X2.  Whatever is typed and clicked, in whatever order, the settings
    in use stay valid: a carb ratio and a correction factor above 0 and
    a target from 70 to 180.  They start so, and [startQuiz] replaces
    them only by values it has checked. *)
Theorem settings_stay_valid l p q :
  validSettings (userSettings q) = true ->
  validSettings (userSettings (snd (run l p q))) = true.
Proof.
  revert p q. induction l as [|a l IH]; intros p q V.
  - exact V.
  - rewrite run_cons. apply IH. now apply perform_settings.
Qed.

Lemma settings_stay_valid_witness :
  let l := [Fill carb_ratio_field "0"; StartQuiz 0.5 0.25 0.999;
            Fill carb_ratio_field "12.5"; Fill target_bg_field "110";
            StartQuiz 0.5 0.25 0.999; CheckAnswer 0] in
  validSettings (userSettings initial) = true /\
  validSettings (userSettings (snd (run l (submission "" "" "" "") initial))) = true /\
  userSettings (snd (run l (submission "" "" "" "") initial)) =
    {| carbRatio := 12.5; correctionFactor := 50; targetBG := 110 |}.
Proof.
  cbv zeta. split; [reflexivity|]. split.
  - apply settings_stay_valid. reflexivity.
  - vm_compute. reflexivity.
Defined.

Lemma perform_stats a p q :
  let s := stats q in
  let s' := stats (snd (perform a p q)) in
  (s' = s /\ (checks [a] = 0%N \/ checks [a] = 1%N)) \/
  (checks [a] = 1%N /\
   totalAttempts s' = (totalAttempts s + 1)%N /\
   (correctAnswers s' = correctAnswers s \/
    correctAnswers s' = (correctAnswers s + 1)%N)).
Proof.
  cbv zeta. destruct a as [f t|r1 r2 r3|r|r1 r2 r3]; cbn [perform checks].
  - left. split; [reflexivity|now left].
  - left. split; [|now left]. rewrite startQuiz_cases. cbv zeta.
    destruct (validSettings (typedSettings p)); [|reflexivity].
    match goal with |- context [generateQuestion r1 r2 r3 p ?q0] =>
      pose proof (generateQuestion_keeps r1 r2 r3 p q0) as K;
      destruct (generateQuestion r1 r2 r3 p q0) as [[o p'] q'] end.
    destruct K as (_ & K & _). cbn [snd]. now rewrite K.
  - pose proof (DosingQuizFacts.checkAnswer_stats_cases r p q) as H. cbv zeta in H.
    destruct H as [H|H]; [left|right]; split; auto.
  - left. split; [|now left]. unfold nextQuestion.
    pose proof (generateQuestion_keeps r1 r2 r3 p q) as K.
    destruct (generateQuestion r1 r2 r3 p q) as [[o p'] q']. cbn [snd].
    destruct K as (_ & K & _). now rewrite K.
Qed.

Lemma checks_cons a l : checks (a :: l) = (checks [a] + checks l)%N.
Proof. destruct a; cbn [checks]; lia. Qed.

(** X3.  Over any sequence of actions the two counters never go down,
    the attempts grow by at most the number of calls of [checkAnswer],
    and the correct answers grow by at most as much as the attempts, so
    that a count of correct answers that starts at or below the count
    of attempts stays so. *)
Theorem counters_of_a_run l p q :
  let s := stats q in
  let s' := stats (snd (run l p q)) in
  (totalAttempts s <= totalAttempts s' <= totalAttempts s + checks l)%N /\
  (correctAnswers s <= correctAnswers s')%N /\
  (correctAnswers s' + totalAttempts s <= totalAttempts s' + correctAnswers s)%N.
Proof.
  cbv zeta. revert p q. induction l as [|a l IH]; intros p q.
  - cbn [run snd checks]. lia.
  - rewrite run_cons, checks_cons.
    specialize (IH (snd (fst (perform a p q))) (snd (perform a p q))).
    pose proof (perform_stats a p q) as H. cbv zeta in H.
    destruct H as [[He H]|(Hc & Ht & H)].
    + rewrite He in IH. lia.
    + rewrite Ht in IH. destruct H as [H|H]; rewrite H in IH; lia.
Qed.

(** *** The scenario *)

Lemma random_spec r : random r = true -> (0 <=? r) = true /\ (r <? 1) = true.
Proof. unfold random. now rewrite andb_true_iff. Qed.

(** [generateQuestion] with numbers that [Math.random()] can return:
    the whole of what it does. *)
Lemma generateQuestion_valid r1 r2 r3 p q :
  random r1 = true -> random r2 = true -> random r3 = true ->
  exists food portion k,
    In food foodDatabase /\ In portion (portions food) /\ (0 <= k < 201)%Z /\
    generateQuestion r1 r2 r3 p q =
    (Done,
     {| carb_ratio := carb_ratio p; correction_factor := correction_factor p;
        target_bg := target_bg p;
        carbs_eating := ""; insulin_carbs := ""; insulin_correction := "";
        total_dose := ""; feedback_section := None;
        current_bg := Some (number_of_Z (5 * ((k + 82) / 5)));
        nutrition_label := Some (renderNutritionLabel food portion);
        stats_panel := stats_panel p |},
     {| currentFood := Some food; currentPortion := portion;
        currentBG := number_of_Z (5 * ((k + 82) / 5));
        userSettings := userSettings q; stats := stats q |}).
Proof.
  intros [A1 B1]%random_spec [A2 B2]%random_spec [A3 B3]%random_spec.
  unfold generateQuestion.
  destruct (JSFacts.random_element foodDatabase r1 A1 B1) as (food & -> & Hfood);
    [discriminate|reflexivity|].
  assert (portions food <> []) as Hp.
  { pose proof DosingQuizFacts.catalog_portions as H. rewrite forallb_forall in H.
    specialize (H food Hfood). destruct (portions food); [discriminate|congruence]. }
  assert ((Z.of_nat (List.length (portions food)) < 2 ^ 52)%Z) as Hlen.
  { revert Hfood. cbn [In foodDatabase].
    intros H; repeat (destruct H as [<-|H]; [reflexivity|]); destruct H. }
  destruct (JSFacts.random_element (portions food) r2 A2 B2 Hp Hlen)
    as (portion & -> & Hportion).
  change (280 - 80 + 1) with (number_of_Z 201).
  assert (exists k, (0 <= k < 201)%Z /\
            Math_floor (r3 * number_of_Z 201) + 80 = number_of_Z k + 80) as (k & Hk & ->).
  { destruct (JSFacts.random_index r3 201 A3 B3 ltac:(split; [lia|reflexivity]))
      as [Hz|(k & Hk & ->)].
    - exists 0%Z. split; [lia|].
      assert (Math_floor (r3 * number_of_Z 201) = neg_zero) as ->; [|reflexivity].
      apply Prim2SF_inj. now rewrite Hz.
    - now exists k. }
  pose proof DosingQuizFacts.blood_glucose_rounding as Hbg. rewrite forallb_forall in Hbg.
  specialize (Hbg k (JSFacts.in_range 201 k ltac:(lia))).
  apply FloatAxioms.Leibniz.eqb_spec in Hbg. rewrite Hbg.
  exists food, portion, k. repeat (split; [assumption || lia|]). reflexivity.
Qed.

Lemma blood_glucose_range k :
  (0 <= k < 201)%Z ->
  (80 <= 5 * ((k + 82) / 5) <= 280)%Z /\ ((5 * ((k + 82) / 5)) mod 5 = 0)%Z.
Proof.
  intros Hk.
  pose proof (Z.div_mod (k + 82) 5 ltac:(lia)) as D.
  pose proof (Z.mod_pos_bound (k + 82) 5 ltac:(lia)) as D'.
  split; [lia|]. rewrite Z.mul_comm. apply Z.mod_mul. lia.
Qed.

Lemma generateQuestion_wellFormed r1 r2 r3 p q :
  random r1 = true -> random r2 = true -> random r3 = true ->
  wellFormed (snd (generateQuestion r1 r2 r3 p q)) /\
  currentFood (snd (generateQuestion r1 r2 r3 p q)) <> None /\
  fst (fst (generateQuestion r1 r2 r3 p q)) = Done.
Proof.
  intros H1 H2 H3.
  destruct (generateQuestion_valid r1 r2 r3 p q H1 H2 H3)
    as (food & portion & k & Hf & Hp & Hk & ->).
  cbn [snd fst]. split; [|split; [discriminate|reflexivity]].
  split; cbn [currentFood currentPortion currentBG]; [now split|].
  exists (5 * ((k + 82) / 5))%Z. split; [reflexivity|]. now apply blood_glucose_range.
Qed.

Lemma perform_wellFormed a p q :
  randoms a = true -> wellFormed q ->
  wellFormed (snd (perform a p q)) /\
  (currentFood q <> None ->
   currentFood (snd (perform a p q)) <> None /\ fst (fst (perform a p q)) <> TypeError).
Proof.
  intros Hr W. destruct a as [f t|r1 r2 r3|r|r1 r2 r3]; cbn [perform randoms] in *.
  - split; [exact W|]. intros H. split; [exact H|discriminate].
  - apply andb_true_iff in Hr. destruct Hr as [Hr H3].
    apply andb_true_iff in Hr. destruct Hr as [H1 H2].
    rewrite startQuiz_cases. cbv zeta.
    destruct (validSettings (typedSettings p)).
    + match goal with |- context [generateQuestion r1 r2 r3 p ?q0] =>
        destruct (generateQuestion_wellFormed r1 r2 r3 p q0 H1 H2 H3) as (G1 & G2 & G3) end.
      split; [exact G1|]. intros _. split; [exact G2|]. rewrite G3. discriminate.
    + split; [exact W|]. intros H. split; [exact H|discriminate].
  - pose proof (checkAnswer_keeps r p q) as K.
    assert (currentFood q <> None -> fst (fst (checkAnswer r p q)) <> TypeError) as Ho.
    { unfold checkAnswer. destruct (_ || _ || _ || _); [discriminate|].
      destruct (currentFood q); [discriminate|congruence]. }
    destruct (checkAnswer r p q) as [[o p'] q']. cbn [snd fst] in *.
    destruct K as (K1 & K2 & K3 & _).
    split.
    + unfold wellFormed in *. now rewrite K1, K2, K3.
    + intros H. split; [now rewrite K1|now apply Ho].
  - unfold nextQuestion.
    apply andb_true_iff in Hr. destruct Hr as [Hr H3].
    apply andb_true_iff in Hr. destruct Hr as [H1 H2].
    destruct (generateQuestion_wellFormed r1 r2 r3 p q H1 H2 H3) as (G1 & G2 & G3).
    split; [exact G1|]. intros _. split; [exact G2|]. rewrite G3. discriminate.
Qed.

(** X4.  With numbers that [Math.random()] can return, every state a
    sequence of actions reaches holds a scenario as [generateQuestion]
    makes them: a food of the catalog (or none yet) in one of its
    portions, and a blood glucose that is a multiple of 5 from 80 to
    280, as the 120 the script starts with is. *)
Theorem scenario_stays_well_formed l p q :
  forallb randoms l = true -> wellFormed q -> wellFormed (snd (run l p q)).
Proof.
  revert p q. induction l as [|a l IH]; intros p q Hr W.
  - exact W.
  - cbn [forallb] in Hr. apply andb_true_iff in Hr. destruct Hr as [Ha Hl].
    rewrite run_cons. apply IH; [exact Hl|].
    now apply perform_wellFormed.
Qed.

Lemma scenario_stays_well_formed_witness :
  let l := [Fill carb_ratio_field "12"; StartQuiz 0.5 0.25 0.999;
            Fill total_dose_field "3"; CheckAnswer 0; NextQuestion 0 0.99 0.5] in
  forallb randoms l = true /\ wellFormed initial /\
  wellFormed (snd (run l (submission "" "" "" "") initial)).
Proof.
  cbv zeta. split; [reflexivity|].
  assert (wellFormed initial) as W.
  { split; [exact I|]. exists 120%Z. split; [reflexivity|]. split; [lia|reflexivity]. }
  split; [exact W|].
  apply scenario_stays_well_formed; [reflexivity|exact W].
Defined.

Lemma outcomes_cons a l p q :
  outcomes (a :: l) p q =
  fst (fst (perform a p q))
  :: outcomes l (snd (fst (perform a p q))) (snd (perform a p q)).
Proof. cbn [outcomes]. destruct (perform a p q) as [[o p'] q']. reflexivity. Qed.

(** X5.  Once there is a current food, no call fails for want of one:
    with numbers that [Math.random()] can return, [generateQuestion]
    always finds a food in the catalog, and [checkAnswer] finds the
    food it reads, so that no call of a sequence ends in a
    [TypeError]. *)
Theorem no_call_throws l p q :
  forallb randoms l = true -> wellFormed q -> currentFood q <> None ->
  ~ In TypeError (outcomes l p q) /\ currentFood (snd (run l p q)) <> None.
Proof.
  revert p q. induction l as [|a l IH]; intros p q Hr W Hf.
  - split; [intros []|exact Hf].
  - cbn [forallb] in Hr. apply andb_true_iff in Hr. destruct Hr as [Ha Hl].
    destruct (perform_wellFormed a p q Ha W) as [W' H]. destruct (H Hf) as [Hf' Ho].
    rewrite run_cons, outcomes_cons.
    destruct (IH (snd (fst (perform a p q))) (snd (perform a p q)) Hl W' Hf') as [I1 I2].
    split; [|exact I2]. intros [E|E]; [now apply Ho|now apply I1].
Qed.

Lemma no_call_throws_witness :
  let l := [Fill carbs_eating_field "17"; Fill insulin_carbs_field "1.7";
            Fill total_dose_field "2.7"; CheckAnswer 0.3; NextQuestion 0 0 0;
            CheckAnswer 0.3; StartQuiz 0.1 0.2 0.3] in
  forallb randoms l = true /\ wellFormed scenario1 /\ currentFood scenario1 <> None /\
  outcomes l (submission "" "" "" "") scenario1 =
    [Done; Done; Done; Done; Done;
     Alert "Please fill in all fields before checking your answer!"; Done] /\
  ~ In TypeError (outcomes l (submission "" "" "" "") scenario1) /\
  currentFood (snd (run l (submission "" "" "" "") scenario1)) <> None.
Proof.
  cbv zeta.
  assert (wellFormed scenario1) as W.
  { split; [split; cbn; tauto|].
    exists 150%Z. split; [reflexivity|]. split; [lia|reflexivity]. }
  assert (currentFood scenario1 <> None) as F by discriminate.
  split; [reflexivity|]. split; [exact W|]. split; [exact F|].
  split; [vm_compute; reflexivity|].
  apply no_call_throws; [reflexivity|exact W|exact F].
Defined.

(** *** A new question *)

(** X6.  A new question cannot be scored until answers are typed:
    [nextQuestion] empties the answer fields, and each call of
    [checkAnswer] on the page it leaves ends with the alert and changes
    neither page nor state, however often the button is clicked. *)
Theorem new_question_needs_answers l r1 r2 r3 p q :
  forallb (fun a => match a with CheckAnswer _ => true | _ => false end) l = true ->
  let p' := snd (fst (nextQuestion r1 r2 r3 p q)) in
  let q' := snd (nextQuestion r1 r2 r3 p q) in
  run l p' q' = (p', q') /\
  stats q' = stats q /\
  Forall (fun o => o = Alert "Please fill in all fields before checking your answer!")
         (outcomes l p' q').
Proof.
  intros Hl. unfold nextQuestion. pose proof (generateQuestion_keeps r1 r2 r3 p q) as K.
  destruct (generateQuestion r1 r2 r3 p q) as [[o p'] q']. cbn [fst snd].
  destruct K as (_ & Ks & _ & _ & _ & K1 & K2 & _).
  assert (forall r0, checkAnswer r0 p' q' =
            (Alert "Please fill in all fields before checking your answer!", p', q')) as H.
  { intros r0. apply DosingQuizFacts.checkAnswer_incomplete.
    unfold incomplete. rewrite K1. reflexivity. }
  split; [|split; [exact Ks|]].
  - induction l as [|a l IH]; [reflexivity|].
    cbn [forallb] in Hl. apply andb_true_iff in Hl. destruct Hl as [Ha Hl].
    destruct a; try discriminate. cbn [run perform]. rewrite H. now apply IH.
  - induction l as [|a l IH]; [constructor|].
    cbn [forallb] in Hl. apply andb_true_iff in Hl. destruct Hl as [Ha Hl].
    destruct a; try discriminate. cbn [outcomes perform]. rewrite H.
    constructor; [reflexivity|now apply IH].
Qed.

Lemma new_question_needs_answers_witness :
  let p := submission "17" "1.7" "1.0" "2.7" in
  let p' := snd (fst (nextQuestion 0.5 0.25 0.999 p scenario1)) in
  let q' := snd (nextQuestion 0.5 0.25 0.999 p scenario1) in
  run [CheckAnswer 0; CheckAnswer 0.5] p' q' = (p', q') /\
  stats q' = stats scenario1 /\
  Forall (fun o => o = Alert "Please fill in all fields before checking your answer!")
         (outcomes [CheckAnswer 0; CheckAnswer 0.5] p' q').
Proof.
  cbv zeta.
  exact (new_question_needs_answers [CheckAnswer 0; CheckAnswer 0.5]
           0.5 0.25 0.999 (submission "17" "1.7" "1.0" "2.7") scenario1 eq_refl).
Defined.

(** *** The nutrition label against the reference *)

(** Every food of the catalog in each of its portions: the carbs and
    the fiber of the label, and the net carbs of the reference. *)
Lemma catalog_labels :
  forallb (fun food =>
    forallb (fun portion =>
      let lbl := renderNutritionLabel food portion in
      let net := Math_round ((totalCarbs food - fiber food) * portion) in
      match integer_value (label_totalCarbs lbl), integer_value (label_fiber lbl),
            integer_value net with
      | Some a, Some b, Some n =>
          PrimFloat.Leibniz.eqb (label_totalCarbs lbl) (number_of_Z a)
          && PrimFloat.Leibniz.eqb (label_fiber lbl) (number_of_Z b)
          && PrimFloat.Leibniz.eqb net (number_of_Z n)
          && (n - 1 <=? a - b)%Z && (a - b <=? n)%Z && (5 <=? n)%Z
          && (abs (number_of_Z (a - b) - net) <=? 2)
      | _, _, _ => false
      end) (portions food)) foodDatabase = true.
Proof. vm_compute. reflexivity. Qed.

(** X7.  On every question generated, the label shows carbs and fiber
    rounded each on its own, so that their difference is the reference
    net carbs or one gram less (half a serving of Cheerios shows 10 g
    and 2 g against net carbs of 9 g); an answer read off the label
    stays within the 2 g the tier [correct] allows. *)
Theorem label_against_reference r1 r2 r3 p q :
  random r1 = true -> random r2 = true -> random r3 = true ->
  exists p' q' food lbl a b n,
    generateQuestion r1 r2 r3 p q = (Done, p', q') /\
    currentFood q' = Some food /\ nutrition_label p' = Some lbl /\
    label_totalCarbs lbl = number_of_Z a /\
    label_fiber lbl = number_of_Z b /\
    netCarbs (correctAnswer food (currentPortion q') (currentBG q') (userSettings q'))
    = number_of_Z n /\
    (n - 1 <= a - b <= n)%Z /\ (5 <= n)%Z /\
    (abs (number_of_Z (a - b) - number_of_Z n) <=? 2) = true.
Proof.
  intros H1 H2 H3.
  destruct (generateQuestion_valid r1 r2 r3 p q H1 H2 H3)
    as (food & portion & k & Hf & Hp & Hk & ->).
  pose proof catalog_labels as C. rewrite forallb_forall in C.
  specialize (C food Hf). rewrite forallb_forall in C. specialize (C portion Hp).
  cbv zeta in C.
  destruct (integer_value (label_totalCarbs (renderNutritionLabel food portion)))
    as [a|]; [|discriminate].
  destruct (integer_value (label_fiber (renderNutritionLabel food portion)))
    as [b|]; [|discriminate].
  destruct (integer_value (Math_round ((totalCarbs food - fiber food) * portion)))
    as [n|]; [|discriminate].
  rewrite !andb_true_iff in C.
  destruct C as [[[[[[C1 C2] C3] C4] C5] C6] C7].
  apply FloatAxioms.Leibniz.eqb_spec in C1, C2, C3.
  do 2 eexists. exists food, (renderNutritionLabel food portion), a, b, n.
  split; [reflexivity|]. cbn [currentFood nutrition_label currentPortion currentBG userSettings].
  split; [reflexivity|]. split; [reflexivity|]. split; [exact C1|]. split; [exact C2|].
  assert (netCarbs (correctAnswer food portion (number_of_Z (5 * ((k + 82) / 5)))
                      (userSettings q)) = number_of_Z n) as Hn by exact C3.
  split; [exact Hn|]. split; [lia|]. split; [lia|].
  rewrite <- C3. exact C7.
Qed.

Lemma label_against_reference_witness :
  random 0 = true /\ random 0 = true /\ random 0.5 = true /\
  exists p' q' food lbl a b n,
    generateQuestion 0 0 0.5 (submission "" "" "" "") initial = (Done, p', q') /\
    currentFood q' = Some food /\ nutrition_label p' = Some lbl /\
    label_totalCarbs lbl = number_of_Z a /\
    label_fiber lbl = number_of_Z b /\
    netCarbs (correctAnswer food (currentPortion q') (currentBG q') (userSettings q'))
    = number_of_Z n /\
    (n - 1 <= a - b <= n)%Z /\ (5 <= n)%Z /\
    (abs (number_of_Z (a - b) - number_of_Z n) <=? 2) = true.
Proof.
  split; [reflexivity|]. split; [reflexivity|]. split; [reflexivity|].
  apply label_against_reference; reflexivity.
Defined.

(** Half a serving of Cheerios: the label reads 10 g and 2 g, the
    reference is 9 g. *)
Example label_of_half_a_serving :
  let '(_, p', q') := generateQuestion 0 0 0.5 (submission "" "" "" "") initial in
  option_map name (currentFood q') = Some "Cheerios Cereal"%string /\
  currentPortion q' = 0.5 /\
  option_map label_totalCarbs (nutrition_label p') = Some 10 /\
  option_map label_fiber (nutrition_label p') = Some 2 /\
  netCarbs (correctAnswer Cheerios (currentPortion q') (currentBG q') (userSettings q')) = 9.
Proof. vm_compute. repeat split. Qed.

(** *** What a scored submission is shown *)

(** A submission that is scored: the state it leaves and the whole of
    the feedback. *)
Lemma checkAnswer_feedback r p q food :
  incomplete p = false -> currentFood q = Some food ->
  let c := correctAnswer food (currentPortion q) (currentBG q) (userSettings q) in
  let t := tier (parseFloat (total_dose p)) (parseFloat (carbs_eating p)) c in
  let msg := get (encouragementMessages t)
                 (Math_floor (r * length (encouragementMessages t))) in
  exists p',
    checkAnswer r p q =
      (Done, p',
       {| currentFood := currentFood q; currentPortion := currentPortion q;
          currentBG := currentBG q; userSettings := userSettings q;
          stats := scored_stats t (stats q) |}) /\
    stats_panel p' = Some (updateStats (scored_stats t (stats q))) /\
    current_bg p' = current_bg p /\ nutrition_label p' = nutrition_label p /\
    feedback_section p' =
      Some (displayFeedback t msg
              {| userCarbsEating := parseFloat (carbs_eating p);
                 userInsulinCarbs := parseFloat (insulin_carbs p);
                 userInsulinCorrection := or_else (parseFloat (insulin_correction p)) 0;
                 userTotalDose := parseFloat (total_dose p);
                 correctCarbs := netCarbs c;
                 correctInsulinCarbs := insulinForCarbs c;
                 correctInsulinCorrection := correctionDose c;
                 correctTotalDose := totalDose c |}).
Proof.
  unfold incomplete, checkAnswer. intros H H0.
  rewrite DosingQuizFacts.strict_eq_Num_Null, DosingQuizFacts.strict_eq_Num_Undefined,
    !orb_false_r, H, H0.
  cbv zeta. eexists. repeat split.
Qed.

(** X8.  The mark of step 4 (the total dose) against the tier: a
    submission of tier [correct] always has step 4 marked as right; but
    a total dose that is missing or not numeric has it marked as right
    too, under the tier [incorrect], since no comparison with [NaN]
    holds. *)
Theorem total_dose_mark r p q food :
  incomplete p = false -> currentFood q = Some food ->
  exists p' q' fb,
    checkAnswer r p q = (Done, p', q') /\
    feedback_section p' = Some fb /\
    (fb_type fb = correct -> step4_right fb = true) /\
    (PrimFloat.is_nan (parseFloat (total_dose p)) = true ->
     fb_type fb = incorrect /\ step4_right fb = true).
Proof.
  intros H H0.
  destruct (checkAnswer_feedback r p q food H H0) as (p' & -> & _ & _ & _ & Hfb).
  cbv zeta in Hfb. do 2 eexists. eexists. split; [reflexivity|]. split; [exact Hfb|].
  cbn [fb_type step4_right displayFeedback userTotalDose correctTotalDose].
  set (c := correctAnswer food (currentPortion q) (currentBG q) (userSettings q)).
  set (u := parseFloat (total_dose p)). unfold gt. split.
  - unfold tier.
    destruct (abs (u - totalDose c) <=? 0.3) eqn:Hd; cbn [andb].
    + intros _. destruct (Binary64.leb_not_nan _ _ Hd) as [N1 N2].
      rewrite (Binary64.ltb_negb_leb 0.3 (abs (u - totalDose c)) N2 N1), Hd. reflexivity.
    + destruct (_ && _); discriminate.
  - intros Hn. split; [now apply DosingQuizFacts.tier_nan_total|].
    assert (PrimFloat.is_nan (abs (u - totalDose c)) = true) as Hn'
      by now apply Binary64.nan_abs, Binary64.nan_sub_l.
    destruct (0.3 <? abs (u - totalDose c)) eqn:E; [|reflexivity].
    apply Binary64.ltb_not_nan in E. destruct E. congruence.
Qed.

Lemma total_dose_mark_witness :
  incomplete (submission "17" "1.7" "" "") = false /\
  currentFood scenario1 = Some Cheerios /\
  PrimFloat.is_nan (parseFloat (total_dose (submission "17" "1.7" "" ""))) = true /\
  exists p' q' fb,
    checkAnswer 0 (submission "17" "1.7" "" "") scenario1 = (Done, p', q') /\
    feedback_section p' = Some fb /\
    fb_type fb = incorrect /\ step4_right fb = true.
Proof.
  split; [reflexivity|]. split; [reflexivity|]. split; [reflexivity|].
  destruct (total_dose_mark 0 (submission "17" "1.7" "" "") scenario1 Cheerios
              eq_refl eq_refl) as (p' & q' & fb & E & Hfb & _ & H).
  exists p', q', fb. split; [exact E|]. split; [exact Hfb|]. apply H. reflexivity.
Defined.

(** X9.  A carbs or insulin-for-carbs answer of zero is taken for a
    missing one: the call ends with the alert and changes nothing, also
    when zero is the reference value itself. *)
Theorem zero_answer_is_rejected r p q :
  PrimFloat.is_zero (parseFloat (carbs_eating p)) = true \/
  PrimFloat.is_zero (parseFloat (insulin_carbs p)) = true ->
  checkAnswer r p q =
    (Alert "Please fill in all fields before checking your answer!", p, q).
Proof.
  intros H. apply DosingQuizFacts.checkAnswer_incomplete. unfold incomplete, not, ToBoolean.
  destruct H as [H|H]; rewrite H; cbn [orb negb]; [reflexivity|apply orb_true_r].
Qed.

(** A serving of peanut butter (5 g net) at a carb ratio of 150: the
    reference insulin for carbs is 0, and typing it is turned away. *)
Lemma zero_answer_is_rejected_witness :
  let PeanutButter :=
    {| name := "Peanut Butter"; servingSize := "2 tbsp (32g)";
       servingsPerContainer := 15; calories := 190; totalCarbs := 7;
       fiber := 2; sugars := 3; protein := 8; portions := [1; 2; 3] |} in
  let q := {| currentFood := Some PeanutButter; currentPortion := 1; currentBG := 150;
              userSettings := {| carbRatio := 150; correctionFactor := 50; targetBG := 100 |};
              stats := {| totalAttempts := 0; correctAnswers := 0 |} |} in
  let c := correctAnswer PeanutButter 1 150 (userSettings q) in
  let p := submission "5" (toFixed_1 (insulinForCarbs c)) "1.0" "1.0" in
  In PeanutButter foodDatabase /\ validSettings (userSettings q) = true /\
  insulinForCarbs c = 0 /\ totalDose c = 1 /\
  PrimFloat.is_zero (parseFloat (insulin_carbs p)) = true /\
  checkAnswer 0 p q =
    (Alert "Please fill in all fields before checking your answer!", p, q).
Proof.
  cbv zeta. split; [cbn; tauto|]. split; [reflexivity|].
  split; [vm_compute; reflexivity|]. split; [vm_compute; reflexivity|].
  split; [vm_compute; reflexivity|].
  apply zero_answer_is_rejected. right. vm_compute. reflexivity.
Defined.

(** *** Typing the reference values *)

(** Every food of the catalog in each of its portions: the net carbs
    are not zero and, written with one decimal, read back as they
    are. *)
Lemma catalog_net_carbs :
  forallb (fun food =>
    forallb (fun portion =>
      let k := Math_round ((totalCarbs food - fiber food) * portion) in
      PrimFloat.Leibniz.eqb (parseFloat (toFixed_1 k)) k
      && ToBoolean k && (abs (k - k) <=? 2))
      (portions food)) foodDatabase = true.
Proof. vm_compute. reflexivity. Qed.

(** X10.  The reference values are accepted: on a food of the catalog
    in one of its portions, whatever the blood glucose and the
    settings, typing the reference net carbs, insulin for carbs and
    total dose with one decimal is scored [correct] and counted as a
    correct answer, provided the reference insulin for carbs is not
    zero and the reference total dose is below [2 ^ 48] units. *)
Theorem reference_answers_are_correct r p q food :
  currentFood q = Some food ->
  In food foodDatabase -> In (currentPortion q) (portions food) ->
  let c := correctAnswer food (currentPortion q) (currentBG q) (userSettings q) in
  ToBoolean (insulinForCarbs c) = true ->
  (abs (totalDose c) <? 281474976710656) = true ->
  answered c p ->
  exists p' q' fb,
    checkAnswer r p q = (Done, p', q') /\
    feedback_section p' = Some fb /\
    fb_type fb = correct /\
    totalAttempts (stats q') = (totalAttempts (stats q) + 1)%N /\
    correctAnswers (stats q') = (correctAnswers (stats q) + 1)%N.
Proof.
  intros Hq Hfood Hportion c Hins Htot (A1 & A2 & A3).
  pose proof catalog_net_carbs as C. rewrite forallb_forall in C.
  specialize (C food Hfood). rewrite forallb_forall in C.
  specialize (C (currentPortion q) Hportion). cbv zeta in C.
  change (Math_round ((totalCarbs food - fiber food) * currentPortion q))
    with (netCarbs c) in C.
  rewrite !andb_true_iff in C. destruct C as [[C1 C2] C3].
  apply FloatAxioms.Leibniz.eqb_spec in C1.
  assert (incomplete p = false) as Hinc.
  { unfold incomplete, not. rewrite A1, A2, C1, C2.
    change (insulinForCarbs c)
      with (parseFloat (toFixed_1 (netCarbs c / carbRatio (userSettings q)))) in Hins |- *.
    rewrite (JSFacts.one_decimal_truthy _ Hins). reflexivity. }
  destruct (checkAnswer_feedback r p q food Hinc Hq) as (p' & -> & _ & _ & _ & Hfb).
  cbv zeta in Hfb. fold c in Hfb.
  assert (tier (parseFloat (total_dose p)) (parseFloat (carbs_eating p)) c = correct)
    as Ht.
  { unfold tier. rewrite A1, A3, C1, C3.
    change (totalDose c)
      with (parseFloat (toFixed_1 (insulinForCarbs c + correctionDose c))) in Htot |- *.
    destruct (JSFacts.one_decimal_fixed_point _ Htot) as [He Hf].
    rewrite (Binary64.abs_sub_eqb _ _ 0.3 He Hf eq_refl). reflexivity. }
  fold c. rewrite Ht in *.
  do 2 eexists. eexists. split; [reflexivity|]. split; [exact Hfb|].
  cbn. repeat split.
Qed.

(** Half a serving of Cheerios at blood glucose 215, carb ratio 12 and
    the default correction factor and target: the answers 9.0, 0.8 and
    3.1. *)
Lemma reference_answers_are_correct_witness :
  let q := {| currentFood := Some Cheerios; currentPortion := 0.5; currentBG := 215;
              userSettings := {| carbRatio := 12; correctionFactor := 50; targetBG := 100 |};
              stats := {| totalAttempts := 3; correctAnswers := 1 |} |} in
  let c := correctAnswer Cheerios 0.5 215 (userSettings q) in
  let p := submission (toFixed_1 (netCarbs c)) (toFixed_1 (insulinForCarbs c)) ""
             (toFixed_1 (totalDose c)) in
  (carbs_eating p, insulin_carbs p, total_dose p) = ("9.0", "0.8", "3.1") /\
  In Cheerios foodDatabase /\ In 0.5 (portions Cheerios) /\
  ToBoolean (insulinForCarbs c) = true /\
  (abs (totalDose c) <? 281474976710656) = true /\
  answered c p /\
  exists p' q' fb,
    checkAnswer 0 p q = (Done, p', q') /\
    feedback_section p' = Some fb /\
    fb_type fb = correct /\
    totalAttempts (stats q') = (3 + 1)%N /\
    correctAnswers (stats q') = (1 + 1)%N.
Proof.
  cbv zeta. split; [vm_compute; reflexivity|].
  assert (In Cheerios foodDatabase) as H1 by (cbn; tauto).
  assert (In 0.5 (portions Cheerios)) as H2 by (cbn; tauto).
  split; [exact H1|]. split; [exact H2|].
  split; [vm_compute; reflexivity|]. split; [vm_compute; reflexivity|].
  split; [repeat split|].
  refine (reference_answers_are_correct 0 _
            {| currentFood := Some Cheerios; currentPortion := 0.5; currentBG := 215;
               userSettings := {| carbRatio := 12; correctionFactor := 50; targetBG := 100 |};
               stats := {| totalAttempts := 3; correctAnswers := 1 |} |}
            Cheerios eq_refl H1 H2 _ _ _).
  - vm_compute. reflexivity.
  - vm_compute. reflexivity.
  - repeat split.
Defined.

(** X11.  The reference doses have one decimal: each of the insulin
    for carbs, the correction dose and the total dose, when below
    [2 ^ 48] units, is written by [toFixed(1)] and read back by
    [parseFloat] as the number it is. *)
Theorem reference_doses_have_one_decimal food portion bg s v :
  let c := correctAnswer food portion bg s in
  In v [insulinForCarbs c; correctionDose c; totalDose c] ->
  (abs v <? 281474976710656) = true ->
  (parseFloat (toFixed_1 v) =? v) = true.
Proof.
  intros c Hv Hlt. cbn [In] in Hv. destruct Hv as [<-|[<-|[<-|[]]]].
  - change (insulinForCarbs c)
      with (parseFloat (toFixed_1 (netCarbs c / carbRatio s))) in *.
    now apply JSFacts.one_decimal_fixed_point.
  - unfold c, correctAnswer in *. cbn [correctionDose] in *.
    destruct (gt (bg - targetBG s) 0).
    + now apply JSFacts.one_decimal_fixed_point.
    + reflexivity.
  - change (totalDose c)
      with (parseFloat (toFixed_1 (insulinForCarbs c + correctionDose c))) in *.
    now apply JSFacts.one_decimal_fixed_point.
Qed.

Lemma reference_doses_have_one_decimal_witness :
  let c := correctAnswer Cheerios 1 150 (userSettings scenario1) in
  totalDose c = 2.7 /\ In 2.7 [insulinForCarbs c; correctionDose c; totalDose c] /\
  (abs 2.7 <? 281474976710656) = true /\
  toFixed_1 2.7 = "2.7" /\
  (parseFloat (toFixed_1 2.7) =? 2.7) = true.
Proof.
  cbv zeta. split; [vm_compute; reflexivity|].
  assert (In 2.7 [insulinForCarbs (correctAnswer Cheerios 1 150 (userSettings scenario1));
                  correctionDose (correctAnswer Cheerios 1 150 (userSettings scenario1));
                  totalDose (correctAnswer Cheerios 1 150 (userSettings scenario1))]) as H.
  { right. right. left. vm_compute. reflexivity. }
  split; [exact H|]. split; [reflexivity|]. split; [vm_compute; reflexivity|].
  exact (reference_doses_have_one_decimal Cheerios 1 150 (userSettings scenario1) 2.7
           H eq_refl).
Defined.

(** *** The accuracy shown *)

(** X12.  With no more correct answers than attempts, as in every
    session, the accuracy shown is a whole number from 0 to 100: 0 when
    no answer is correct and 100 when all are (for fewer than [2 ^ 44]
    correct answers and [2 ^ 53] attempts). *)
Theorem accuracy_is_a_percentage (s : Stats) :
  (correctAnswers s <= totalAttempts s)%N ->
  (correctAnswers s < 2 ^ 44)%N -> (totalAttempts s < 2 ^ 53)%N ->
  exists n : Z,
    accuracy_text (updateStats s) = number_of_Z n /\ (0 <= n <= 100)%Z /\
    (correctAnswers s = 0%N -> n = 0%Z) /\
    (correctAnswers s = totalAttempts s -> totalAttempts s <> 0%N -> n = 100%Z).
Proof.
  intros Hle Hc Ht.
  pose proof (DosingQuizFacts.accuracy_shown s Hc Ht) as H. cbv zeta in H.
  destruct s as [[|t] c]; cbn [totalAttempts correctAnswers] in *.
  - exists 0%Z. split; [reflexivity|]. split; [lia|]. split; [reflexivity|]. congruence.
  - rewrite DosingQuizFacts.accuracyPercent_pos in H.
    set (R := ((200 * Z.of_N c + Z.pos t) / (2 * Z.pos t))%Z) in *.
    assert (0 <= R < 101)%Z as HR.
    { subst R. split; [apply Z.div_pos; lia|apply Z.div_lt_upper_bound; lia]. }
    assert (halfway {| totalAttempts := N.pos t; correctAnswers := c |} = true ->
            (1 <= R)%Z /\ c <> 0%N /\ c <> N.pos t) as Hh.
    { unfold halfway. cbn [totalAttempts correctAnswers Z.of_N].
      rewrite andb_true_iff, Z.eqb_eq. intros [Hm Ho].
      apply Z.mod_divide in Hm; [|lia]. destruct Hm as [j Hj].
      rewrite Hj, Z.div_mul in Ho by lia.
      assert (j <> 0)%Z as Hj0 by (intros ->; discriminate).
      assert (0 <= j)%Z by nia.
      split; [|split].
      - subst R. apply Z.div_le_lower_bound; [lia|]. nia.
      - intros ->. cbn in Hj. nia.
      - intros ->. cbn [Z.of_N] in Hj.
        assert (j = 200)%Z as -> by nia. discriminate. }
    assert (c = 0%N -> R = 0%Z) as H0.
    { intros ->. subst R. cbn [Z.of_N]. apply Z.div_small. lia. }
    assert (c = N.pos t -> R = 100%Z) as H100.
    { intros ->. subst R. cbn [Z.of_N]. symmetry.
      apply (Z.div_unique _ _ _ (Z.pos t)); [left; lia|ring]. }
    destruct H as [H|[Hhalf H]].
    + exists R. split; [exact H|]. split; [lia|]. split; [exact H0|]. intros E _. auto.
    + destruct (Hh Hhalf) as (H1 & Hn0 & Hnt).
      exists (R - 1)%Z. split; [exact H|]. split; [lia|]. split; intros E; congruence.
Qed.

Lemma accuracy_is_a_percentage_witness :
  let s := {| totalAttempts := 40; correctAnswers := 23 |} in
  (correctAnswers s <= totalAttempts s)%N /\
  (correctAnswers s < 2 ^ 44)%N /\ (totalAttempts s < 2 ^ 53)%N /\
  accuracy_text (updateStats s) = 57 /\
  exists n : Z,
    accuracy_text (updateStats s) = number_of_Z n /\ (0 <= n <= 100)%Z /\
    (correctAnswers s = 0%N -> n = 0%Z) /\
    (correctAnswers s = totalAttempts s -> totalAttempts s <> 0%N -> n = 100%Z).
Proof.
  cbv zeta.
  assert ((23 <= 40)%N) as H1 by (vm_compute; discriminate).
  assert ((23 < 2 ^ 44)%N) as H2 by (vm_compute; reflexivity).
  assert ((40 < 2 ^ 53)%N) as H3 by (vm_compute; reflexivity).
  split; [exact H1|]. split; [exact H2|]. split; [exact H3|].
  split; [vm_compute; reflexivity|].
  exact (accuracy_is_a_percentage {| totalAttempts := 40; correctAnswers := 23 |} H1 H2 H3).
Defined.

(** *** The reference dose in use *)

(** Every food of the catalog in each of its portions: the net carbs
    are a whole number of grams from 5 to 200. *)
Lemma catalog_net_carbs_range :
  forallb (fun food =>
    forallb (fun portion =>
      let k := Math_round ((totalCarbs food - fiber food) * portion) in
      match integer_value k with
      | Some n => PrimFloat.Leibniz.eqb k (number_of_Z n) && (5 <=? n)%Z && (n <=? 200)%Z
      | None => false
      end) (portions food)) foodDatabase = true.
Proof. vm_compute. reflexivity. Qed.

Lemma quotient_nonneg x y m e :
  Prim2SF x = S754_finite false m e -> (0 <? y) = true ->
  SFClass.nonneg (Prim2SF (x / y)).
Proof.
  intros Hx Hy. apply Binary64.ltb_zero_iff in Hy. rewrite div_spec, Hx.
  destruct (Prim2SF y) as [s|s| |s m' e']; cbn [SFClass.strictly] in Hy; try tauto; subst s.
  - exact I.
  - apply Binary64.sign_is_nonneg.
    exact (Binary64.SFdiv_finite_sign false m e false m' e').
Qed.

(** X13.  In a state as the script reaches them, with valid settings
    and a scenario of the catalog, the reference values are numbers
    that are not negative: none of the net carbs, the insulin for
    carbs, the correction dose and the total dose is negative or
    [NaN]. *)
Theorem reference_dose_is_not_negative q food :
  wellFormed q -> validSettings (userSettings q) = true ->
  currentFood q = Some food ->
  let c := correctAnswer food (currentPortion q) (currentBG q) (userSettings q) in
  (0 <=? netCarbs c) = true /\ (0 <=? insulinForCarbs c) = true /\
  (0 <=? correctionDose c) = true /\ (0 <=? totalDose c) = true.
Proof.
  intros [Wf (b & Hbg & Hb & _)] V Hq c. rewrite Hq in Wf. destruct Wf as [Hfood Hportion].
  unfold validSettings in V. rewrite !andb_true_iff in V.
  destruct V as [[[Vr Vf] Vt1] Vt2].
  set (s := userSettings q) in *.
  (* the net carbs *)
  pose proof catalog_net_carbs_range as C. rewrite forallb_forall in C.
  specialize (C food Hfood). rewrite forallb_forall in C.
  specialize (C (currentPortion q) Hportion). cbv zeta in C.
  change (Math_round ((totalCarbs food - fiber food) * currentPortion q))
    with (netCarbs c) in C.
  destruct (integer_value (netCarbs c)) as [n|]; [|discriminate].
  rewrite !andb_true_iff in C. destruct C as [[C1 C2] C3].
  apply FloatAxioms.Leibniz.eqb_spec in C1. apply Z.leb_le in C2, C3.
  destruct n as [|n|n]; try lia.
  destruct (JSFacts.Prim2SF_number_of_pos n) as (mk & _ & Hk).
  { eapply Z.le_lt_trans; [exact C3|reflexivity]. }
  rewrite <- C1 in Hk.
  (* the insulin for carbs *)
  assert ((0 <=? insulinForCarbs c) = true) as Hins.
  { apply JSFacts.one_decimal_nonneg. exact (quotient_nonneg _ _ _ _ Hk Vr). }
  (* the correction dose *)
  assert ((0 <=? correctionDose c) = true) as Hcorr.
  { unfold c, correctAnswer. cbn [correctionDose]. fold s.
    destruct (gt (currentBG q - targetBG s) 0) eqn:Hgt; [|reflexivity].
    apply JSFacts.one_decimal_nonneg. unfold gt in Hgt.
    assert ((0 <? targetBG s) = true) as Vt0.
    { apply Binary64.ltb_zero_iff. apply seventy_ToBoolean in Vt1 as Ht.
      rewrite leb_spec in Vt1.
      destruct (Prim2SF (targetBG s)) as [st|st| |st mt et]; try (vm_compute in Vt1; discriminate).
      - destruct st; [vm_compute in Vt1; discriminate|reflexivity].
      - destruct st; [vm_compute in Vt1; discriminate|reflexivity]. }
    destruct (Binary64.upto_180 _ Vt0 Vt2) as (mt & et & Ht & Het).
    destruct b as [|pb|pb]; try lia.
    destruct (JSFacts.Prim2SF_number_of_pos pb) as (mb & _ & Hb').
    { eapply Z.le_lt_trans; [apply (proj2 Hb)|reflexivity]. }
    rewrite <- Hbg in Hb'.
    assert (Z.log2 (Zpos pb) < 9)%Z as Hl by (apply Z.log2_lt_pow2; lia).
    pose proof (Prim2SF_valid (currentBG q)) as Vb. rewrite Hb' in Vb.
    apply Binary64.valid_finite, Binary64.canonical_bounds in Vb.
    pose proof (Prim2SF_valid (targetBG s)) as Vt. rewrite Ht in Vt.
    apply Binary64.valid_finite, Binary64.canonical_bounds in Vt.
    pose proof (Binary64.SFsub_bounded_finite false mb (Z.log2 (Zpos pb) - 52) false mt et
                  ltac:(lia) ltac:(lia) ltac:(lia) ltac:(lia)) as Hfin.
    rewrite <- Hb', <- Ht, <- sub_spec in Hfin.
    apply Binary64.ltb_zero_iff in Hgt.
    destruct (Prim2SF (currentBG q - targetBG s)) as [sd|sd| |sd md ed] eqn:Ed;
      cbn [SFClass.strictly SFClass.finite] in Hgt, Hfin; try tauto. subst sd.
    exact (quotient_nonneg _ _ _ _ Ed Vf). }
  (* the total dose *)
  assert ((0 <=? totalDose c) = true) as Htot.
  { change (totalDose c)
      with (parseFloat (toFixed_1 (insulinForCarbs c + correctionDose c))).
    apply JSFacts.one_decimal_nonneg. rewrite add_spec.
    apply Binary64.SFadd_nonneg; now apply Binary64.leb_zero_iff. }
  split; [|auto]. apply Binary64.leb_zero_iff. rewrite Hk. reflexivity.
Qed.

(** Half a serving of Cheerios at blood glucose 80, a carb ratio of
    0.5 and a target of 180. *)
Lemma reference_dose_is_not_negative_witness :
  let q := {| currentFood := Some Cheerios; currentPortion := 0.5; currentBG := 80;
              userSettings := {| carbRatio := 0.5; correctionFactor := 50; targetBG := 180 |};
              stats := {| totalAttempts := 0; correctAnswers := 0 |} |} in
  let c := correctAnswer Cheerios (currentPortion q) (currentBG q) (userSettings q) in
  wellFormed q /\ validSettings (userSettings q) = true /\
  currentFood q = Some Cheerios /\
  c = {| netCarbs := 9; insulinForCarbs := 18; correctionDose := 0; totalDose := 18 |} /\
  (0 <=? netCarbs c) = true /\ (0 <=? insulinForCarbs c) = true /\
  (0 <=? correctionDose c) = true /\ (0 <=? totalDose c) = true.
Proof.
  cbv zeta.
  set (q := {| currentFood := Some Cheerios; currentPortion := 0.5; currentBG := 80;
               userSettings := {| carbRatio := 0.5; correctionFactor := 50; targetBG := 180 |};
               stats := {| totalAttempts := 0; correctAnswers := 0 |} |}).
  assert (wellFormed q) as W.
  { split; [split; cbn; tauto|].
    exists 80%Z. split; [reflexivity|]. split; [lia|reflexivity]. }
  assert (validSettings (userSettings q) = true) as V by reflexivity.
  split; [exact W|]. split; [exact V|]. split; [reflexivity|].
  split; [vm_compute; reflexivity|].
  exact (reference_dose_is_not_negative q Cheerios W V eq_refl).
Defined.

(** *** Starting, as a whole *)

(** X14.  A start with valid settings stores them, leaves the counters
    alone and sets up a question: a food of the catalog in one of its
    portions, shown with its label and the blood glucose, the answer
    fields emptied and earlier feedback removed. *)
Theorem startQuiz_starts r1 r2 r3 p q :
  validSettings (typedSettings p) = true ->
  random r1 = true -> random r2 = true -> random r3 = true ->
  exists p' q' food,
    startQuiz r1 r2 r3 p q = (Done, p', q') /\
    userSettings q' = typedSettings p /\ stats q' = stats q /\
    currentFood q' = Some food /\ wellFormed q' /\
    current_bg p' = Some (currentBG q') /\
    nutrition_label p' = Some (renderNutritionLabel food (currentPortion q')) /\
    (carbs_eating p', insulin_carbs p', insulin_correction p', total_dose p')
    = ("", "", "", "") /\
    feedback_section p' = None.
Proof.
  intros V H1 H2 H3. rewrite startQuiz_cases. cbv zeta. rewrite V.
  match goal with |- context [generateQuestion r1 r2 r3 p ?q0] =>
    destruct (generateQuestion_valid r1 r2 r3 p q0 H1 H2 H3)
      as (food & portion & k & Hf & Hp & Hk & ->) end.
  do 2 eexists. exists food. split; [reflexivity|]. cbn.
  repeat (split; [reflexivity|]). split; [|repeat split].
  split; cbn [currentFood currentPortion currentBG]; [now split|].
  exists (5 * ((k + 82) / 5))%Z. split; [reflexivity|]. now apply blood_glucose_range.
Qed.

Lemma startQuiz_starts_witness :
  let p := fill carb_ratio_field "12" (fill correction_factor_field "40"
             (fill target_bg_field "110" (submission "9" "1" "" "2"))) in
  validSettings (typedSettings p) = true /\
  random 0.5 = true /\ random 0.25 = true /\ random 0.999 = true /\
  exists p' q' food,
    startQuiz 0.5 0.25 0.999 p scenario1 = (Done, p', q') /\
    userSettings q' = {| carbRatio := 12; correctionFactor := 40; targetBG := 110 |} /\
    stats q' = stats scenario1 /\
    currentFood q' = Some food /\ wellFormed q' /\
    current_bg p' = Some (currentBG q') /\
    nutrition_label p' = Some (renderNutritionLabel food (currentPortion q')) /\
    (carbs_eating p', insulin_carbs p', insulin_correction p', total_dose p')
    = ("", "", "", "") /\
    feedback_section p' = None.
Proof.
  cbv zeta. split; [vm_compute; reflexivity|]. split; [reflexivity|].
  split; [reflexivity|]. split; [reflexivity|].
  destruct (startQuiz_starts 0.5 0.25 0.999
              (fill carb_ratio_field "12" (fill correction_factor_field "40"
                 (fill target_bg_field "110" (submission "9" "1" "" "2")))) scenario1)
    as (p' & q' & food & E & Hs & H); try reflexivity.
  exists p', q', food. split; [exact E|]. split; [|exact H].
  rewrite Hs. vm_compute. reflexivity.
Defined.

(** *** Checking again *)

Lemma checkAnswer_again r p q food :
  incomplete p = false -> currentFood q = Some food ->
  let p' := snd (fst (checkAnswer r p q)) in
  let q' := snd (checkAnswer r p q) in
  incomplete p' = false /\ currentFood q' = Some food /\
  scored_tier p' q' food = scored_tier p q food /\
  stats q' = scored_stats (scored_tier p q food) (stats q).
Proof.
  intros H H0. pose proof (checkAnswer_keeps r p q) as K.
  destruct (DosingQuizFacts.checkAnswer_scored r p q food H H0) as (p1 & E & _).
  rewrite E in *. cbn [fst snd] in *.
  destruct K as (K1 & K2 & K3 & K4 & _ & _ & _ & K8 & K9 & _ & K11 & _).
  unfold incomplete, scored_tier in *. cbn [currentPortion currentBG userSettings stats].
  rewrite K8, K9, K11. repeat split; assumption.
Qed.

(** X15.  Nothing keeps an answer from being checked again: each
    further click on a submission that is scored counts one more
    attempt, and one more correct answer when its tier is [correct]. *)
Theorem resubmission_counts_again rs p q food :
  incomplete p = false -> currentFood q = Some food ->
  let n := N.of_nat (List.length rs) in
  let q' := snd (run (map CheckAnswer rs) p q) in
  totalAttempts (stats q') = (totalAttempts (stats q) + n)%N /\
  correctAnswers (stats q') =
    (correctAnswers (stats q)
     + match scored_tier p q food with correct => n | _ => 0 end)%N.
Proof.
  cbv zeta. revert p q. induction rs as [|r rs IH]; intros p q H H0.
  - cbn [map run snd List.length N.of_nat]. destruct (scored_tier p q food); lia.
  - cbn [map]. rewrite run_cons. cbn [perform].
    destruct (checkAnswer_again r p q food H H0) as (H' & H0' & Ht & Hs).
    destruct (IH _ _ H' H0') as [I1 I2]. rewrite I1, I2, Ht, Hs.
    cbn [List.length].
    destruct (scored_tier p q food); cbn [scored_stats totalAttempts correctAnswers]; lia.
Qed.

Lemma resubmission_counts_again_witness :
  let q' := snd (run (map CheckAnswer [0; 0.5; 0.25]) (submission "17" "1.7" "1.0" "2.7")
                   scenario1) in
  incomplete (submission "17" "1.7" "1.0" "2.7") = false /\
  currentFood scenario1 = Some Cheerios /\
  scored_tier (submission "17" "1.7" "1.0" "2.7") scenario1 Cheerios = correct /\
  totalAttempts (stats q') = 3%N /\ correctAnswers (stats q') = 3%N /\
  accuracy_text (updateStats (stats q')) = 100.
Proof.
  cbv zeta.
  destruct (resubmission_counts_again [0; 0.5; 0.25] (submission "17" "1.7" "1.0" "2.7")
              scenario1 Cheerios eq_refl eq_refl) as [H1 H2].
  split; [reflexivity|]. split; [reflexivity|]. split; [vm_compute; reflexivity|].
  split; [exact H1|]. split; [|vm_compute; reflexivity].
  rewrite H2. vm_compute. reflexivity.
Defined.

(** *** The message *)

(** X16.  With a number that [Math.random()] can return, the message
    shown with the feedback is one of the messages of the tier
    shown. *)
Theorem message_of_the_tier r p q food :
  random r = true -> incomplete p = false -> currentFood q = Some food ->
  exists p' q' fb msg,
    checkAnswer r p q = (Done, p', q') /\
    feedback_section p' = Some fb /\
    fb_message fb = Some msg /\
    In msg (encouragementMessages (fb_type fb)).
Proof.
  intros [A B]%random_spec H H0.
  destruct (checkAnswer_feedback r p q food H H0) as (p' & -> & _ & _ & _ & Hfb).
  cbv zeta in Hfb.
  set (t := tier _ _ _) in *.
  destruct (JSFacts.random_element (encouragementMessages t) r A B) as (msg & Hm & Hin).
  { destruct t; discriminate. }
  { destruct t; reflexivity. }
  do 2 eexists. eexists. exists msg. split; [reflexivity|]. split; [exact Hfb|].
  cbn [fb_message fb_type displayFeedback]. split; [exact Hm|exact Hin].
Qed.

Lemma message_of_the_tier_witness :
  random 0.999 = true /\ incomplete (submission "17" "1.7" "1.0" "3.5") = false /\
  currentFood scenario1 = Some Cheerios /\
  exists p' q' fb msg,
    checkAnswer 0.999 (submission "17" "1.7" "1.0" "3.5") scenario1 = (Done, p', q') /\
    feedback_section p' = Some fb /\
    fb_message fb = Some msg /\
    In msg (encouragementMessages (fb_type fb)).
Proof.
  split; [reflexivity|]. split; [reflexivity|]. split; [reflexivity|].
  apply (message_of_the_tier 0.999 _ scenario1 Cheerios); reflexivity.
Defined.

(** *** The page against the state *)

Lemma perform_inSync a p q :
  inSync p q ->
  inSync (snd (fst (perform a p q))) (snd (perform a p q)).
Proof.
  intros (S1 & S2 & S3).
  assert (forall r1 r2 r3 s,
            inSync (snd (fst (generateQuestion r1 r2 r3 p
                      {| currentFood := currentFood q; currentPortion := currentPortion q;
                         currentBG := currentBG q; userSettings := s; stats := stats q |})))
                   (snd (generateQuestion r1 r2 r3 p
                      {| currentFood := currentFood q; currentPortion := currentPortion q;
                         currentBG := currentBG q; userSettings := s; stats := stats q |})))
    as G.
  { intros r1 r2 r3 s. unfold generateQuestion.
    destruct (get foodDatabase (Math_floor (r1 * length foodDatabase))) as [food|];
      cbn [fst snd].
    - split; [|split]; cbn.
      + intros food' [= <-]. split; reflexivity.
      + exact S2.
      + discriminate.
    - split; [|split]; cbn.
      + discriminate.
      + exact S2.
      + discriminate. }
  destruct a as [f t|r1 r2 r3|r|r1 r2 r3]; cbn [perform].
  - cbn [fst snd]. split; [|split]; cbn; assumption.
  - rewrite startQuiz_cases. cbv zeta.
    destruct (validSettings (typedSettings p)); [apply G|].
    cbn [fst snd]. split; [|split]; assumption.
  - destruct (incomplete p) eqn:Hi.
    + rewrite DosingQuizFacts.checkAnswer_incomplete by exact Hi.
      cbn [fst snd]. split; [|split]; assumption.
    + assert (currentFood q = None \/ exists food, currentFood q = Some food) as Hcase
        by (destruct (currentFood q); eauto).
      destruct Hcase as [Hq|[food Hq]].
      * rewrite DosingQuizFacts.checkAnswer_no_food by assumption.
        cbn [fst snd]. split; [|split]; assumption.
      * destruct (checkAnswer_feedback r p q food Hi Hq) as (p' & -> & P1 & P2 & P3 & P4).
        cbv zeta in P4. cbn [fst snd]. split; [|split].
        -- cbn [currentFood currentBG currentPortion]. rewrite P2, P3. exact S1.
        -- cbn [stats]. rewrite P1. now intros panel [= <-].
        -- rewrite P4. intros fb [= <-]. exists food.
           cbn [currentFood currentBG currentPortion userSettings]. split; [exact Hq|].
           cbn. repeat split.
  - unfold nextQuestion.
    replace q with {| currentFood := currentFood q; currentPortion := currentPortion q;
                      currentBG := currentBG q; userSettings := userSettings q;
                      stats := stats q |} at 1 2 by (destruct q; reflexivity).
    apply G.
Qed.

(** X17.  The page keeps showing what the state holds: after any
    sequence of actions the blood glucose and the label shown are those
    of the current scenario, the counters shown are the current ones,
    and the reference values of the feedback shown are those of the
    current scenario under the current settings. *)
Theorem display_stays_in_sync l p q :
  inSync p q -> inSync (fst (run l p q)) (snd (run l p q)).
Proof.
  revert p q. induction l as [|a l IH]; intros p q S.
  - exact S.
  - rewrite run_cons. apply IH. now apply perform_inSync.
Qed.

Lemma display_stays_in_sync_witness :
  let l := [StartQuiz 0.5 0.25 0.999; Fill carbs_eating_field "36";
            Fill insulin_carbs_field "3.6"; Fill total_dose_field "7.2"; CheckAnswer 0.3;
            Fill carb_ratio_field "20"; StartQuiz 0 0 0; CheckAnswer 0.3] in
  let p0 := submission "" "" "" "" in
  inSync p0 initial /\
  inSync (fst (run l p0 initial)) (snd (run l p0 initial)) /\
  option_map total_attempts_text (stats_panel (fst (run l p0 initial))) = Some 1%N /\
  totalAttempts (stats (snd (run l p0 initial))) = 1%N.
Proof.
  cbv zeta.
  assert (inSync (submission "" "" "" "") initial) as S.
  { split; [|split]; intros x Hx; discriminate Hx. }
  split; [exact S|]. split; [now apply display_stays_in_sync|].
  split; vm_compute; reflexivity.
Defined.

End InteractionFacts.
